(** * GeoVerify: the verification and fraud-scoring core

    A shallow embedding of [lib/geohash.ts] and [lib/verification.ts]
    (geohash encode/decode and neighbours, one-time codes, QR payload
    validation, telemetry analysis, and the replay / rate-limit guard of
    [verifyRedemption]), of the in-memory store [lib/db.ts] and of the
    verification endpoint, followed by the properties established about
    them.

    Conventions of the embedding
    - JavaScript [number]s that hold epoch milliseconds, counters, bit
      patterns and risk scores are integers ([Z]); coordinates, distances
      and other measurements are exact rationals ([Q]).  For the geohash
      functions up to 18 characters every bound, sum, midpoint and
      half-width of a cell is held exactly by a binary64 value (lemma
      [geohash_cells_exact]), so the double arithmetic of the code rounds
      nowhere and [Q] agrees with it; for longer hashes the doubles round
      and the numbers of the code are no longer those of the embedding.
      In the telemetry analysis the rounding of doubles is not modelled: a
      test that the code decides on a rounded value (the dwell threshold
      [dwellTimeRequired * 0.8], the mean and deviation of the accuracies)
      can fall the other way at its threshold.
    - One call reads the clock once, except where the two readings are
      named ([generateSecureQRPayload], the endpoint).
    - Strings are sequences of 8-bit characters (ASCII text).
    - An exception is a value [Throw e] of the result type. *)

From Stdlib Require Import ZArith QArith Qabs Qround Lqa Lia Bool List Ascii String.
From Stdlib Require Import Sorting.Permutation Sorting.Sorted.
From stdpp Require Import base option gmap strings.
Import ListNotations.

Local Open Scope Z_scope.

(** ** Exceptions *)

Inductive Exn : Type :=
| Error (message : string)
| SyntaxError
| TypeError.

Inductive Completion (A : Type) : Type :=
| Return (a : A)
| Throw (e : Exn).
Arguments Return {A} a.
Arguments Throw {A} e.

Definition bindC {A B} (c : Completion A) (k : A -> Completion B) : Completion B :=
  match c with
  | Return a => k a
  | Throw e => Throw e
  end.

Notation "'let!' x ':=' c 'in' k" := (bindC c (fun x => k))
  (at level 10, x name, c at level 100, k at level 200).

(** ** Strings *)

Definition charAt (s : string) (i : Z) : option ascii :=
  if i <? 0 then None else String.get (Z.to_nat i) s.

(** [s.indexOf(c)] for a one-character needle: position of the first
    occurrence, [-1] when there is none. *)
Fixpoint indexOf_from (s : string) (c : ascii) (i : Z) : Z :=
  match s with
  | EmptyString => -1
  | String d rest => if Ascii.eqb d c then i else indexOf_from rest c (i + 1)
  end.

Definition indexOf (s : string) (c : ascii) : Z := indexOf_from s c 0.

Definition lowerChar (c : ascii) : ascii :=
  let n := nat_of_ascii c in
  if ((65 <=? n) && (n <=? 90))%nat then ascii_of_nat (n + 32) else c.

Fixpoint toLowerCase (s : string) : string :=
  match s with
  | EmptyString => EmptyString
  | String c rest => String (lowerChar c) (toLowerCase rest)
  end.

Definition strlen (s : string) : Z := Z.of_nat (String.length s).

(** [s.slice(start, end)]: negative positions count from the end, both are
    clamped to the string, and an empty range gives the empty string. *)
Definition clampIndex (len i : Z) : Z :=
  if i <? 0 then Z.max (len + i) 0 else Z.min i len.

Definition slice (s : string) (start stop : Z) : string :=
  let len := strlen s in
  let from := clampIndex len start in
  let to := clampIndex len stop in
  if from <? to
  then String.substring (Z.to_nat from) (Z.to_nat (to - from)) s
  else EmptyString.

(** [s.slice(start)] *)
Definition sliceFrom (s : string) (start : Z) : string :=
  slice s start (strlen s).

Fixpoint repeatChar (n : nat) (c : ascii) : string :=
  match n with
  | O => EmptyString
  | S k => String c (repeatChar k c)
  end.

(** [s.padStart(target, c)] for a one-character filler. *)
Definition padStart (s : string) (target : Z) (c : ascii) : string :=
  if target <=? strlen s then s
  else repeatChar (Z.to_nat (target - strlen s)) c +:+ s.

(** Decimal rendering of an integer, as [Number.prototype.toString] does
    for integers below 10^21. *)
Definition digitChar (d : Z) : ascii := ascii_of_nat (48 + Z.to_nat d).

Fixpoint decimal_digits (fuel : nat) (n : Z) (acc : string) : string :=
  match fuel with
  | O => acc
  | S fuel' =>
      let acc' := String (digitChar (n mod 10)) acc in
      if n / 10 =? 0 then acc' else decimal_digits fuel' (n / 10) acc'
  end.

Definition natural_to_string (n : Z) : string :=
  decimal_digits (S (Z.to_nat (Z.log2 n))) n EmptyString.

Definition integer_to_string (n : Z) : string :=
  if n <? 0 then String "-" (natural_to_string (- n)) else natural_to_string n.

(** Value of a hexadecimal digit, either case. *)
Definition hexValue (c : ascii) : option Z :=
  let n := Z.of_nat (nat_of_ascii c) in
  if (48 <=? n) && (n <=? 57) then Some (n - 48)
  else if (97 <=? n) && (n <=? 102) then Some (n - 87)
  else if (65 <=? n) && (n <=? 70) then Some (n - 55)
  else None.

(** Longest prefix of hexadecimal digits, accumulated left to right;
    [None] when there is no digit at all. *)
Fixpoint hexPrefix (s : string) (acc : option Z) : option Z :=
  match s with
  | EmptyString => acc
  | String c rest =>
      match hexValue c with
      | Some d => hexPrefix rest (Some (16 * default 0 acc + d))
      | None => acc
      end
  end.

Definition isWhiteSpace (c : ascii) : bool :=
  let n := nat_of_ascii c in
  ((n =? 32) || ((9 <=? n) && (n <=? 13)))%nat.

Fixpoint trimStart (s : string) : string :=
  match s with
  | String c rest => if isWhiteSpace c then trimStart rest else s
  | EmptyString => EmptyString
  end.

(** [parseInt(s, 16)]; [None] is [NaN].  Leading white space, a sign and
    a [0x] / [0X] prefix are accepted as the language defines. *)
Definition parseInt16 (s : string) : option Z :=
  let s1 := trimStart s in
  let '(neg, s2) :=
    match s1 with
    | String "-" rest => (true, rest)
    | String "+" rest => (false, rest)
    | _ => (false, s1)
    end in
  let s3 :=
    match s2 with
    | String "0" (String "x" rest) => rest
    | String "0" (String "X" rest) => rest
    | _ => s2
    end in
  match hexPrefix s3 None with
  | Some v => Some (if neg then - v else v)
  | None => None
  end.

(** [x < y] on numbers *)
Definition Qlt_bool (x y : Q) : bool := negb (Qle_bool y x).

(** ** Geohash (lib/geohash.ts) *)

Module Geohash.

Definition BASE32 : string := "0123456789bcdefghjkmnpqrstuvwxyz".

Record EncState : Type := mkEnc {
  e_minLat : Q; e_maxLat : Q;
  e_minLng : Q; e_maxLng : Q;
  e_hash : string;
  e_bit : Z;
  e_ch : Z;
  e_isLng : bool
}.

Definition enc_init : EncState :=
  mkEnc (-90) 90 (-180) 180 "" 0 0 true.

(** [hash += BASE32[ch]]: an index outside the alphabet reads [undefined],
    which string concatenation renders as the text "undefined". *)
Definition append_base32 (hash : string) (ch : Z) : string :=
  match charAt BASE32 ch with
  | Some c => hash +:+ String c ""
  | None => hash +:+ "undefined"
  end.

(** One iteration of the [while] body of [encodeGeohash]. *)
Definition encode_step (lat lng : Q) (s : EncState) : EncState :=
  let s1 :=
    if e_isLng s then
      let mid := ((e_minLng s + e_maxLng s) / 2)%Q in
      if Qle_bool mid lng then
        mkEnc (e_minLat s) (e_maxLat s) mid (e_maxLng s) (e_hash s) (e_bit s)
              (Z.lor (e_ch s) (Z.shiftl 1 (4 - e_bit s))) (e_isLng s)
      else
        mkEnc (e_minLat s) (e_maxLat s) (e_minLng s) mid (e_hash s) (e_bit s)
              (e_ch s) (e_isLng s)
    else
      let mid := ((e_minLat s + e_maxLat s) / 2)%Q in
      if Qle_bool mid lat then
        mkEnc mid (e_maxLat s) (e_minLng s) (e_maxLng s) (e_hash s) (e_bit s)
              (Z.lor (e_ch s) (Z.shiftl 1 (4 - e_bit s))) (e_isLng s)
      else
        mkEnc (e_minLat s) mid (e_minLng s) (e_maxLng s) (e_hash s) (e_bit s)
              (e_ch s) (e_isLng s) in
  let s2 :=
    mkEnc (e_minLat s1) (e_maxLat s1) (e_minLng s1) (e_maxLng s1) (e_hash s1)
          (e_bit s1 + 1) (e_ch s1) (negb (e_isLng s1)) in
  if e_bit s2 =? 5 then
    mkEnc (e_minLat s2) (e_maxLat s2) (e_minLng s2) (e_maxLng s2)
          (append_base32 (e_hash s2) (e_ch s2)) 0 0 (e_isLng s2)
  else s2.

(** [while (hash.length < precision) { ... }], unrolled [fuel] times. *)
Fixpoint encode_loop (fuel : nat) (lat lng : Q) (precision : Z) (s : EncState)
  : EncState :=
  match fuel with
  | O => s
  | S fuel' =>
      if strlen (e_hash s) <? precision
      then encode_loop fuel' lat lng precision (encode_step lat lng s)
      else s
  end.

(** Every character costs five iterations, so [5 * precision] iterations
    are enough for the loop to leave (lemma [encode_loop_exits]).  The
    midpoints are those of the code up to precision 18 (lemma
    [encodeGeohash_exact]); beyond it the doubles of the code round. *)
Definition encodeGeohash (lat lng : Q) (precision : Z) : string :=
  e_hash (encode_loop (5 * Z.to_nat precision) lat lng precision enc_init).

Record DecState : Type := mkDec {
  d_minLat : Q; d_maxLat : Q;
  d_minLng : Q; d_maxLng : Q;
  d_isLng : bool
}.

Definition dec_init : DecState := mkDec (-90) 90 (-180) 180 true.

(** Body of the inner [for] loop of [decodeGeohash] for one bit. *)
Definition decode_bit (idx bit : Z) (s : DecState) : DecState :=
  let bitValue := Z.land (Z.shiftr idx bit) 1 in
  let s1 :=
    if d_isLng s then
      let mid := ((d_minLng s + d_maxLng s) / 2)%Q in
      if bitValue =? 1
      then mkDec (d_minLat s) (d_maxLat s) mid (d_maxLng s) (d_isLng s)
      else mkDec (d_minLat s) (d_maxLat s) (d_minLng s) mid (d_isLng s)
    else
      let mid := ((d_minLat s + d_maxLat s) / 2)%Q in
      if bitValue =? 1
      then mkDec mid (d_maxLat s) (d_minLng s) (d_maxLng s) (d_isLng s)
      else mkDec (d_minLat s) mid (d_minLng s) (d_maxLng s) (d_isLng s) in
  mkDec (d_minLat s1) (d_maxLat s1) (d_minLng s1) (d_maxLng s1)
        (negb (d_isLng s1)).

(** [for (let bit = 4; bit >= 0; bit--)]: [decode_bits 5] visits bits
    4, 3, 2, 1, 0 in that order. *)
Fixpoint decode_bits (n : nat) (idx : Z) (s : DecState) : DecState :=
  match n with
  | O => s
  | S k => decode_bits k idx (decode_bit idx (Z.of_nat k) s)
  end.

(** [for (const char of ...)] with the [throw] on an unknown character. *)
Fixpoint decode_chars (chars : string) (s : DecState) : Completion DecState :=
  match chars with
  | EmptyString => Return s
  | String char rest =>
      let idx := indexOf BASE32 char in
      if idx =? -1
      then Throw (Error ("Invalid geohash character: " +:+ String char ""))
      else decode_chars rest (decode_bits 5 idx s)
  end.

Record Decoded : Type := mkDecoded {
  lat : Q;
  lng : Q;
  latError : Q;
  lngError : Q
}.

(** The bounds, the centre and the errors are those of the code for hashes
    of up to 18 characters (lemma [decodeGeohash_exact]); beyond that the
    doubles of the code round. *)
Definition decodeGeohash (hash : string) : Completion Decoded :=
  let! s := decode_chars (toLowerCase hash) dec_init in
  Return (mkDecoded ((d_minLat s + d_maxLat s) / 2)%Q
                    ((d_minLng s + d_maxLng s) / 2)%Q
                    ((d_maxLat s - d_minLat s) / 2)%Q
                    ((d_maxLng s - d_minLng s) / 2)%Q).

(** [neighbors.includes(h)] *)
Definition includes (l : list string) (h : string) : bool :=
  existsb (String.eqb h) l.

(** Body of the two nested [for] loops of [getNeighbors] for one pair of
    offsets. *)
Definition neighbor_step (hash : string) (d : Decoded) (precision : Z)
  (dLat dLng : Z) (neighbors : list string) : list string :=
  if (dLat =? 0) && (dLng =? 0) then neighbors
  else
    let neighborHash :=
      encodeGeohash (lat d + inject_Z dLat * latError d)%Q
                    (lng d + inject_Z dLng * lngError d)%Q precision in
    if negb (includes neighbors neighborHash) && negb (String.eqb neighborHash hash)
    then neighbors ++ [neighborHash]
    else neighbors.

Definition getNeighbors (hash : string) : Completion (list string) :=
  let! d := decodeGeohash hash in
  let precision := strlen hash in
  let deltas := [-2; 0; 2] in
  Return
    (fold_left
       (fun neighbors dLat =>
          fold_left (fun neighbors dLng =>
                       neighbor_step hash d precision dLat dLng neighbors)
                    deltas neighbors)
       deltas []).

Definition getGeohashesForRadius (lat lng radiusMeters : Q)
  : Completion (list string) :=
  let precision :=
    if Qlt_bool 5000 radiusMeters then 4
    else if Qlt_bool 1000 radiusMeters then 5
    else if Qlt_bool 200 radiusMeters then 6
    else 7 in
  let centerHash := encodeGeohash lat lng precision in
  let! neighbors := getNeighbors centerHash in
  Return (centerHash :: neighbors).

End Geohash.

(** ** HMAC-SHA256 (node:crypto)

    [createHmac('sha256', key).update(msg).digest('hex')], following
    FIPS 180-4 and RFC 2104 on 32-bit words held in [Z]. *)

Module Crypto.

Definition add32 (a b : Z) : Z := (a + b) mod 4294967296.

Definition rotr (n x : Z) : Z :=
  Z.lor (Z.shiftr x n) ((Z.shiftl x (32 - n)) mod 4294967296).

Definition Ch (x y z : Z) : Z := Z.lxor (Z.land x y) (Z.land (Z.lnot x) z).
Definition Maj (x y z : Z) : Z :=
  Z.lxor (Z.lxor (Z.land x y) (Z.land x z)) (Z.land y z).
Definition Sigma0 (x : Z) : Z := Z.lxor (Z.lxor (rotr 2 x) (rotr 13 x)) (rotr 22 x).
Definition Sigma1 (x : Z) : Z := Z.lxor (Z.lxor (rotr 6 x) (rotr 11 x)) (rotr 25 x).
Definition sigma0 (x : Z) : Z := Z.lxor (Z.lxor (rotr 7 x) (rotr 18 x)) (Z.shiftr x 3).
Definition sigma1 (x : Z) : Z := Z.lxor (Z.lxor (rotr 17 x) (rotr 19 x)) (Z.shiftr x 10).

(** The constants are those of FIPS 180-4: the first 32 bits of the
    fractional parts of the cube roots (round constants) and square roots
    (initial hash value) of the first primes. *)
Definition is_prime (n : nat) : bool :=
  (1 <? n)%nat && forallb (fun d => negb (n mod d =? 0)%nat) (seq 2 (n - 2)).

Definition primes (count : nat) : list Z :=
  map Z.of_nat (firstn count (List.filter is_prime (seq 2 310))).

Fixpoint cube_root (bits : nat) (n r : Z) : Z :=
  match bits with
  | O => r
  | S k =>
      let r' := r + 2 ^ Z.of_nat k in
      cube_root k n (if r' ^ 3 <=? n then r' else r)
  end.

Definition frac32_cbrt (p : Z) : Z := cube_root 36 (p * 2 ^ 96) 0 mod 2 ^ 32.
Definition frac32_sqrt (p : Z) : Z := Z.sqrt (p * 2 ^ 64) mod 2 ^ 32.

Definition K256 : list Z := Eval vm_compute in map frac32_cbrt (primes 64).

Record Words8 : Type := mkW8 {
  wa : Z; wb : Z; wc : Z; wd : Z; we : Z; wf : Z; wg : Z; wh : Z
}.

Definition H256 : Words8 :=
  Eval vm_compute in
    match map frac32_sqrt (primes 8) with
    | [a; b; c; d; e; f; g; h] => mkW8 a b c d e f g h
    | _ => mkW8 0 0 0 0 0 0 0 0
    end.

Definition round (k w : Z) (s : Words8) : Words8 :=
  let t1 := add32 (add32 (add32 (wh s) (Sigma1 (we s)))
                         (add32 (Ch (we s) (wf s) (wg s)) k)) w in
  let t2 := add32 (Sigma0 (wa s)) (Maj (wa s) (wb s) (wc s)) in
  mkW8 (add32 t1 t2) (wa s) (wb s) (wc s) (add32 (wd s) t1) (we s) (wf s) (wg s).

(** The 64 rounds; [w] is the sliding window of the last sixteen schedule
    words, oldest first. *)
Fixpoint rounds (ks : list Z) (w : list Z) (s : Words8) : Words8 :=
  match ks with
  | [] => s
  | k :: ks' =>
      let next :=
        add32 (add32 (sigma1 (nth 14 w 0)) (nth 9 w 0))
              (add32 (sigma0 (nth 1 w 0)) (nth 0 w 0)) in
      rounds ks' (tl w ++ [next]) (round k (nth 0 w 0) s)
  end.

Definition compress (s : Words8) (block : list Z) : Words8 :=
  let r := rounds K256 block s in
  mkW8 (add32 (wa s) (wa r)) (add32 (wb s) (wb r)) (add32 (wc s) (wc r))
       (add32 (wd s) (wd r)) (add32 (we s) (we r)) (add32 (wf s) (wf r))
       (add32 (wg s) (wg r)) (add32 (wh s) (wh r)).

Fixpoint be_words (n : nat) (bytes : list Z) : list Z :=
  match n with
  | O => []
  | S k =>
      match bytes with
      | b0 :: b1 :: b2 :: b3 :: rest =>
          (((b0 * 256 + b1) * 256 + b2) * 256 + b3) :: be_words k rest
      | _ => []
      end
  end.

Fixpoint blocks (n : nat) (bytes : list Z) (s : Words8) : Words8 :=
  match n with
  | O => s
  | S k => blocks k (skipn 64 bytes) (compress s (be_words 16 (firstn 64 bytes)))
  end.

Definition be_bytes (width : nat) (x : Z) : list Z :=
  map (fun i => (Z.shiftr x (8 * Z.of_nat i)) mod 256) (rev (seq 0 width)).

Definition pad (msg : list Z) : list Z :=
  let len := Z.of_nat (List.length msg) in
  msg ++ [128] ++ repeat 0 (Z.to_nat ((55 - len) mod 64)) ++ be_bytes 8 (8 * len).

Definition sha256 (msg : list Z) : Words8 :=
  let padded := pad msg in
  blocks (List.length padded / 64)%nat padded H256.

Definition words_of (s : Words8) : list Z :=
  [wa s; wb s; wc s; wd s; we s; wf s; wg s; wh s].

Definition digest_bytes (s : Words8) : list Z := flat_map (be_bytes 4) (words_of s).

Definition hexChar (d : Z) : ascii :=
  if d <? 10 then ascii_of_nat (48 + Z.to_nat d) else ascii_of_nat (87 + Z.to_nat d).

Definition nibbles (w : Z) : list Z :=
  map (fun i => (Z.shiftr w (4 * Z.of_nat i)) mod 16) (rev (seq 0 8)).

Definition digest_nibbles (s : Words8) : list Z := flat_map nibbles (words_of s).

Definition hex_of_nibbles (ns : list Z) : string :=
  string_of_list_ascii (map hexChar ns).

Definition utf8 (s : string) : list Z :=
  map (fun c => Z.of_nat (nat_of_ascii c)) (list_ascii_of_string s).

Definition hmac_key (key : list Z) : list Z :=
  let k := if (64 <? List.length key)%nat then digest_bytes (sha256 key) else key in
  k ++ repeat 0 (64 - List.length k)%nat.

Definition hmac_sha256 (key msg : list Z) : Words8 :=
  let k := hmac_key key in
  let inner := sha256 (map (Z.lxor 0x36) k ++ msg) in
  sha256 (map (Z.lxor 0x5c) k ++ digest_bytes inner).

(** [createHmac('sha256', key).update(msg).digest('hex')] *)
Definition hmac_sha256_hex (key msg : string) : string :=
  hex_of_nibbles (digest_nibbles (hmac_sha256 (utf8 key) (utf8 msg))).

Definition sha256_hex (msg : string) : string :=
  hex_of_nibbles (digest_nibbles (sha256 (utf8 msg))).

End Crypto.

(** ** Values produced by [JSON.parse] *)

Local Set Warnings "-register-all".

Inductive JSNumber : Type :=
| NaN
| Infinity (negative : bool)
| Finite (q : Q).

Inductive JSON : Type :=
| JNull
| JBool (b : bool)
| JNumber (n : JSNumber)
| JString (s : string)
| JArray (items : list JSON)
| JObject (props : list (string * JSON)).

(** A property read gives a value or [undefined] ([None]). *)
Definition JSValue : Type := option JSON.

Fixpoint assoc (key : string) (props : list (string * JSON)) : JSValue :=
  match props with
  | [] => None
  | (k, v) :: rest => if String.eqb k key then Some v else assoc key rest
  end.

(** [payload.key] for the field names read by [verifyQRPayload]: reading a
    property of [null] throws, an object answers with its own property, and
    no other parsed value carries one of these names. *)
Definition getProp (payload : JSON) (key : string) : Completion JSValue :=
  match payload with
  | JNull => Throw TypeError
  | JObject props => Return (assoc key props)
  | _ => Return None
  end.

(** [now > n] for an integer [now]; every comparison with [NaN] is false. *)
Definition gtNumber (now : Z) (n : JSNumber) : bool :=
  match n with
  | NaN => false
  | Infinity negative => negative
  | Finite q => Qlt_bool q (inject_Z now)
  end.

(** ** The verification service (lib/verification.ts) *)

Module Verification.
Section Platform.

(** The deployment and the platform: the configured secret, the numeric
    text conversions of the language, the JSON / base64 codecs, the math
    library and the calendar. *)
Variable TOTP_SECRET : string.
Variable NumberToString : JSNumber -> string.
Variable StringToNumber : string -> JSNumber.
Variable JSON_parse : string -> Completion JSON.
Variable JSON_stringify : JSON -> string.
Variable base64_decode : string -> string.
Variable base64_encode : string -> string.
Variables Math_sin Math_cos Math_sqrt : Q -> Q.
Variable Math_atan2 : Q -> Q -> Q.
Variable getDay : Z -> Z.
Variable toLocaleTimeString : Z -> string -> string.

(** *** String conversion of parsed values

    An array joins its elements with commas ([null] elements are empty);
    an object answers "[object Object]" unless an own [toString] property
    (never callable in parsed JSON) shadows the inherited method, in which
    case the conversion throws. *)
Fixpoint ToString (v : JSON) : Completion string :=
  match v with
  | JNull => Return "null"%string
  | JBool b => Return (if b then "true" else "false")%string
  | JNumber n => Return (NumberToString n)
  | JString s => Return s
  | JArray items =>
      (fix join (items : list JSON) (sep : string) : Completion string :=
         match items with
         | [] => Return ""%string
         | x :: rest =>
             let! sx := match x with
                        | JNull => Return ""%string
                        | _ => ToString x
                        end in
             let! sr := join rest ","%string in
             Return (sep +:+ sx +:+ sr)
         end) items ""%string
  | JObject props =>
      match assoc "toString" props with
      | Some _ => Throw TypeError
      | None => Return "[object Object]"%string
      end
  end.

Definition ToStringValue (v : JSValue) : Completion string :=
  match v with
  | None => Return "undefined"%string
  | Some j => ToString j
  end.

Definition ToNumberValue (v : JSValue) : Completion JSNumber :=
  match v with
  | None => Return NaN
  | Some JNull => Return (Finite 0%Q)
  | Some (JBool b) => Return (Finite (if b then 1%Q else 0%Q))
  | Some (JNumber n) => Return n
  | Some (JString s) => Return (StringToNumber s)
  | Some j => let! s := ToString j in Return (StringToNumber s)
  end.

(** *** One-time codes *)

Definition DEFAULT_TOTP_SECRET : string :=
  "geoverify-secret-key-change-in-production".

Definition TOTP_WINDOW : Z := 30000.

(** [timestamp || Date.now()]: an absent timestamp and the timestamp [0]
    both select the clock. *)
Definition generateTOTP (secret : string) (timestamp : option Z) (now : Z)
  : string :=
  let time :=
    match timestamp with
    | Some t => if t =? 0 then now else t
    | None => now
    end in
  let counter := time / TOTP_WINDOW in
  let hash :=
    Crypto.hmac_sha256_hex TOTP_SECRET
      (secret +:+ "-" +:+ integer_to_string counter) in
  let offset := parseInt16 (sliceFrom hash (-1)) in
  let word :=
    match offset with
    | Some o => parseInt16 (slice hash (o * 2) (o * 2 + 8))
    | None => parseInt16 (slice hash 0 0)
    end in
  match word with
  | Some w => padStart (integer_to_string (Z.rem w 1000000)) 6 "0"
  | None => padStart "NaN" 6 "0"
  end.

(** [for (let i = -windowSize; i <= windowSize; i++)] *)
Fixpoint verifyTOTP_loop (fuel : nat) (code secret : string)
  (windowSize now i : Z) : bool :=
  match fuel with
  | O => false
  | S fuel' =>
      if i <=? windowSize then
        let timestamp := now + i * TOTP_WINDOW in
        if String.eqb (generateTOTP secret (Some timestamp) now) code
        then true
        else verifyTOTP_loop fuel' code secret windowSize now (i + 1)
      else false
  end.

Definition verifyTOTP (code secret : string) (windowSize now : Z) : bool :=
  verifyTOTP_loop (Z.to_nat (2 * windowSize + 2)) code secret windowSize now
                  (- windowSize).

(** *** QR payloads *)

(** The clock is read twice: by [generateTOTP(secret)] for the code
    ([codeNow]) and then for the expiry ([now]). *)
Definition generateSecureQRPayload (redemptionId userId campaignId : string)
  (codeNow now : Z) : string * Z :=
  let secret := redemptionId +:+ "-" +:+ userId +:+ "-" +:+ campaignId in
  let totp := generateTOTP secret None codeNow in
  let expiresAt := now + TOTP_WINDOW in
  let payload :=
    JSON_stringify
      (JObject [("rid", JString redemptionId); ("uid", JString userId);
                ("cid", JString campaignId); ("code", JString totp);
                ("exp", JNumber (Finite (inject_Z expiresAt)))]%string) in
  (base64_encode payload, expiresAt).

Record QRData : Type := mkQRData {
  qr_redemptionId : JSValue;
  qr_userId : JSValue;
  qr_campaignId : JSValue
}.

Record QRResult : Type := mkQRResult {
  valid : bool;
  data : option QRData;
  error : option string
}.

(** The body of the [try] block. *)
Definition verifyQRPayload_try (encodedPayload : string) (now : Z)
  : Completion QRResult :=
  let! payload := JSON_parse (base64_decode encodedPayload) in
  let! exp := getProp payload "exp" in
  let! expN := ToNumberValue exp in
  if gtNumber now expN then
    Return (mkQRResult false None (Some "QR code expired"%string))
  else
    let! rid := getProp payload "rid" in
    let! ridS := ToStringValue rid in
    let! uid := getProp payload "uid" in
    let! uidS := ToStringValue uid in
    let! cid := getProp payload "cid" in
    let! cidS := ToStringValue cid in
    let secret := ridS +:+ "-" +:+ uidS +:+ "-" +:+ cidS in
    let! code := getProp payload "code" in
    (* [generateTOTP(...) === code] is false for every non-string [code] *)
    let verified :=
      match code with
      | Some (JString c) => verifyTOTP c secret 1 now
      | _ => false
      end in
    if negb verified then
      Return (mkQRResult false None (Some "Invalid verification code"%string))
    else
      let! rid' := getProp payload "rid" in
      let! uid' := getProp payload "uid" in
      let! cid' := getProp payload "cid" in
      Return (mkQRResult true (Some (mkQRData rid' uid' cid')) None).

Definition verifyQRPayload (encodedPayload : string) (now : Z) : QRResult :=
  match verifyQRPayload_try encodedPayload now with
  | Return r => r
  | Throw _ => mkQRResult false None (Some "Invalid QR payload"%string)
  end.

(** *** Haversine distance (lib/geohash.ts) *)

(** [Math.PI], the double nearest to pi. *)
Definition Math_PI : Q := 884279719003555 # 281474976710656.

Definition getDistance (lat1 lng1 lat2 lng2 : Q) : Q :=
  let R := 6371000%Q in
  let phi1 := (lat1 * Math_PI / 180)%Q in
  let phi2 := (lat2 * Math_PI / 180)%Q in
  let dphi := ((lat2 - lat1) * Math_PI / 180)%Q in
  let dlambda := ((lng2 - lng1) * Math_PI / 180)%Q in
  let a := (Math_sin (dphi / 2) * Math_sin (dphi / 2) +
            Math_cos phi1 * Math_cos phi2 *
            Math_sin (dlambda / 2) * Math_sin (dlambda / 2))%Q in
  let c := (2 * Math_atan2 (Math_sqrt a) (Math_sqrt (1 - a)))%Q in
  (R * c)%Q.

(** *** Data model (types/index.ts) *)

Record Coordinates : Type := mkCoordinates {
  c_lat : Q;
  c_lng : Q
}.

Record BusinessHours : Type := mkBusinessHours {
  dayOfWeek : Z;
  openTime : string;
  closeTime : string
}.

Record Campaign : Type := mkCampaign {
  id : string;
  title : string;
  description : string;
  coordinates : Coordinates;
  radius : Q;
  dwellTimeRequired : Q;
  reward : string;
  image : string;
  expiryDate : Z;
  active : bool;
  geohash : option string;
  businessId : option string;
  businessHours : option (list BusinessHours);
  timezone : option string
}.

Record GPSTelemetry : Type := mkGPSTelemetry {
  latitude : Q;
  longitude : Q;
  accuracy : Q;
  altitude : option Q;
  altitudeAccuracy : option Q;
  heading : option Q;
  speed : option Q;
  timestamp : Z
}.

Inductive FraudType : Type :=
| IMPOSSIBLE_SPEED | GPS_SPOOF | ACCURACY_ANOMALY | TIMESTAMP_DRIFT
| ALTITUDE_MISMATCH | DEVICE_CLONE | BUSINESS_HOURS | REPLAY_ATTACK.

Inductive Severity : Type := LOW | MEDIUM | HIGH | CRITICAL.

Inductive DataValue : Type :=
| DNumber (x : Q)
| DNumbers (xs : list Q).

Record FraudFlag : Type := mkFraudFlag {
  type : FraudType;
  severity : Severity;
  message : string;
  flagData : option (list (string * DataValue))
}.

Record VerificationRequest : Type := mkVerificationRequest {
  sessionId : string;
  userId : string;
  campaignId : string;
  telemetry : list GPSTelemetry;
  deviceFingerprint : string;
  clientTimestamp : Z
}.

Record VerificationResult : Type := mkVerificationResult {
  success : bool;
  redemptionId : option string;
  totpCode : option string;
  expiresAt : option Z;
  resultError : option string;
  fraudFlags : option (list FraudFlag);
  riskScore : Z
}.

(** *** Fraud detection engine *)

Definition SPEED_DRIVING : Q := 35%Q.
Definition SPEED_MAX_POSSIBLE : Q := 100%Q.

(** The two accumulators of [analyzeTelemetry], [flags] and [riskScore]. *)
Definition Acc : Type := (list FraudFlag * Z)%type.

Definition flag (f : FraudFlag) (increment : Z) (acc : Acc) : Acc :=
  (fst acc ++ [f], snd acc + increment).

(** [Math.round] *)
Definition Math_round (x : Q) : Z := Qfloor (x + (1 # 2))%Q.

Definition showNumber (x : Q) : string := NumberToString (Finite x).

(** [[...telemetry].sort((a, b) => a.timestamp - b.timestamp)]: the sort
    is stable, so equal timestamps keep their arrival order.  The samples
    are inserted from the last to the first, each in front of the samples
    that are not earlier than it. *)
Fixpoint insertByTimestamp (t : GPSTelemetry) (sorted : list GPSTelemetry)
  : list GPSTelemetry :=
  match sorted with
  | [] => [t]
  | u :: rest =>
      if timestamp t <=? timestamp u then t :: sorted
      else u :: insertByTimestamp t rest
  end.

Definition sortByTimestamp (l : list GPSTelemetry) : list GPSTelemetry :=
  fold_right insertByTimestamp [] l.

Definition speedPair (prev curr : GPSTelemetry) (acc : Acc) : Acc :=
  let distance :=
    getDistance (latitude prev) (longitude prev) (latitude curr) (longitude curr) in
  let timeDelta := (inject_Z (timestamp curr - timestamp prev) / 1000)%Q in
  if Qlt_bool 0%Q timeDelta then
    let speed := (distance / timeDelta)%Q in
    if Qlt_bool SPEED_MAX_POSSIBLE speed then
      flag (mkFraudFlag IMPOSSIBLE_SPEED CRITICAL
              ("Teleportation detected: " +:+
               integer_to_string (Math_round (speed * (36 # 10))%Q) +:+
               " km/h between readings")
              (Some [("speed", DNumber speed); ("distance", DNumber distance);
                     ("timeDelta", DNumber timeDelta)]%string))
           100 acc
    else if Qlt_bool SPEED_DRIVING speed && Qlt_bool 100%Q distance then
      flag (mkFraudFlag IMPOSSIBLE_SPEED HIGH
              ("Suspicious speed: " +:+
               integer_to_string (Math_round (speed * (36 # 10))%Q) +:+ " km/h")
              (Some [("speed", DNumber speed); ("distance", DNumber distance)]%string))
           30 acc
    else acc
  else acc.

(** [for (let i = 1; i < sorted.length; i++)] over consecutive pairs. *)
Fixpoint speedCheck (sorted : list GPSTelemetry) (acc : Acc) : Acc :=
  match sorted with
  | prev :: ((curr :: _) as rest) => speedCheck rest (speedPair prev curr acc)
  | _ => acc
  end.

Definition Qsum (xs : list Q) : Q := fold_left Qplus xs 0%Q.

(** The mean and the deviations are exact here; the code computes them in
    doubles, so a deviation at the threshold of 50 can fall on either side. *)
Definition accuracyCheck (sorted : list GPSTelemetry) (acc : Acc) : Acc :=
  let accuracies := map accuracy sorted in
  let avgAccuracy :=
    (Qsum accuracies / inject_Z (Z.of_nat (List.length accuracies)))%Q in
  let hasWildAccuracySwings :=
    existsb (fun a => Qlt_bool 50%Q (Qabs (a - avgAccuracy)%Q)) accuracies in
  if hasWildAccuracySwings then
    flag (mkFraudFlag ACCURACY_ANOMALY MEDIUM "GPS accuracy fluctuating abnormally"
            (Some [("avgAccuracy", DNumber avgAccuracy);
                   ("accuracies", DNumbers accuracies)]%string))
         20 acc
  else acc.

Definition perfectCoordsCheck (sorted : list GPSTelemetry) (acc : Acc) : Acc :=
  match sorted with
  | [] => acc (* not reached: at least two samples *)
  | first :: _ =>
      let perfectCoords :=
        List.filter (fun t => Qeq_bool (latitude t) (latitude first) &&
                         Qeq_bool (longitude t) (longitude first)) sorted in
      if (List.length perfectCoords =? List.length sorted)%nat &&
         (5 <? List.length sorted)%nat then
        flag (mkFraudFlag GPS_SPOOF CRITICAL
                "Coordinates are perfectly static - definite spoof" None)
             100 acc
      else acc
  end.

Definition driftCheck (sorted : list GPSTelemetry) (now : Z) (acc : Acc) : Acc :=
  match last sorted with
  | None => acc (* not reached: at least two samples *)
  | Some latest =>
      let serverTime := now in
      let clientTime := timestamp latest in
      let drift := Z.abs (serverTime - clientTime) in
      if 60000 <? drift then
        flag (mkFraudFlag TIMESTAMP_DRIFT MEDIUM
                ("Client clock drift: " +:+
                 integer_to_string (Math_round (inject_Z drift / 1000)%Q) +:+ "s")
                (Some [("drift", DNumber (inject_Z drift))]%string))
             25 acc
      else acc
  end.

Definition Qmaximum (x : Q) (xs : list Q) : Q :=
  fold_left (fun m y => if Qlt_bool m y then y else m) xs x.
Definition Qminimum (x : Q) (xs : list Q) : Q :=
  fold_left (fun m y => if Qlt_bool y m then y else m) xs x.

Definition altitudeCheck (sorted : list GPSTelemetry) (acc : Acc) : Acc :=
  let altitudes := omap altitude sorted in
  match altitudes with
  | a :: rest =>
      if (3 <? List.length altitudes)%nat then
        let altVariance := (Qmaximum a rest - Qminimum a rest)%Q in
        if Qlt_bool 500%Q altVariance then
          flag (mkFraudFlag ALTITUDE_MISMATCH MEDIUM
                  ("Altitude variance of " +:+
                   integer_to_string (Math_round altVariance) +:+ "m is suspicious")
                  None)
               15 acc
        else acc
      else acc
  | [] => acc
  end.

(** The threshold is the exact product with 8/10 here; the code rounds
    [dwellTimeRequired * 0.8] to a double (3 * 0.8 is 2.4000000000000004),
    so a dwell time of exactly 80 percent can fall on either side. *)
Definition dwellCheck (sorted : list GPSTelemetry) (campaign : Campaign)
  (acc : Acc) : Acc :=
  let timeInZone :=
    List.filter (fun t =>
              let dist := getDistance (latitude t) (longitude t)
                            (c_lat (coordinates campaign))
                            (c_lng (coordinates campaign)) in
              Qle_bool dist (radius campaign + 20)%Q) sorted in
  let actualDwellTime :=
    match timeInZone, last timeInZone with
    | first :: _ :: _, Some final =>
        (inject_Z (timestamp final - timestamp first) / 1000)%Q
    | _, _ => 0%Q
    end in
  if Qlt_bool actualDwellTime (dwellTimeRequired campaign * (8 # 10))%Q then
    flag (mkFraudFlag GPS_SPOOF HIGH
            ("Dwell time " +:+ integer_to_string (Math_round actualDwellTime) +:+
             "s is below required " +:+ showNumber (dwellTimeRequired campaign) +:+ "s")
            (Some [("actualDwellTime", DNumber actualDwellTime);
                   ("required", DNumber (dwellTimeRequired campaign))]%string))
         35 acc
  else acc.

Record Analysis : Type := mkAnalysis {
  flags : list FraudFlag;
  analysisRisk : Z
}.

(** The score accumulated by the six checks, before the final clamp. *)
Definition runChecks (telemetry : list GPSTelemetry) (campaign : Campaign)
  (now : Z) : Acc :=
  let sorted := sortByTimestamp telemetry in
  dwellCheck sorted campaign
    (altitudeCheck sorted
      (driftCheck sorted now
        (perfectCoordsCheck sorted
          (accuracyCheck sorted
            (speedCheck sorted ([], 0)))))).

Definition analyzeTelemetry (telemetry : list GPSTelemetry) (campaign : Campaign)
  (user : string) (now : Z) : Analysis :=
  if (List.length telemetry <? 2)%nat then
    let acc :=
      flag (mkFraudFlag GPS_SPOOF HIGH
              "Insufficient telemetry data - possible single-point spoof" None)
           40 ([], 0) in
    mkAnalysis (fst acc) (snd acc)
  else
    let acc := runChecks telemetry campaign now in
    mkAnalysis (fst acc) (Z.min (snd acc) 100).

(** *** Business hours *)

Definition DEFAULT_BUSINESS_HOURS : list BusinessHours :=
  [ mkBusinessHours 0 "10:00" "20:00"; mkBusinessHours 1 "08:00" "22:00";
    mkBusinessHours 2 "08:00" "22:00"; mkBusinessHours 3 "08:00" "22:00";
    mkBusinessHours 4 "08:00" "22:00"; mkBusinessHours 5 "08:00" "23:00";
    mkBusinessHours 6 "09:00" "23:00" ]%string.

Definition isWithinBusinessHours (time : Z) (hours : option (list BusinessHours))
  (tz : option string) : bool * option string :=
  let hours := default DEFAULT_BUSINESS_HOURS hours in
  let tz := default "Africa/Nairobi"%string tz in
  let day := getDay time in
  match find (fun h => dayOfWeek h =? day) hours with
  | None => (false, Some "Business closed today"%string)
  | Some todayHours =>
      let timeStr := toLocaleTimeString time tz in
      if String.ltb timeStr (openTime todayHours) ||
         String.ltb (closeTime todayHours) timeStr
      then (false, Some ("Business hours are " +:+ openTime todayHours +:+
                         " - " +:+ closeTime todayHours))
      else (true, None)
  end.

(** *** Replay and rate-limit guard *)

Record Guard : Type := mkGuard {
  usedSessionIds : gmap string Z;
  recentRedemptions : gmap string Z;
  lastCleanup : Z
}.

Definition CLEANUP_INTERVAL : Z := 5 * 60 * 1000.
Definition SESSION_TTL : Z := 24 * 60 * 60 * 1000.

(** Entries that the sweep at time [now] keeps. *)
Definition fresh (now : Z) (entry : string * Z) : Prop :=
  ~ (now - entry.2 > SESSION_TTL).

#[local] Instance fresh_dec now entry : Decision (fresh now entry).
Proof. unfold fresh. apply _. Defined.

Definition cleanupExpiredSessions (now : Z) (g : Guard) : Guard :=
  if now - lastCleanup g <? CLEANUP_INTERVAL then g
  else mkGuard (filter (fresh now) (usedSessionIds g))
               (filter (fresh now) (recentRedemptions g))
               now.

(** *** Main verification function

    [now] is the clock reading of the call and [entropy] the text of
    [randomBytes(8).toString('hex')]. *)
Definition verifyRedemption (request : VerificationRequest) (campaign : Campaign)
  (now : Z) (entropy : string) (g0 : Guard) : VerificationResult * Guard :=
  let g := cleanupExpiredSessions now g0 in
  match usedSessionIds g !! sessionId request with
  | Some _ =>
      (mkVerificationResult false None None None
         (Some "Session already used - possible replay attack"%string)
         (Some [mkFraudFlag REPLAY_ATTACK CRITICAL
                  "Duplicate session ID detected" None])
         100, g)
  | None =>
      let userCampaignKey := userId request +:+ "-" +:+ campaignId request in
      let lastRedemption := recentRedemptions g !! userCampaignKey in
      let limited :=
        match lastRedemption with
        | Some t => negb (t =? 0) && (now - t <? 24 * 60 * 60 * 1000)
        | None => false
        end in
      if limited then
        (mkVerificationResult false None None None
           (Some "Already redeemed this campaign in the last 24 hours"%string)
           (Some []) 0, g)
      else
        let hoursCheck :=
          match businessHours campaign with
          | Some (h :: hs) =>
              isWithinBusinessHours (clientTimestamp request)
                (businessHours campaign) (timezone campaign)
          | _ => (true, None)
          end in
        if negb (fst hoursCheck) then
          (mkVerificationResult false None None None (snd hoursCheck)
             (Some [mkFraudFlag BUSINESS_HOURS HIGH
                      (match snd hoursCheck with
                       | Some m => if String.eqb m "" then "Outside business hours" else m
                       | None => "Outside business hours"
                       end)%string None])
             50, g)
        else
          let analysis :=
            analyzeTelemetry (telemetry request) campaign (userId request) now in
          if 70 <=? analysisRisk analysis then
            (mkVerificationResult false None None None
               (Some "Verification failed: Suspicious activity detected"%string)
               (Some (flags analysis)) (analysisRisk analysis), g)
          else
            let g' :=
              mkGuard (<[sessionId request := now]> (usedSessionIds g))
                      (<[userCampaignKey := now]> (recentRedemptions g))
                      (lastCleanup g) in
            let rid := "r_" +:+ integer_to_string now +:+ "_" +:+ entropy in
            let qr := generateSecureQRPayload rid (userId request)
                        (campaignId request) now now in
            (mkVerificationResult true (Some rid) (Some (fst qr)) (Some (snd qr))
               None
               (match flags analysis with [] => None | fs => Some fs end)
               (analysisRisk analysis), g')
  end.

End Platform.
End Verification.

Import Geohash.
Import Verification.

(** ** The in-memory database layer (lib/db.ts) *)

Module Db.

Inductive Role : Type := role_user | role_staff | role_business | role_admin.

Inductive Status : Type := pending | verified | flagged | rejected.

Record User : Type := mkUser {
  u_id : string;
  u_name : string;
  u_role : Role;
  u_avatar : string;
  u_consentGiven : option bool;
  u_consentTimestamp : option Z
}.

Record Redemption : Type := mkRedemption {
  r_id : string;
  r_campaignId : string;
  r_userId : string;
  r_timestamp : Z;
  r_status : Status;
  r_location : Coordinates;
  r_sessionId : option string;
  r_riskScore : option Z;
  r_fraudFlags : option (list FraudFlag);
  r_deviceFingerprint : option string;
  r_telemetry : option (list GPSTelemetry)
}.

(** A JavaScript [Map] with string keys: the entries in insertion order.
    [set] replaces the value of a present key where it stands and appends
    an absent one. *)
Definition JsMap (V : Type) : Type := list (string * V).

Fixpoint map_get {V : Type} (m : JsMap V) (k : string) : option V :=
  match m with
  | [] => None
  | (k', v) :: rest => if String.eqb k' k then Some v else map_get rest k
  end.

Fixpoint map_set {V : Type} (m : JsMap V) (k : string) (v : V) : JsMap V :=
  match m with
  | [] => [(k, v)]
  | (k', v') :: rest =>
      if String.eqb k' k then (k, v) :: rest else (k', v') :: map_set rest k v
  end.

Fixpoint map_delete {V : Type} (m : JsMap V) (k : string) : JsMap V :=
  match m with
  | [] => []
  | (k', v) :: rest =>
      if String.eqb k' k then rest else (k', v) :: map_delete rest k
  end.

Definition map_has {V : Type} (m : JsMap V) (k : string) : bool :=
  match map_get m k with Some _ => true | None => false end.

Definition map_values {V : Type} (m : JsMap V) : list V := map snd m.

Record Store : Type := mkStore {
  campaignsStore : JsMap Campaign;
  redemptionsStore : JsMap Redemption;
  usersStore : JsMap User
}.

Definition getCampaigns (now : Z) (st : Store) : list Campaign :=
  List.filter (fun c => active c && (now <? expiryDate c))
              (map_values (campaignsStore st)).

Definition getCampaignById (id0 : string) (st : Store) : option Campaign :=
  map_get (campaignsStore st) id0.

(** [{ ...campaign, id, geohash }] *)
Definition createCampaign (campaign : Campaign) (now : Z) (st : Store)
  : Campaign * Store :=
  let id0 := "c_" +:+ integer_to_string now in
  let geohash0 :=
    encodeGeohash (c_lat (coordinates campaign)) (c_lng (coordinates campaign)) 7 in
  let newCampaign :=
    mkCampaign id0 (title campaign) (description campaign) (coordinates campaign)
      (radius campaign) (dwellTimeRequired campaign) (reward campaign)
      (image campaign) (expiryDate campaign) (active campaign) (Some geohash0)
      (businessId campaign) (businessHours campaign) (timezone campaign) in
  (newCampaign,
   mkStore (map_set (campaignsStore st) id0 newCampaign)
           (redemptionsStore st) (usersStore st)).

Definition deleteCampaign (id0 : string) (st : Store) : bool * Store :=
  (map_has (campaignsStore st) id0,
   mkStore (map_delete (campaignsStore st) id0) (redemptionsStore st) (usersStore st)).

Record Filters : Type := mkFilters {
  f_userId : option string;
  f_campaignId : option string;
  f_status : option Status
}.

(** A filter string applies when it is present and not empty. *)
Definition truthy (s : option string) : option string :=
  match s with
  | Some v => if String.eqb v "" then None else Some v
  | None => None
  end.

Definition status_eqb (a b : Status) : bool :=
  match a, b with
  | pending, pending | verified, verified
  | flagged, flagged | rejected, rejected => true
  | _, _ => false
  end.

(** [sort((a, b) => b.timestamp - a.timestamp)], newest first and stable. *)
Fixpoint insertNewestFirst (r : Redemption) (sorted : list Redemption)
  : list Redemption :=
  match sorted with
  | [] => [r]
  | u :: rest =>
      if r_timestamp u <=? r_timestamp r then r :: sorted
      else u :: insertNewestFirst r rest
  end.

Definition sortNewestFirst (l : list Redemption) : list Redemption :=
  fold_right insertNewestFirst [] l.

Definition getRedemptions (filters : option Filters) (st : Store) : list Redemption :=
  let redemptions := map_values (redemptionsStore st) in
  let redemptions :=
    match filters with
    | Some f =>
        match truthy (f_userId f) with
        | Some u => List.filter (fun r => String.eqb (r_userId r) u) redemptions
        | None => redemptions
        end
    | None => redemptions
    end in
  let redemptions :=
    match filters with
    | Some f =>
        match truthy (f_campaignId f) with
        | Some c => List.filter (fun r => String.eqb (r_campaignId r) c) redemptions
        | None => redemptions
        end
    | None => redemptions
    end in
  let redemptions :=
    match filters with
    | Some f =>
        match f_status f with
        | Some s => List.filter (fun r => status_eqb (r_status r) s) redemptions
        | None => redemptions
        end
    | None => redemptions
    end in
  sortNewestFirst redemptions.

(** [{ ...redemption, id, timestamp: Date.now() }] *)
Definition createRedemption (redemption : Redemption) (now : Z) (st : Store)
  : Redemption * Store :=
  let id0 := "r_" +:+ integer_to_string now in
  let newRedemption :=
    mkRedemption id0 (r_campaignId redemption) (r_userId redemption) now
      (r_status redemption) (r_location redemption) (r_sessionId redemption)
      (r_riskScore redemption) (r_fraudFlags redemption)
      (r_deviceFingerprint redemption) (r_telemetry redemption) in
  (newRedemption,
   mkStore (campaignsStore st) (map_set (redemptionsStore st) id0 newRedemption)
           (usersStore st)).

Record Stats : Type := mkStats {
  s_total : nat;
  s_verified : nat;
  s_flagged : nat;
  s_rejected : nat;
  s_pending : nat
}.

Definition countStatus (s : Status) (l : list Redemption) : nat :=
  List.length (List.filter (fun r => status_eqb (r_status r) s) l).

Definition getRedemptionStats (campaignId0 : option string) (st : Store) : Stats :=
  let redemptions :=
    match truthy campaignId0 with
    | Some c =>
        List.filter (fun r => String.eqb (r_campaignId r) c)
                    (map_values (redemptionsStore st))
    | None => map_values (redemptionsStore st)
    end in
  mkStats (List.length redemptions) (countStatus verified redemptions)
          (countStatus flagged redemptions) (countStatus rejected redemptions)
          (countStatus pending redemptions).

Definition getUserById (id0 : string) (st : Store) : option User :=
  map_get (usersStore st) id0.

Definition updateUserConsent (userId0 : string) (consent : bool) (now : Z)
  (st : Store) : option User * Store :=
  match map_get (usersStore st) userId0 with
  | None => (None, st)
  | Some u =>
      let updated :=
        mkUser (u_id u) (u_name u) (u_role u) (u_avatar u) (Some consent)
               (if consent then Some now else None) in
      (Some updated,
       mkStore (campaignsStore st) (redemptionsStore st)
               (map_set (usersStore st) userId0 updated))
  end.

(** The loop of [deleteUserData] over the entries of the redemptions. *)
Fixpoint deleteRedemptionsOf (userId0 : string) (entries : JsMap Redemption)
  (store : JsMap Redemption) (deleted : nat) : JsMap Redemption * nat :=
  match entries with
  | [] => (store, deleted)
  | (id0, redemption) :: rest =>
      if String.eqb (r_userId redemption) userId0
      then deleteRedemptionsOf userId0 rest (map_delete store id0) (S deleted)
      else deleteRedemptionsOf userId0 rest store deleted
  end.

Definition deleteUserData (userId0 : string) (st : Store) : (nat * bool) * Store :=
  let '(redemptions, deleted) :=
    deleteRedemptionsOf userId0 (redemptionsStore st) (redemptionsStore st) 0 in
  let userDeleted := map_has (usersStore st) userId0 in
  ((deleted, userDeleted),
   mkStore (campaignsStore st) redemptions (map_delete (usersStore st) userId0)).

End Db.

(** ** The verification endpoint (app/api/verify/route.ts)

    The handler casts the parsed body to [VerificationRequest] without
    checking it, tests four of its fields for presence and runs the rest
    inside one [try].  The body is modelled with those four fields optional
    (absent, [null] or [undefined]: [None]); a field that is present has its
    declared type, and so have the two fields the handler does not test.
    [Throw] as the body stands for [request.json()] rejecting or yielding
    [null], whose field access throws.

    Inside the [try] the only platform call that throws on well-typed
    values is [toLocaleTimeString], which raises a [RangeError] for a time
    zone it does not know; the campaign's time zone is any string.  The
    business-hours check and the orchestrator are therefore embedded here a
    second time with that exception ([isWithinBusinessHours_exn],
    [verifyRedemption_exn]), and shown below to agree with the embedding
    above whenever the formatter returns.  The module state a
    throwing call leaves behind is the swept guard.

    The handler reads the clock for the expiry test ([now]); the
    verification it then calls reads it again ([verifyNow]). *)

Module Route.

Record Body : Type := mkBody {
  b_sessionId : option string;
  b_userId : option string;
  b_campaignId : option string;
  b_telemetry : option (list GPSTelemetry);
  b_deviceFingerprint : string;
  b_clientTimestamp : Z
}.

Section Platform.
Variable TOTP_SECRET : string.
Variable NumberToString : JSNumber -> string.
Variable JSON_stringify : JSON -> string.
Variable base64_encode : string -> string.
Variables Math_sin Math_cos Math_sqrt : Q -> Q.
Variable Math_atan2 : Q -> Q -> Q.
Variable getDay : Z -> Z.
Variable toLocaleTimeString : Z -> string -> Completion string.

Definition isWithinBusinessHours_exn (time : Z) (hours : option (list BusinessHours))
  (tz : option string) : Completion (bool * option string) :=
  let hours := default DEFAULT_BUSINESS_HOURS hours in
  let tz := default "Africa/Nairobi"%string tz in
  let day := getDay time in
  match find (fun h => dayOfWeek h =? day) hours with
  | None => Return (false, Some "Business closed today"%string)
  | Some todayHours =>
      let! timeStr := toLocaleTimeString time tz in
      if String.ltb timeStr (openTime todayHours) ||
         String.ltb (closeTime todayHours) timeStr
      then Return (false, Some ("Business hours are " +:+ openTime todayHours +:+
                                " - " +:+ closeTime todayHours))
      else Return (true, None)
  end.

Definition verifyRedemption_exn (request : VerificationRequest) (campaign : Campaign)
  (now : Z) (entropy : string) (g0 : Guard)
  : Completion VerificationResult * Guard :=
  let g := cleanupExpiredSessions now g0 in
  match usedSessionIds g !! sessionId request with
  | Some _ =>
      (Return (mkVerificationResult false None None None
                 (Some "Session already used - possible replay attack"%string)
                 (Some [mkFraudFlag REPLAY_ATTACK CRITICAL
                          "Duplicate session ID detected" None])
                 100), g)
  | None =>
      let userCampaignKey := userId request +:+ "-" +:+ campaignId request in
      let lastRedemption := recentRedemptions g !! userCampaignKey in
      let limited :=
        match lastRedemption with
        | Some t => negb (t =? 0) && (now - t <? 24 * 60 * 60 * 1000)
        | None => false
        end in
      if limited then
        (Return (mkVerificationResult false None None None
                   (Some "Already redeemed this campaign in the last 24 hours"%string)
                   (Some []) 0), g)
      else
        let hoursCheck :=
          match businessHours campaign with
          | Some (h :: hs) =>
              isWithinBusinessHours_exn (clientTimestamp request)
                (businessHours campaign) (timezone campaign)
          | _ => Return (true, None)
          end in
        match hoursCheck with
        | Throw e => (Throw e, g)
        | Return hoursCheck =>
            if negb (fst hoursCheck) then
              (Return (mkVerificationResult false None None None (snd hoursCheck)
                         (Some [mkFraudFlag BUSINESS_HOURS HIGH
                                  (match snd hoursCheck with
                                   | Some m =>
                                       if String.eqb m "" then "Outside business hours"
                                       else m
                                   | None => "Outside business hours"
                                   end)%string None])
                         50), g)
            else
              let analysis :=
                analyzeTelemetry NumberToString Math_sin Math_cos Math_sqrt Math_atan2
                  (telemetry request) campaign (userId request) now in
              if 70 <=? analysisRisk analysis then
                (Return (mkVerificationResult false None None None
                           (Some "Verification failed: Suspicious activity detected"%string)
                           (Some (flags analysis)) (analysisRisk analysis)), g)
              else
                let g' :=
                  mkGuard (<[sessionId request := now]> (usedSessionIds g))
                          (<[userCampaignKey := now]> (recentRedemptions g))
                          (lastCleanup g) in
                let rid := "r_" +:+ integer_to_string now +:+ "_" +:+ entropy in
                let qr := generateSecureQRPayload TOTP_SECRET JSON_stringify
                            base64_encode rid (userId request)
                            (campaignId request) now now in
                (Return (mkVerificationResult true (Some rid) (Some (fst qr))
                           (Some (snd qr)) None
                           (match flags analysis with [] => None | fs => Some fs end)
                           (analysisRisk analysis)), g')
        end
  end.

Definition errorResponse (message0 : string) : VerificationResult :=
  mkVerificationResult false None None None (Some message0) None 0.

(** [!body.sessionId || !body.userId || !body.campaignId || !body.telemetry]
    fails for an absent field and for an empty string; an array is present
    even when it is empty. *)
Definition validated (body : Body) : option VerificationRequest :=
  match Db.truthy (b_sessionId body), Db.truthy (b_userId body),
        Db.truthy (b_campaignId body), b_telemetry body with
  | Some s, Some u, Some c, Some t =>
      Some (mkVerificationRequest s u c t (b_deviceFingerprint body)
                                  (b_clientTimestamp body))
  | _, _, _, _ => None
  end.

Definition POST (body : Completion Body) (now verifyNow : Z)
  (entropy : string) (st : Db.Store) (g : Guard)
  : (Z * VerificationResult) * Guard :=
  match body with
  | Throw _ => ((500, errorResponse "Internal server error"), g)
  | Return body =>
      match validated body with
      | None => ((400, errorResponse "Missing required fields"), g)
      | Some request =>
          match Db.getCampaignById (campaignId request) st with
          | None => ((404, errorResponse "Campaign not found"), g)
          | Some campaign =>
              if negb (active campaign) || (expiryDate campaign <? now)
              then ((400, errorResponse "Campaign is not active or has expired"), g)
              else
                match verifyRedemption_exn request campaign verifyNow entropy g with
                | (Return result, g') => ((200, result), g')
                | (Throw _, g') => ((500, errorResponse "Internal server error"), g')
                end
          end
      end
  end.

End Platform.
End Route.


(** * Notions used in the statements *)

(** ** Geohash *)

Definition alphabet : list ascii := list_ascii_of_string BASE32.

Definition box_of (s : EncState) : DecState :=
  mkDec (e_minLat s) (e_maxLat s) (e_minLng s) (e_maxLng s) (e_isLng s).

(** The point stays inside the current cell. *)
Definition inside (la lo : Q) (b : DecState) : Prop :=
  (d_minLat b <= la /\ la <= d_maxLat b /\ d_minLng b <= lo /\ lo <= d_maxLng b)%Q.

(** Halving the current cell on the axis whose turn it is. *)
Definition refine (upper : bool) (b : DecState) : DecState :=
  if d_isLng b then
    if upper
    then mkDec (d_minLat b) (d_maxLat b) ((d_minLng b + d_maxLng b) / 2)%Q (d_maxLng b) false
    else mkDec (d_minLat b) (d_maxLat b) (d_minLng b) ((d_minLng b + d_maxLng b) / 2)%Q false
  else
    if upper
    then mkDec ((d_minLat b + d_maxLat b) / 2)%Q (d_maxLat b) (d_minLng b) (d_maxLng b) true
    else mkDec (d_minLat b) ((d_minLat b + d_maxLat b) / 2)%Q (d_minLng b) (d_maxLng b) true.

Definition addbit (upper : bool) (bit ch : Z) : Z :=
  if upper then Z.lor ch (Z.shiftl 1 (4 - bit)) else ch.

Definition enc_of (b : DecState) (hash : string) (bit ch : Z) : EncState :=
  mkEnc (d_minLat b) (d_maxLat b) (d_minLng b) (d_maxLng b) hash bit ch (d_isLng b).

Definition upperChar (c : ascii) : ascii :=
  let n := nat_of_ascii c in
  if ((97 <=? n) && (n <=? 122))%nat then ascii_of_nat (n - 32) else c.

Fixpoint toUpperCase (s : string) : string :=
  match s with
  | EmptyString => EmptyString
  | String c rest => String (upperChar c) (toUpperCase rest)
  end.

Definition InvalidGeohash (c : ascii) : Exn :=
  Error ("Invalid geohash character: " +:+ String c "").

Definition chars (s : string) : list ascii := list_ascii_of_string s.

Definition isDigit (c : ascii) : bool :=
  let n := nat_of_ascii c in ((48 <=? n) && (n <=? 57))%nat.

(** A zero-padded six-digit decimal string. *)
Definition sixDigits (s : string) : Prop :=
  String.length s = 6%nat /\ forallb isDigit (list_ascii_of_string s) = true.

Definition nibble (n : Z) : Prop := 0 <= n < 16.

Definition hexfold (ns : list Z) : Z := fold_left (fun a d => 16 * a + d) ns 0.

Definition clockTime (timestamp : option Z) (now : Z) : Z :=
  match timestamp with
  | Some t => if t =? 0 then now else t
  | None => now
  end.

(** The increment that accompanies each flag of [analyzeTelemetry]; the two
    HIGH GPS_SPOOF flags differ in whether they carry data. *)
Definition incrementOf (f : FraudFlag) : Z :=
  match type f, severity f with
  | IMPOSSIBLE_SPEED, CRITICAL => 100
  | IMPOSSIBLE_SPEED, HIGH => 30
  | ACCURACY_ANOMALY, MEDIUM => 20
  | GPS_SPOOF, CRITICAL => 100
  | TIMESTAMP_DRIFT, MEDIUM => 25
  | ALTITUDE_MISMATCH, MEDIUM => 15
  | GPS_SPOOF, HIGH => match flagData f with Some _ => 35 | None => 40 end
  | _, _ => 0
  end.

Definition sumIncrements (fs : list FraudFlag) : Z :=
  fold_right (fun f s => incrementOf f + s) 0 fs.

(** The score is the sum of the increments of the flags raised so far. *)
Definition accounted (acc : Acc) : Prop := snd acc = sumIncrements (fst acc).

Definition replayRejection : VerificationResult :=
  mkVerificationResult false None None None
    (Some "Session already used - possible replay attack"%string)
    (Some [mkFraudFlag REPLAY_ATTACK CRITICAL "Duplicate session ID detected" None])
    100.

Definition rateLimitRejection : VerificationResult :=
  mkVerificationResult false None None None
    (Some "Already redeemed this campaign in the last 24 hours"%string)
    (Some []) 0.

Definition userCampaignKey (request : VerificationRequest) : string :=
  userId request +:+ "-" +:+ campaignId request.

(** Stand-ins for the platform in closed examples. *)
Definition noText {A : Type} (_ : A) : string := ""%string.
Definition noNumber (_ : Q) : Q := 0%Q.
Definition noDay (_ : Z) : Z := 0.

Definition javaHouse : Campaign :=
  mkCampaign "c_1" "Java House Kimathi St" "" (mkCoordinates (-12842 # 10000) (368252 # 10000))
    40 15 "Free Coffee Upgrade" "" 1705184000000 true (Some "kzf0typ"%string) None None None.

Definition oneSample (time : Z) : list GPSTelemetry :=
  [mkGPSTelemetry (-12842 # 10000) (368252 # 10000) 10 None None None None time].

Definition sampleRequest (session : string) (time : Z) : VerificationRequest :=
  mkVerificationRequest session "u_1" "c_1" (oneSample time) "device" time.

Definition requestOf (user session : string) (time : Z) : VerificationRequest :=
  mkVerificationRequest session user "c_1" (oneSample time) "device" time.

Definition sampleVerify (request : VerificationRequest) (now : Z) (g : Guard)
  : VerificationResult * Guard :=
  verifyRedemption DEFAULT_TOTP_SECRET noText noText noText
    noNumber noNumber noNumber (fun _ => noNumber) noDay (fun _ => noText)
    request javaHouse now "00112233445566ff" g.

Definition qrMalformed : QRResult :=
  mkQRResult false None (Some "Invalid QR payload"%string).
Definition qrExpired : QRResult :=
  mkQRResult false None (Some "QR code expired"%string).
Definition qrInvalidCode : QRResult :=
  mkQRResult false None (Some "Invalid verification code"%string).
Definition qrValid (rid uid cid : JSValue) : QRResult :=
  mkQRResult true (Some (mkQRData rid uid cid)) None.

(** The embedded code checked against the secret rebuilt from the ids. *)
Definition codeVerifies (TOTP_SECRET : string) (props : list (string * JSON))
  (rid uid cid : string) (now : Z) : bool :=
  match assoc "code" props with
  | Some (JString c) =>
      verifyTOTP TOTP_SECRET c (rid +:+ "-" +:+ uid +:+ "-" +:+ cid) 1 now
  | _ => false
  end.

(** ** Notions of the further properties *)

(** The half the encoder picks for the point in the current cell. *)
Definition chosen (la lo : Q) (b : DecState) : bool :=
  if d_isLng b
  then Qle_bool ((d_minLng b + d_maxLng b) / 2) lo
  else Qle_bool ((d_minLat b + d_maxLat b) / 2) la.

Definition next_cell (la lo : Q) (b : DecState) : DecState :=
  refine (chosen la lo b) b.

(** The cell and the character index reached after the five iterations
    that emit one character. *)
Definition char_cell (la lo : Q) (b : DecState) : DecState :=
  Nat.iter 5 (next_cell la lo) b.

Definition char_index (la lo : Q) (b : DecState) : Z :=
  let b1 := next_cell la lo b in
  let b2 := next_cell la lo b1 in
  let b3 := next_cell la lo b2 in
  let b4 := next_cell la lo b3 in
  addbit (chosen la lo b4) 4
    (addbit (chosen la lo b3) 3
       (addbit (chosen la lo b2) 2
          (addbit (chosen la lo b1) 1
             (addbit (chosen la lo b) 0 0)))).

(** A cell of positive extent, and a point strictly inside it. *)
Definition proper (b : DecState) : Prop :=
  (d_minLat b < d_maxLat b /\ d_minLng b < d_maxLng b)%Q.

Definition strictly_inside (la lo : Q) (b : DecState) : Prop :=
  (d_minLat b < la /\ la < d_maxLat b /\ d_minLng b < lo /\ lo < d_maxLng b)%Q.

(** The text [encodeGeohash] builds, as a function of the number of
    characters and the starting cell. *)
Fixpoint cell_after (n : nat) (la lo : Q) (b : DecState) : DecState :=
  match n with
  | O => b
  | S k => cell_after k la lo (char_cell la lo b)
  end.

Fixpoint text_after (n : nat) (la lo : Q) (b : DecState) : string :=
  match n with
  | O => ""
  | S k => append_base32 "" (char_index la lo b) +:+
           text_after k la lo (char_cell la lo b)
  end.

(** A geohash of the given length. *)
Definition geohash_of_length (n : Z) (x : string) : Prop :=
  strlen x = n /\ List.Forall (fun c => In c alphabet) (chars x).

Definition neighbors_ok (hash : string) (l : list string) : Prop :=
  List.NoDup l /\ ~ In hash l /\
  List.Forall (geohash_of_length (Z.max 0 (strlen hash))) l.

Definition pow2 (k : nat) : Q := inject_Z (2 ^ Z.of_nat k).

(** After [m] bits the turn is the longitude's when [m] is even, the
    latitude range has been halved [m / 2] times and the longitude range
    [(m + 1) / 2] times. *)
Definition cell_size (m : nat) (b : DecState) : Prop :=
  d_isLng b = Nat.even m /\
  ((d_maxLat b - d_minLat b) * pow2 (m / 2) == 180)%Q /\
  ((d_maxLng b - d_minLng b) * pow2 ((m + 1) / 2) == 360)%Q.

(** A rational that a binary64 number holds exactly: a significand below
    2^53 scaled by a power of two within the exponent range. *)
Definition binary64 (x : Q) : Prop :=
  exists (m : Z) (p q : nat),
    Z.abs m < 2 ^ 53 /\ (p <= 971)%nat /\ (q <= 1074)%nat /\
    (x * pow2 q == inject_Z (m * 2 ^ Z.of_nat p))%Q.

(** After [m] halvings the latitude bounds are multiples of 90 / 2^(m/2)
    and the longitude bounds multiples of 180 / 2^((m+1)/2). *)
Definition on_grid (m : nat) (b : DecState) : Prop :=
  d_isLng b = Nat.even m /\
  exists s1 s2 t1 t2 : Z,
    (Z.abs s1 <= 2 ^ Z.of_nat (m / 2) /\ Z.abs s2 <= 2 ^ Z.of_nat (m / 2) /\
     Z.abs t1 <= 2 ^ Z.of_nat ((m + 1) / 2) /\ Z.abs t2 <= 2 ^ Z.of_nat ((m + 1) / 2)) /\
    (d_minLat b * pow2 (m / 2) == inject_Z (90 * s1))%Q /\
    (d_maxLat b * pow2 (m / 2) == inject_Z (90 * s2))%Q /\
    (d_minLng b * pow2 ((m + 1) / 2) == inject_Z (180 * t1))%Q /\
    (d_maxLng b * pow2 ((m + 1) / 2) == inject_Z (180 * t2))%Q.

(** Every number the loops compute from a cell: its bounds, their sums and
    midpoints, and the half-widths. *)
Definition exact_cell (b : DecState) : Prop :=
  (binary64 (d_minLat b) /\ binary64 (d_maxLat b) /\
   binary64 (d_minLat b + d_maxLat b) /\ binary64 ((d_minLat b + d_maxLat b) / 2) /\
   binary64 ((d_maxLat b - d_minLat b) / 2)) /\
  (binary64 (d_minLng b) /\ binary64 (d_maxLng b) /\
   binary64 (d_minLng b + d_maxLng b) /\ binary64 ((d_minLng b + d_maxLng b) / 2) /\
   binary64 ((d_maxLng b - d_minLng b) / 2)).

(** The object that [generateSecureQRPayload] serialises. *)
Definition qrObject (TOTP_SECRET redemptionId userId campaignId : string)
  (codeNow now : Z) : JSON :=
  JObject [("rid", JString redemptionId); ("uid", JString userId);
           ("cid", JString campaignId);
           ("code", JString (generateTOTP TOTP_SECRET
                               (redemptionId +:+ "-" +:+ userId +:+ "-" +:+ campaignId)
                               None codeNow));
           ("exp", JNumber (Finite (inject_Z (now + TOTP_WINDOW))))]%string.

Definition insufficientDataFlag : FraudFlag :=
  mkFraudFlag GPS_SPOOF HIGH
    "Insufficient telemetry data - possible single-point spoof" None.

Definition byTimestamp (a b : GPSTelemetry) : Prop := timestamp a <= timestamp b.

Definition atTime (v : Z) (t : GPSTelemetry) : bool := timestamp t =? v.

Definition staticCoordinatesFlag : FraudFlag :=
  mkFraudFlag GPS_SPOOF CRITICAL
    "Coordinates are perfectly static - definite spoof" None.

(** The accumulators only grow: flags are appended and the score does not
    decrease. *)
Definition grows (acc acc' : Acc) : Prop :=
  snd acc <= snd acc' /\ exists more, fst acc' = fst acc ++ more.

(** The keys of a [Map] are pairwise distinct. *)
Definition distinctKeys {V : Type} (m : Db.JsMap V) : Prop :=
  List.NoDup (map fst m).

(** The conditions of [getRedemptions] taken together. *)
Definition matchesFilters (filters : option Db.Filters) (r : Db.Redemption) : bool :=
  match filters with
  | None => true
  | Some f =>
      match Db.truthy (Db.f_userId f) with
      | Some u => String.eqb (Db.r_userId r) u
      | None => true
      end &&
      match Db.truthy (Db.f_campaignId f) with
      | Some c => String.eqb (Db.r_campaignId r) c
      | None => true
      end &&
      match Db.f_status f with
      | Some s => Db.status_eqb (Db.r_status r) s
      | None => true
      end
  end.

Definition newestFirst (a b : Db.Redemption) : Prop :=
  Db.r_timestamp b <= Db.r_timestamp a.

(** The body carries the four tested fields of the request, none empty. *)
Definition carries (body : Route.Body) (request : VerificationRequest) : Prop :=
  Route.b_sessionId body = Some (sessionId request) /\ sessionId request <> ""%string /\
  Route.b_userId body = Some (userId request) /\ userId request <> ""%string /\
  Route.b_campaignId body = Some (campaignId request) /\
  campaignId request <> ""%string /\
  Route.b_telemetry body = Some (telemetry request) /\
  Route.b_deviceFingerprint body = deviceFingerprint request /\
  Route.b_clientTimestamp body = clientTimestamp request.

(** The answer of every failure path of the handler. *)
Definition failureBody (response : VerificationResult) : Prop :=
  success response = false /\ riskScore response = 0 /\
  totpCode response = None /\ redemptionId response = None /\
  resultError response <> None.

(** Further stand-ins for closed examples. *)

(** Six samples at one place, one second apart. *)
Definition staticSamples (time : Z) : list GPSTelemetry :=
  map (fun i => mkGPSTelemetry (-12842 # 10000) (368252 # 10000) 10 None None None None
                  (time + 1000 * i))
      [0; 1; 2; 3; 4; 5].

Definition sampleRedemption (user : string) : Db.Redemption :=
  Db.mkRedemption "r_1" "c_1" user 1700000000000 Db.verified
    (mkCoordinates (-12842 # 10000) (368252 # 10000)) None None None None None.

(** * Properties *)

(** ** Strings *)

Lemma append_cons (x : ascii) (a b : string) :
  String x a +:+ b = String x (a +:+ b).
Proof. reflexivity. Qed.

Lemma length_append (a b : string) :
  String.length (a +:+ b) = (String.length a + String.length b)%nat.
Proof.
  induction a as [|c a IH]; [reflexivity|].
  rewrite append_cons. simpl. now rewrite IH.
Qed.

Lemma append_assoc (a b c : string) : (a +:+ b) +:+ c = a +:+ (b +:+ c).
Proof.
  induction a as [|x a IH]; [reflexivity|].
  rewrite !append_cons. now rewrite IH.
Qed.

Lemma append_nil_r (a : string) : a +:+ "" = a.
Proof.
  induction a as [|x a IH]; [reflexivity|].
  rewrite append_cons. now rewrite IH.
Qed.

Lemma lowerChar_idem (c : ascii) : lowerChar (lowerChar c) = lowerChar c.
Proof.
  destruct c as [[] [] [] [] [] [] [] []]; vm_compute; reflexivity.
Qed.

Lemma toLowerCase_idem (s : string) : toLowerCase (toLowerCase s) = toLowerCase s.
Proof.
  induction s as [|c s IH]; simpl; [reflexivity|].
  now rewrite lowerChar_idem, IH.
Qed.

Lemma toLowerCase_append (a b : string) :
  toLowerCase (a +:+ b) = toLowerCase a +:+ toLowerCase b.
Proof.
  induction a as [|c a IH]; [reflexivity|].
  rewrite append_cons. simpl. now rewrite IH.
Qed.

(** ** Geohash *)

Lemma indexOf_from_spec (s : string) (c : ascii) (i : Z) :
  (indexOf_from s c i = -1 /\ ~ In c (list_ascii_of_string s)) \/
  (i <= indexOf_from s c i /\ In c (list_ascii_of_string s)).
Proof.
  revert i. induction s as [|d s IH]; intros i; simpl.
  - left. split; [reflexivity | tauto].
  - destruct (Ascii.eqb_spec d c) as [->|Hne].
    + right. split; [lia | now left].
    + destruct (IH (i + 1)) as [[E Hn]|[Hle Hin]].
      * left. split; [exact E | intros [H|H]; [congruence | tauto]].
      * right. split; [lia | now right].
Qed.

Lemma indexOf_absent (c : ascii) :
  indexOf BASE32 c = -1 <-> ~ In c alphabet.
Proof.
  unfold indexOf, alphabet.
  destruct (indexOf_from_spec BASE32 c 0) as [[E Hn]|[Hle Hin]].
  - tauto.
  - split; [lia | tauto].
Qed.

Lemma small_cases (c : Z) (P : Z -> Prop) :
  0 <= c < 32 ->
  P 0 -> P 1 -> P 2 -> P 3 -> P 4 -> P 5 -> P 6 -> P 7 ->
  P 8 -> P 9 -> P 10 -> P 11 -> P 12 -> P 13 -> P 14 -> P 15 ->
  P 16 -> P 17 -> P 18 -> P 19 -> P 20 -> P 21 -> P 22 -> P 23 ->
  P 24 -> P 25 -> P 26 -> P 27 -> P 28 -> P 29 -> P 30 -> P 31 -> P c.
Proof.
  intros Hc.
  assert (E : c = Z.of_nat (Z.to_nat c)) by lia. rewrite E.
  assert (Hn : (Z.to_nat c < 32)%nat) by lia.
  generalize dependent (Z.to_nat c). intros n _ Hn.
  do 32 (destruct n as [|n]; [intros; assumption|]). lia.
Qed.

(** Every index below 32 names a lower-case character that [indexOf]
    maps back to the same index. *)
Lemma base32_index (c : Z) :
  0 <= c < 32 ->
  exists a, charAt BASE32 c = Some a /\ indexOf BASE32 a = c /\ lowerChar a = a.
Proof.
  intros Hc. pattern c. apply small_cases; [exact Hc|..];
    (eexists; split; [vm_compute; reflexivity | split; vm_compute; reflexivity]).
Qed.

Lemma enc_of_box (s : EncState) : s = enc_of (box_of s) (e_hash s) (e_bit s) (e_ch s).
Proof. destruct s; reflexivity. Qed.

Lemma decode_bit_refine (idx bit : Z) (b : DecState) :
  decode_bit idx bit b = refine (Z.land (Z.shiftr idx bit) 1 =? 1) b.
Proof.
  unfold decode_bit, refine.
  destruct (d_isLng b), (Z.land (Z.shiftr idx bit) 1 =? 1); reflexivity.
Qed.

Lemma refine_inside_lng (la lo : Q) (b : DecState) :
  d_isLng b = true -> inside la lo b ->
  inside la lo (refine (Qle_bool ((d_minLng b + d_maxLng b) / 2) lo) b).
Proof.
  unfold inside, refine. intros -> (H1 & H2 & H3 & H4).
  destruct (Qle_bool _ lo) eqn:E; simpl.
  - apply Qle_bool_iff in E. tauto.
  - assert (~ ((d_minLng b + d_maxLng b) / 2 <= lo)%Q) as N
      by (rewrite <- Qle_bool_iff; congruence).
    apply Qnot_le_lt, Qlt_le_weak in N. tauto.
Qed.

Lemma refine_inside_lat (la lo : Q) (b : DecState) :
  d_isLng b = false -> inside la lo b ->
  inside la lo (refine (Qle_bool ((d_minLat b + d_maxLat b) / 2) la) b).
Proof.
  unfold inside, refine. intros -> (H1 & H2 & H3 & H4).
  destruct (Qle_bool _ la) eqn:E; simpl.
  - apply Qle_bool_iff in E. tauto.
  - assert (~ ((d_minLat b + d_maxLat b) / 2 <= la)%Q) as N
      by (rewrite <- Qle_bool_iff; congruence).
    apply Qnot_le_lt, Qlt_le_weak in N. tauto.
Qed.

(** One iteration: some half is chosen, the point stays inside it, and the
    bit is recorded; the fifth bit of a character emits it. *)
Lemma encode_step_spec (la lo : Q) (b : DecState) (h : string) (bit ch : Z) :
  exists upper,
    (inside la lo b -> inside la lo (refine upper b)) /\
    encode_step la lo (enc_of b h bit ch) =
      if bit + 1 =? 5
      then enc_of (refine upper b) (append_base32 h (addbit upper bit ch)) 0 0
      else enc_of (refine upper b) h (bit + 1) (addbit upper bit ch).
Proof.
  destruct b as [a1 a2 o1 o2 l]. destruct l.
  - exists (Qle_bool ((o1 + o2) / 2) lo). split.
    + apply (refine_inside_lng la lo (mkDec a1 a2 o1 o2 true)); reflexivity.
    + unfold encode_step, enc_of, refine, addbit; simpl.
      destruct (Qle_bool _ lo); simpl; destruct (bit + 1 =? 5); reflexivity.
  - exists (Qle_bool ((a1 + a2) / 2) la). split.
    + apply (refine_inside_lat la lo (mkDec a1 a2 o1 o2 false)); reflexivity.
    + unfold encode_step, enc_of, refine, addbit; simpl.
      destruct (Qle_bool _ la); simpl; destruct (bit + 1 =? 5); reflexivity.
Qed.

(** Five iterations from a character boundary emit one alphabet character
    whose five bits, read back by the decoder, select the same cell. *)
Lemma encode_char (la lo : Q) (b : DecState) (h : string) :
  exists c, 0 <= c < 32 /\
    (inside la lo b -> inside la lo (decode_bits 5 c b)) /\
    forall fuel p, strlen h < p ->
      encode_loop (5 + fuel) la lo p (enc_of b h 0 0) =
      encode_loop fuel la lo p (enc_of (decode_bits 5 c b) (append_base32 h c) 0 0).
Proof.
  destruct (encode_step_spec la lo b h 0 0) as (v0 & I0 & E0).
  destruct (encode_step_spec la lo (refine v0 b) h 1 (addbit v0 0 0)) as (v1 & I1 & E1).
  destruct (encode_step_spec la lo (refine v1 (refine v0 b)) h 2
              (addbit v1 1 (addbit v0 0 0))) as (v2 & I2 & E2).
  destruct (encode_step_spec la lo (refine v2 (refine v1 (refine v0 b))) h 3
              (addbit v2 2 (addbit v1 1 (addbit v0 0 0)))) as (v3 & I3 & E3).
  destruct (encode_step_spec la lo (refine v3 (refine v2 (refine v1 (refine v0 b)))) h 4
              (addbit v3 3 (addbit v2 2 (addbit v1 1 (addbit v0 0 0))))) as (v4 & I4 & E4).
  change (encode_step la lo (enc_of b h 0 0) =
          enc_of (refine v0 b) h 1 (addbit v0 0 0)) in E0.
  change (encode_step la lo (enc_of (refine v0 b) h 1 (addbit v0 0 0)) =
          enc_of (refine v1 (refine v0 b)) h 2 (addbit v1 1 (addbit v0 0 0))) in E1.
  change (encode_step la lo
            (enc_of (refine v1 (refine v0 b)) h 2 (addbit v1 1 (addbit v0 0 0))) =
          enc_of (refine v2 (refine v1 (refine v0 b))) h 3
            (addbit v2 2 (addbit v1 1 (addbit v0 0 0)))) in E2.
  change (encode_step la lo
            (enc_of (refine v2 (refine v1 (refine v0 b))) h 3
               (addbit v2 2 (addbit v1 1 (addbit v0 0 0)))) =
          enc_of (refine v3 (refine v2 (refine v1 (refine v0 b)))) h 4
            (addbit v3 3 (addbit v2 2 (addbit v1 1 (addbit v0 0 0))))) in E3.
  change (encode_step la lo
            (enc_of (refine v3 (refine v2 (refine v1 (refine v0 b)))) h 4
               (addbit v3 3 (addbit v2 2 (addbit v1 1 (addbit v0 0 0))))) =
          enc_of (refine v4 (refine v3 (refine v2 (refine v1 (refine v0 b)))))
            (append_base32 h
               (addbit v4 4 (addbit v3 3 (addbit v2 2 (addbit v1 1 (addbit v0 0 0))))))
            0 0) in E4.
  exists (addbit v4 4 (addbit v3 3 (addbit v2 2 (addbit v1 1 (addbit v0 0 0))))).
  assert (D : decode_bits 5
                (addbit v4 4 (addbit v3 3 (addbit v2 2 (addbit v1 1 (addbit v0 0 0))))) b
              = refine v4 (refine v3 (refine v2 (refine v1 (refine v0 b))))).
  { unfold decode_bits. rewrite !decode_bit_refine.
    destruct v0, v1, v2, v3, v4; reflexivity. }
  split; [destruct v0, v1, v2, v3, v4; vm_compute; split; congruence|].
  split.
  - rewrite D. tauto.
  - rewrite D. intros fuel p Hp.
    assert (T : (strlen h <? p) = true) by (apply Z.ltb_lt; exact Hp).
    change (5 + fuel)%nat with (S (S (S (S (S fuel))))).
    cbn [encode_loop].
    change (e_hash (enc_of b h 0 0)) with h. rewrite T, E0.
    change (e_hash (enc_of (refine v0 b) h 1 (addbit v0 0 0))) with h. rewrite T, E1.
    match goal with |- context [e_hash (enc_of ?x h ?y ?z)] =>
      change (e_hash (enc_of x h y z)) with h end. rewrite T, E2.
    match goal with |- context [e_hash (enc_of ?x h ?y ?z)] =>
      change (e_hash (enc_of x h y z)) with h end. rewrite T, E3.
    match goal with |- context [e_hash (enc_of ?x h ?y ?z)] =>
      change (e_hash (enc_of x h y z)) with h end. rewrite T, E4.
    reflexivity.
Qed.

Lemma strlen_append (a b : string) : strlen (a +:+ b) = strlen a + strlen b.
Proof. unfold strlen. rewrite length_append. lia. Qed.

(** The whole loop: [n] characters are emitted, the decoder reads them back
    to the very cell the encoder ended in, and the point never leaves it. *)
Lemma encode_loop_spec (la lo : Q) (p : Z) (n : nat) :
  forall (b : DecState) (h : string),
    strlen h + Z.of_nat n = p ->
    exists w b',
      encode_loop (5 * n) la lo p (enc_of b h 0 0) = enc_of b' (h +:+ w) 0 0 /\
      String.length w = n /\
      decode_chars w b = Return b' /\
      toLowerCase w = w /\
      (inside la lo b -> inside la lo b').
Proof.
  induction n as [|n IH]; intros b h Hlen.
  - exists ""%string, b. rewrite append_nil_r.
    split; [reflexivity|]. split; [reflexivity|]. split; [reflexivity|].
    split; [reflexivity|]. tauto.
  - destruct (encode_char la lo b h) as (c & Hc & Hin & Hloop).
    destruct (base32_index c Hc) as (a & Hget & Hidx & Hlow).
    replace (5 * S n)%nat with (5 + 5 * n)%nat by lia.
    rewrite (Hloop (5 * n)%nat p) by lia.
    unfold append_base32. rewrite Hget.
    destruct (IH (decode_bits 5 c b) (h +:+ String a "")) as (w & b' & E & L & D & Lw & I).
    { rewrite strlen_append. unfold strlen at 2. simpl String.length. lia. }
    exists (String a w), b'. rewrite E, append_assoc.
    split; [reflexivity|]. split; [|split; [|split]].
    + simpl. now rewrite L.
    + cbn [decode_chars]. rewrite Hidx.
      assert ((c =? -1) = false) as -> by lia. exact D.
    + simpl. now rewrite Hlow, Lw.
    + tauto.
Qed.

Lemma encodeGeohash_spec (la lo : Q) (p : Z) :
  0 <= p ->
  exists b,
    decode_chars (toLowerCase (encodeGeohash la lo p)) dec_init = Return b /\
    strlen (encodeGeohash la lo p) = p /\
    (inside la lo dec_init -> inside la lo b).
Proof.
  intros Hp. unfold encodeGeohash.
  change enc_init with (enc_of dec_init "" 0 0).
  destruct (encode_loop_spec la lo p (Z.to_nat p) dec_init "") as (w & b & E & L & D & Lw & I).
  { unfold strlen. simpl. lia. }
  exists b. rewrite E. cbn [e_hash enc_of]. change ("" +:+ w) with w.
  rewrite Lw. unfold strlen. rewrite L.
  split; [exact D | split; [lia | exact I]].
Qed.

(** The loop of [encodeGeohash] has left by the time its fuel is spent. *)
Lemma encode_loop_exits (la lo : Q) (p : Z) :
  (strlen (e_hash (encode_loop (5 * Z.to_nat p) la lo p enc_init)) <? p) = false.
Proof.
  apply Z.ltb_ge.
  destruct (Z.le_gt_cases 0 p) as [Hp|Hp].
  - destruct (encodeGeohash_spec la lo p Hp) as (b & _ & L & _).
    unfold encodeGeohash in L. lia.
  - unfold strlen. lia.
Qed.

Lemma center_within (x lo hi : Q) :
  (lo <= x)%Q -> (x <= hi)%Q -> (Qabs ((lo + hi) / 2 - x) <= (hi - lo) / 2)%Q.
Proof.
  intros H1 H2. apply Qabs_Qle_condition.
  split; unfold Qdiv; change (/ 2)%Q with (1 # 2)%Q; lra.
Qed.

(** C7. For a latitude in [-90, 90], a longitude in [-180, 180] and a
    precision from 1 to 9, decoding the encoded hash succeeds and yields a
    centre whose latitude is within [latError] and whose longitude is within
    [lngError] of the original coordinate. *)
Theorem geohash_roundtrip_within_error (la lo : Q) (p : Z) :
  (-90 <= la <= 90)%Q -> (-180 <= lo <= 180)%Q -> 1 <= p <= 9 ->
  exists d,
    decodeGeohash (encodeGeohash la lo p) = Return d /\
    (Qabs (lat d - la) <= latError d)%Q /\
    (Qabs (lng d - lo) <= lngError d)%Q.
Proof.
  intros [Ha1 Ha2] [Ho1 Ho2] Hp.
  destruct (encodeGeohash_spec la lo p) as (b & D & _ & I); [lia|].
  destruct I as (I1 & I2 & I3 & I4); [unfold inside; simpl; tauto|].
  unfold decodeGeohash. rewrite D. cbn [bindC].
  eexists. split; [reflexivity|]. cbn [lat lng latError lngError].
  split; apply center_within; assumption.
Qed.

Lemma lower_upper (c : ascii) : lowerChar (upperChar c) = lowerChar c.
Proof. destruct c as [[] [] [] [] [] [] [] []]; vm_compute; reflexivity. Qed.

Lemma toLowerCase_toUpperCase (s : string) :
  toLowerCase (toUpperCase s) = toLowerCase s.
Proof.
  induction s as [|c s IH]; simpl; [reflexivity|].
  now rewrite lower_upper, IH.
Qed.

Lemma chars_toLowerCase (s : string) : chars (toLowerCase s) = map lowerChar (chars s).
Proof. induction s as [|c s IH]; simpl; [reflexivity | now rewrite <- IH]. Qed.

Lemma decode_chars_Return (w : string) :
  forall b, List.Forall (fun c => In c alphabet) (chars w) ->
            exists b', decode_chars w b = Return b'.
Proof.
  induction w as [|c w IH]; intros b H; simpl.
  - now exists b.
  - inversion H as [|? ? Hc Hw]; subst.
    assert ((indexOf BASE32 c =? -1) = false) as ->.
    { apply Z.eqb_neq. rewrite indexOf_absent. tauto. }
    apply IH, Hw.
Qed.

Lemma decode_chars_Throw (w : string) :
  forall b, List.Exists (fun c => ~ In c alphabet) (chars w) ->
            exists c, ~ In c alphabet /\ In c (chars w) /\
                      decode_chars w b = Throw (InvalidGeohash c).
Proof.
  induction w as [|c w IH]; intros b H; simpl.
  - inversion H.
  - destruct (indexOf BASE32 c =? -1) eqn:E.
    + exists c. apply Z.eqb_eq, indexOf_absent in E.
      split; [exact E | split; [now left | reflexivity]].
    + inversion H as [? ? Hc|? ? Hw]; subst.
      * apply Z.eqb_neq in E. rewrite indexOf_absent in E. tauto.
      * destruct (IH (decode_bits 5 (indexOf BASE32 c) b) Hw) as (c' & N & I & D).
        exists c'. split; [exact N | split; [now right | exact D]].
Qed.

Lemma alphabet_dec (l : list ascii) :
  List.Forall (fun c => In c alphabet) l \/ List.Exists (fun c => ~ In c alphabet) l.
Proof.
  induction l as [|c l [IH|IH]].
  - left. constructor.
  - destruct (in_dec ascii_dec c alphabet) as [Hc|Hc].
    + left. now constructor.
    + right. now constructor.
  - right. now constructor 2.
Qed.

Lemma Forall_lower (h : string) :
  List.Forall (fun c => In c alphabet) (chars (toLowerCase h)) <->
  List.Forall (fun c => In (lowerChar c) alphabet) (chars h).
Proof. rewrite chars_toLowerCase. apply List.Forall_map. Qed.

Lemma Exists_lower (h : string) :
  List.Exists (fun c => ~ In c alphabet) (chars (toLowerCase h)) <->
  List.Exists (fun c => ~ In (lowerChar c) alphabet) (chars h).
Proof. rewrite chars_toLowerCase. apply List.Exists_map. Qed.

Lemma Forall_not_Exists (l : list ascii) (P : ascii -> Prop) :
  List.Forall P l -> List.Exists (fun c => ~ P c) l -> False.
Proof.
  intros HF HE. apply List.Exists_exists in HE. destruct HE as (c & Hin & Hn).
  rewrite List.Forall_forall in HF. auto.
Qed.

Lemma decodeGeohash_outcome (h : string) :
  ((exists c, decodeGeohash h = Throw (InvalidGeohash c)) <->
   List.Exists (fun c => ~ In (lowerChar c) alphabet) (chars h)) /\
  ((exists d, decodeGeohash h = Return d) <->
   List.Forall (fun c => In (lowerChar c) alphabet) (chars h)).
Proof.
  unfold decodeGeohash.
  destruct (alphabet_dec (chars (toLowerCase h))) as [HF|HE].
  - destruct (decode_chars_Return _ dec_init HF) as (b & D). rewrite D. cbn [bindC].
    split; split.
    + intros (c & Hc). discriminate.
    + intros HE. apply Exists_lower in HE. destruct (Forall_not_Exists _ _ HF HE).
    + intros _. now apply Forall_lower.
    + intros _. eexists. reflexivity.
  - destruct (decode_chars_Throw _ dec_init HE) as (c & N & I & D). rewrite D. cbn [bindC].
    split; split.
    + intros _. now apply Exists_lower.
    + intros _. now exists c.
    + intros (d & Hd). discriminate.
    + intros HF. apply Forall_lower in HF. destruct (Forall_not_Exists _ _ HF HE).
Qed.

(** C8 (as amended). [decodeGeohash] throws the invalid-character error
    exactly when some character of the input has a lower-case form outside
    the base-32 alphabet, and returns a cell exactly when every character's
    lower-case form is in the alphabet. *)
Theorem decodeGeohash_fails_iff_lowercase_outside (h : string) :
  ((exists c, decodeGeohash h = Throw (InvalidGeohash c)) <->
   List.Exists (fun c => ~ In (lowerChar c) alphabet) (chars h)) /\
  ((exists d, decodeGeohash h = Return d) <->
   List.Forall (fun c => In (lowerChar c) alphabet) (chars h)).
Proof. exact (decodeGeohash_outcome h). Qed.

(** C8, counterexample. The character B is outside the alphabet, yet the
    one-character input decodes to a cell. *)
Lemma decodeGeohash_accepts_uppercase_B :
  In "B"%char (chars "B") /\ ~ In "B"%char alphabet /\
  exists d, decodeGeohash "B" = Return d /\
            (lat d == 675 # 10)%Q /\ (lng d == -1575 # 10)%Q /\
            (latError d == 225 # 10)%Q /\ (lngError d == 225 # 10)%Q.
Proof.
  split; [now left | split].
  - unfold alphabet. simpl. intuition discriminate.
  - eexists. split; [vm_compute; reflexivity|].
    repeat split; vm_compute; reflexivity.
Qed.

(** C10. [decodeGeohash] lower-cases its input first: a string and its
    lower-case (or upper-case) form decode alike, and an exception is raised
    only when some character's lower-case form is outside the alphabet. *)
Theorem decodeGeohash_case_insensitive (h : string) :
  decodeGeohash h = decodeGeohash (toLowerCase h) /\
  decodeGeohash (toUpperCase h) = decodeGeohash h /\
  ((exists e, decodeGeohash h = Throw e) <->
   List.Exists (fun c => ~ In (lowerChar c) alphabet) (chars h)).
Proof.
  split; [|split].
  - unfold decodeGeohash. now rewrite toLowerCase_idem.
  - unfold decodeGeohash. now rewrite toLowerCase_toUpperCase.
  - destruct (decodeGeohash_outcome h) as [[T1 T2] [R1 R2]].
    split.
    + intros (e & He).
      destruct (alphabet_dec (chars (toLowerCase h))) as [HF|HE].
      * apply Forall_lower, R2 in HF. destruct HF as (d & Hd). congruence.
      * now apply Exists_lower.
    + intros HE. destruct (T2 HE) as (c & Hc). now exists (InvalidGeohash c).
Qed.

Lemma decodeGeohash_case_insensitive_witness :
  decodeGeohash "KZF0TYP" = decodeGeohash "kzf0typ" /\
  decodeGeohash (toUpperCase "kzf0typ") = decodeGeohash "kzf0typ".
Proof.
  split.
  - apply (proj1 (decodeGeohash_case_insensitive "KZF0TYP")).
  - apply (proj1 (proj2 (decodeGeohash_case_insensitive "kzf0typ"))).
Defined.

(** *** Decimal rendering *)

Lemma bounded_cases (k : nat) (P : Z -> Prop) :
  (forall i, (i < k)%nat -> P (Z.of_nat i)) -> forall n, 0 <= n < Z.of_nat k -> P n.
Proof.
  intros H n Hn. replace n with (Z.of_nat (Z.to_nat n)) by lia. apply H. lia.
Qed.

Lemma digitChar_isDigit (d : Z) : 0 <= d < 10 -> isDigit (digitChar d) = true.
Proof.
  revert d. apply (bounded_cases 10). intros i Hi.
  do 10 (destruct i as [|i]; [reflexivity|]). lia.
Qed.

Lemma decimal_digits_spec (fuel : nat) :
  forall (k : nat) (n : Z) (acc : string),
    0 <= n < 10 ^ Z.of_nat (S k) ->
    forallb isDigit (list_ascii_of_string acc) = true ->
    let s := decimal_digits (S fuel) n acc in
    (String.length acc < String.length s <= S k + String.length acc)%nat /\
    forallb isDigit (list_ascii_of_string s) = true.
Proof.
  assert (One : forall n acc,
             0 <= n -> forallb isDigit (list_ascii_of_string acc) = true ->
             forallb isDigit
               (list_ascii_of_string (String (digitChar (n mod 10)) acc)) = true).
  { intros n acc Hn Hacc. cbn [list_ascii_of_string forallb].
    rewrite Hacc, digitChar_isDigit; [reflexivity | apply Z.mod_pos_bound; lia]. }
  induction fuel as [|fuel IH]; intros k n acc Hn Hacc; cbn [decimal_digits].
  - destruct (n / 10 =? 0); (split; [cbn [String.length]; lia | apply One; [lia | exact Hacc]]).
  - destruct (n / 10 =? 0) eqn:E.
    + split; [cbn [String.length]; lia | apply One; [lia | exact Hacc]].
    + apply Z.eqb_neq in E.
      destruct k as [|k].
      { change (10 ^ Z.of_nat 1) with 10 in Hn.
        exfalso. apply E. apply Z.div_small. lia. }
      specialize (IH k (n / 10) (String (digitChar (n mod 10)) acc)).
      destruct IH as [L D].
      * rewrite Nat2Z.inj_succ, Z.pow_succ_r in Hn by lia.
        split; [apply Z.div_pos; lia | apply Z.div_lt_upper_bound; lia].
      * apply One; [lia | exact Hacc].
      * cbn [decimal_digits] in L, D |- *. cbn [String.length] in L.
        split; [lia | exact D].
Qed.

Lemma natural_to_string_six (n : Z) :
  0 <= n < 1000000 ->
  (0 < String.length (natural_to_string n) <= 6)%nat /\
  forallb isDigit (list_ascii_of_string (natural_to_string n)) = true.
Proof.
  intros Hn. unfold natural_to_string.
  destruct (decimal_digits_spec (Z.to_nat (Z.log2 n)) 5 n "" ) as [L D];
    [change (10 ^ Z.of_nat 6) with 1000000; lia | reflexivity |].
  cbn [String.length] in L. split; [lia | exact D].
Qed.

Lemma repeatChar_length n c : String.length (repeatChar n c) = n.
Proof. induction n; cbn [repeatChar String.length]; congruence. Qed.

Lemma list_ascii_append (a b : string) :
  list_ascii_of_string (a +:+ b) = list_ascii_of_string a ++ list_ascii_of_string b.
Proof.
  induction a as [|x a IH]; [reflexivity|].
  rewrite append_cons. simpl. now rewrite IH.
Qed.

Lemma repeatChar_digits n :
  forallb isDigit (list_ascii_of_string (repeatChar n "0")) = true.
Proof. induction n; [reflexivity | exact IHn]. Qed.

Lemma padStart_six (s : string) :
  (0 < String.length s <= 6)%nat ->
  forallb isDigit (list_ascii_of_string s) = true ->
  sixDigits (padStart s 6 "0").
Proof.
  intros L D. unfold padStart, strlen, sixDigits.
  destruct (6 <=? Z.of_nat (String.length s)) eqn:E.
  - apply Z.leb_le in E. split; [lia | exact D].
  - apply Z.leb_gt in E. rewrite length_append, repeatChar_length.
    split; [lia|]. rewrite list_ascii_append, forallb_app, repeatChar_digits, D.
    reflexivity.
Qed.

(** *** Shape of the digest *)

Lemma nibbles_spec (w : Z) :
  List.length (Crypto.nibbles w) = 8%nat /\ List.Forall nibble (Crypto.nibbles w).
Proof.
  unfold Crypto.nibbles. split; [reflexivity|].
  apply List.Forall_map, List.Forall_forall. intros i _.
  unfold nibble. apply Z.mod_pos_bound. lia.
Qed.

Lemma digest_nibbles_spec (s : Crypto.Words8) :
  List.length (Crypto.digest_nibbles s) = 64%nat /\
  List.Forall nibble (Crypto.digest_nibbles s).
Proof.
  unfold Crypto.digest_nibbles, Crypto.words_of. cbn [flat_map].
  rewrite !List.length_app, !List.Forall_app.
  pose proof (nibbles_spec (Crypto.wa s)) as [-> ?].
  pose proof (nibbles_spec (Crypto.wb s)) as [-> ?].
  pose proof (nibbles_spec (Crypto.wc s)) as [-> ?].
  pose proof (nibbles_spec (Crypto.wd s)) as [-> ?].
  pose proof (nibbles_spec (Crypto.we s)) as [-> ?].
  pose proof (nibbles_spec (Crypto.wf s)) as [-> ?].
  pose proof (nibbles_spec (Crypto.wg s)) as [-> ?].
  pose proof (nibbles_spec (Crypto.wh s)) as [-> ?].
  split; [reflexivity|]. repeat split; try assumption. constructor.
Qed.

Lemma string_of_list_length (l : list ascii) :
  String.length (string_of_list_ascii l) = List.length l.
Proof. induction l; cbn [string_of_list_ascii String.length List.length]; congruence. Qed.

Lemma substring_of_list (l : list ascii) :
  forall n m,
    String.substring n m (string_of_list_ascii l) =
    string_of_list_ascii (firstn m (skipn n l)).
Proof.
  induction l as [|c l IH]; intros n m.
  - destruct n, m; reflexivity.
  - destruct n as [|n].
    + destruct m as [|m]; [reflexivity|].
      cbn [string_of_list_ascii String.substring skipn firstn]. now rewrite (IH 0%nat m).
    + cbn [string_of_list_ascii String.substring skipn]. apply IH.
Qed.

Lemma hexChar_facts (n : Z) :
  nibble n ->
  hexValue (Crypto.hexChar n) = Some n /\
  isWhiteSpace (Crypto.hexChar n) = false /\
  Crypto.hexChar n <> "-"%char /\ Crypto.hexChar n <> "+"%char /\
  Crypto.hexChar n <> "x"%char /\ Crypto.hexChar n <> "X"%char.
Proof.
  revert n. apply (bounded_cases 16). intros i Hi.
  do 16 (destruct i as [|i];
         [vm_compute; repeat split; (reflexivity || discriminate)|]).
  lia.
Qed.

Lemma hexPrefix_hex (ns : list Z) :
  forall acc, List.Forall nibble ns ->
    hexPrefix (Crypto.hex_of_nibbles ns) (Some acc) =
    Some (fold_left (fun a d => 16 * a + d) ns acc).
Proof.
  induction ns as [|n ns IH]; intros acc H; [reflexivity|].
  inversion H as [|? ? Hn Hns]; subst.
  unfold Crypto.hex_of_nibbles in *. cbn [map string_of_list_ascii hexPrefix fold_left].
  destruct (hexChar_facts n Hn) as (-> & _). cbn [default]. now apply IH.
Qed.

Lemma hexfold_bound (ns : list Z) :
  forall acc, 0 <= acc -> List.Forall nibble ns ->
    0 <= fold_left (fun a d => 16 * a + d) ns acc
      < (acc + 1) * 16 ^ Z.of_nat (List.length ns).
Proof.
  induction ns as [|n ns IH]; intros acc Hacc H.
  - cbn [fold_left List.length]. change (16 ^ Z.of_nat 0) with 1. lia.
  - inversion H as [|? ? Hn Hns]; subst. unfold nibble in Hn.
    cbn [fold_left List.length]. rewrite Nat2Z.inj_succ, Z.pow_succ_r by lia.
    specialize (IH (16 * acc + n) ltac:(lia) Hns).
    split; [lia|]. eapply Z.lt_le_trans; [apply IH|].
    assert (0 < 16 ^ Z.of_nat (List.length ns)) by (apply Z.pow_pos_nonneg; lia).
    nia.
Qed.

(** On a non-empty string of lower-case hex digits [parseInt(s, 16)] is the
    number they spell. *)
Lemma parseInt16_hex (ns : list Z) :
  ns <> [] -> List.Forall nibble ns ->
  parseInt16 (Crypto.hex_of_nibbles ns) = Some (hexfold ns).
Proof.
  intros Hne H. destruct ns as [|n0 ns]; [congruence|].
  inversion H as [|? ? H0 Hns]; subst.
  assert (E : hexPrefix (Crypto.hex_of_nibbles (n0 :: ns)) None = Some (hexfold (n0 :: ns))).
  { unfold Crypto.hex_of_nibbles, hexfold.
    cbn [map string_of_list_ascii hexPrefix fold_left].
    destruct (hexChar_facts n0 H0) as (-> & _). cbn [default].
    apply (hexPrefix_hex ns (16 * 0 + n0) Hns). }
  revert E. unfold parseInt16, Crypto.hex_of_nibbles.
  cbn [map string_of_list_ascii trimStart].
  destruct (hexChar_facts n0 H0) as (_ & -> & Hm & Hp & _).
  destruct ns as [|n1 ns].
  - cbn [map string_of_list_ascii]. revert Hm Hp. generalize (Crypto.hexChar n0).
    intros c Hm Hp.
    destruct c as [[] [] [] [] [] [] [] []]; try congruence; intros ->; reflexivity.
  - inversion Hns as [|? ? H1 _]; subst.
    destruct (hexChar_facts n1 H1) as (_ & _ & _ & _ & Hx & HX).
    cbn [map string_of_list_ascii]. revert Hm Hp Hx HX.
    generalize (Crypto.hexChar n0) (Crypto.hexChar n1)
               (string_of_list_ascii (map Crypto.hexChar ns)).
    intros c d rest Hm Hp Hx HX.
    destruct c as [[] [] [] [] [] [] [] []]; try congruence;
      try (intros ->; reflexivity).
    destruct d as [[] [] [] [] [] [] [] []]; try congruence; intros ->; reflexivity.
Qed.

(** *** One-time codes *)

Lemma hex_of_nibbles_length (ns : list Z) :
  strlen (Crypto.hex_of_nibbles ns) = Z.of_nat (List.length ns).
Proof.
  unfold strlen, Crypto.hex_of_nibbles.
  now rewrite string_of_list_length, List.length_map.
Qed.

Lemma slice_hex (ns : list Z) (from to : Z) :
  0 <= from < to -> to <= Z.of_nat (List.length ns) ->
  slice (Crypto.hex_of_nibbles ns) from to =
  Crypto.hex_of_nibbles (firstn (Z.to_nat (to - from)) (skipn (Z.to_nat from) ns)).
Proof.
  intros H1 H2. unfold slice. rewrite hex_of_nibbles_length.
  unfold clampIndex.
  assert ((from <? 0) = false) as -> by lia.
  assert ((to <? 0) = false) as -> by lia.
  rewrite !Z.min_l by lia.
  assert ((from <? to) = true) as -> by lia.
  unfold Crypto.hex_of_nibbles. rewrite substring_of_list.
  now rewrite List.skipn_map, List.firstn_map.
Qed.

Lemma window_nibbles (ns : list Z) (from len : nat) :
  (0 < len)%nat -> (from + len <= List.length ns)%nat -> List.Forall nibble ns ->
  let w := firstn len (skipn from ns) in
  w <> [] /\ List.length w = len /\ List.Forall nibble w.
Proof.
  intros Hl Hb HF w. subst w.
  assert (L : List.length (firstn len (skipn from ns)) = len).
  { rewrite List.length_firstn, List.length_skipn. lia. }
  split; [|split; [exact L|]].
  - intros E. rewrite E in L. cbn in L. lia.
  - apply Forall_take, Forall_drop, HF.
Qed.

Section TotpFacts.
Variable TOTP_SECRET : string.

Local Abbreviation generateTOTP := (generateTOTP TOTP_SECRET).
Local Abbreviation verifyTOTP := (verifyTOTP TOTP_SECRET).

(** X7. Whatever the secret, the timestamp and the clock, [generateTOTP]
    returns exactly six decimal digits (short values are padded with
    zeros on the left). *)
Lemma generateTOTP_sixDigits (secret : string) (timestamp : option Z) (now : Z) :
  sixDigits (generateTOTP secret timestamp now).
Proof.
  unfold Verification.generateTOTP, Crypto.hmac_sha256_hex.
  match goal with
  | |- context [Crypto.digest_nibbles ?x] =>
      destruct (digest_nibbles_spec x) as [L F];
      generalize dependent (Crypto.digest_nibbles x)
  end.
  intros ns L F.
  (* the last hex digit *)
  unfold sliceFrom. rewrite hex_of_nibbles_length, L.
  assert (S1 : slice (Crypto.hex_of_nibbles ns) (-1) (Z.of_nat 64) =
               Crypto.hex_of_nibbles (firstn 1 (skipn 63 ns))).
  { unfold slice. rewrite hex_of_nibbles_length, L. cbn [clampIndex].
    change (clampIndex (Z.of_nat 64) (-1)) with 63.
    change (clampIndex (Z.of_nat 64) (Z.of_nat 64)) with 64.
    change (63 <? 64) with true. cbv iota.
    unfold Crypto.hex_of_nibbles. rewrite substring_of_list.
    now rewrite List.skipn_map, List.firstn_map. }
  rewrite S1.
  destruct (window_nibbles ns 63 1) as (N1 & L1 & F1); [lia | lia | exact F |].
  rewrite (parseInt16_hex _ N1 F1).
  pose proof (hexfold_bound _ 0 ltac:(lia) F1) as B1. fold (hexfold (firstn 1 (skipn 63 ns))) in B1.
  rewrite L1 in B1. change ((0 + 1) * 16 ^ Z.of_nat 1) with 16 in B1.
  set (o := hexfold (firstn 1 (skipn 63 ns))) in *.
  (* the eight digits at the offset *)
  rewrite (slice_hex ns (o * 2) (o * 2 + 8)) by lia.
  replace (Z.to_nat (o * 2 + 8 - o * 2)) with 8%nat by lia.
  destruct (window_nibbles ns (Z.to_nat (o * 2)) 8) as (N8 & L8 & F8); [lia | lia | exact F |].
  rewrite (parseInt16_hex _ N8 F8).
  pose proof (hexfold_bound _ 0 ltac:(lia) F8) as B8.
  fold (hexfold (firstn 8 (skipn (Z.to_nat (o * 2)) ns))) in B8.
  set (w := hexfold (firstn 8 (skipn (Z.to_nat (o * 2)) ns))) in *.
  rewrite L8 in B8. change ((0 + 1) * 16 ^ Z.of_nat 8) with 4294967296 in B8.
  assert (R : 0 <= Z.rem w 1000000 < 1000000).
  { split; [apply Z.rem_nonneg; lia | apply Z.rem_bound_pos; lia]. }
  unfold integer_to_string. assert ((Z.rem w 1000000 <? 0) = false) as -> by lia.
  destruct (natural_to_string_six _ R) as [Ln Dn].
  now apply padStart_six.
Qed.

Lemma generateTOTP_clockTime (secret : string) (timestamp : option Z) (now : Z) :
  generateTOTP secret timestamp now =
  generateTOTP secret None (clockTime timestamp now).
Proof.
  destruct timestamp as [t|]; [|reflexivity].
  unfold Verification.generateTOTP, clockTime. destruct (t =? 0); reflexivity.
Qed.

(** The code depends on the time only through its 30-second window. *)
Lemma generateTOTP_same_window (secret : string) (ts ts' : option Z) (now now' : Z) :
  clockTime ts now / TOTP_WINDOW = clockTime ts' now' / TOTP_WINDOW ->
  generateTOTP secret ts now = generateTOTP secret ts' now'.
Proof.
  intros H. rewrite (generateTOTP_clockTime secret ts), (generateTOTP_clockTime secret ts').
  unfold Verification.generateTOTP. now rewrite H.
Qed.

(** A non-zero timestamp fixes the code whatever the clock reads. *)
Lemma generateTOTP_deterministic (secret : string) (t now now' : Z) :
  t <> 0 ->
  generateTOTP secret (Some t) now = generateTOTP secret (Some t) now'.
Proof.
  intros Ht. apply generateTOTP_same_window. unfold clockTime.
  assert ((t =? 0) = false) as -> by lia. reflexivity.
Qed.

(** The timestamp [0] is read as absent. *)
Lemma generateTOTP_zero (secret : string) (now : Z) :
  generateTOTP secret (Some 0) now = generateTOTP secret None now.
Proof. reflexivity. Qed.

Lemma verifyTOTP_loop_spec (code secret : string) (windowSize now : Z) (fuel : nat) :
  forall i,
    windowSize - i + 1 <= Z.of_nat fuel ->
    (verifyTOTP_loop TOTP_SECRET fuel code secret windowSize now i = true <->
     exists k, i <= k <= windowSize /\
               generateTOTP secret (Some (now + k * TOTP_WINDOW)) now = code).
Proof.
  induction fuel as [|fuel IH]; intros i Hf; cbn [verifyTOTP_loop].
  - split; [discriminate | intros (k & Hk & _); lia].
  - destruct (i <=? windowSize) eqn:E.
    + apply Z.leb_le in E.
      destruct (String.eqb_spec
                  (generateTOTP secret (Some (now + i * TOTP_WINDOW)) now) code) as [G|G].
      * split; [intros _; exists i; split; [lia | exact G] | reflexivity].
      * rewrite IH by lia. split.
        -- intros (k & Hk & Gk). exists k. split; [lia | exact Gk].
        -- intros (k & Hk & Gk). exists k. split; [|exact Gk].
           destruct (Z.eq_dec k i) as [->|]; [contradiction | lia].
    + apply Z.leb_gt in E. split; [discriminate | intros (k & Hk & _); lia].
Qed.

(** [verifyTOTP] accepts exactly the codes of the probed instants; its loop
    has run to the end when the fuel is spent. *)
Lemma verifyTOTP_spec (code secret : string) (windowSize now : Z) :
  verifyTOTP code secret windowSize now = true <->
  exists k, - windowSize <= k <= windowSize /\
            generateTOTP secret (Some (now + k * TOTP_WINDOW)) now = code.
Proof. unfold Verification.verifyTOTP. apply verifyTOTP_loop_spec. lia. Qed.

(** A code generated for the current instant verifies at that instant. *)
Lemma verifyTOTP_generated (secret : string) (timestamp : option Z) (now : Z) :
  clockTime timestamp now = now ->
  verifyTOTP (generateTOTP secret timestamp now) secret 1 now = true.
Proof.
  intros H. apply verifyTOTP_spec. exists 0. split; [lia|].
  apply generateTOTP_same_window. rewrite H. unfold clockTime.
  replace (now + 0 * TOTP_WINDOW) with now by lia.
  destruct (now =? 0); reflexivity.
Qed.

End TotpFacts.

(** C3. The timestamp 0 does not select the window of the epoch (code
    931349 for the secret x, as timestamp 1 shows): [generateTOTP] falls back
    to the clock, and its result changes with the clock reading. *)
Theorem generateTOTP_zero_timestamp_reads_clock :
  generateTOTP DEFAULT_TOTP_SECRET "x" (Some 1) 1700000000000 = "931349"%string /\
  generateTOTP DEFAULT_TOTP_SECRET "x" (Some 0) 1700000000000 = "357643"%string /\
  generateTOTP DEFAULT_TOTP_SECRET "x" (Some 0) 1700000030000 = "045604"%string.
Proof. repeat split; vm_compute; reflexivity. Qed.

Section AnalysisFacts.
Variable NumberToString : JSNumber -> string.
Variables Math_sin Math_cos Math_sqrt : Q -> Q.
Variable Math_atan2 : Q -> Q -> Q.

Local Abbreviation getDistance := (getDistance Math_sin Math_cos Math_sqrt Math_atan2).
Local Abbreviation analyzeTelemetry :=
  (analyzeTelemetry NumberToString Math_sin Math_cos Math_sqrt Math_atan2).
Local Abbreviation runChecks :=
  (runChecks NumberToString Math_sin Math_cos Math_sqrt Math_atan2).

Lemma sumIncrements_app (a b : list FraudFlag) :
  sumIncrements (a ++ b) = sumIncrements a + sumIncrements b.
Proof.
  unfold sumIncrements. induction a as [|f a IH]; [reflexivity|].
  change ((f :: a) ++ b) with (f :: (a ++ b)). cbn [fold_right]. rewrite IH. lia.
Qed.

Lemma sumIncrements_nonneg (fs : list FraudFlag) : 0 <= sumIncrements fs.
Proof.
  unfold sumIncrements. induction fs as [|f fs IH]; cbn [fold_right]; [lia|].
  assert (0 <= incrementOf f); [|lia].
  unfold incrementOf. destruct (type f), (severity f), (flagData f); lia.
Qed.

Lemma accounted_flag (f : FraudFlag) (inc : Z) (acc : Acc) :
  incrementOf f = inc -> accounted acc -> accounted (flag f inc acc).
Proof.
  unfold accounted, flag. cbn [fst snd]. intros <- ->.
  rewrite sumIncrements_app. change (sumIncrements [f]) with (incrementOf f + 0). lia.
Qed.

Lemma accounted_speedPair prev curr acc :
  accounted acc ->
  accounted (speedPair Math_sin Math_cos Math_sqrt Math_atan2 prev curr acc).
Proof.
  intros H. unfold speedPair.
  repeat match goal with
         | |- context [if ?b then _ else _] => destruct b
         end; try assumption; apply accounted_flag; (reflexivity || assumption).
Qed.

Lemma accounted_speedCheck sorted :
  forall acc, accounted acc ->
    accounted (speedCheck Math_sin Math_cos Math_sqrt Math_atan2 sorted acc).
Proof.
  induction sorted as [|prev rest IH]; intros acc H; [exact H|].
  destruct rest as [|curr rest']; [exact H|].
  cbn [speedCheck]. apply IH. now apply accounted_speedPair.
Qed.

Lemma accounted_accuracyCheck sorted acc :
  accounted acc -> accounted (accuracyCheck sorted acc).
Proof.
  intros H. unfold accuracyCheck.
  destruct (existsb _ _); [apply accounted_flag; (reflexivity || assumption) | exact H].
Qed.

Lemma accounted_perfectCoordsCheck sorted acc :
  accounted acc -> accounted (perfectCoordsCheck sorted acc).
Proof.
  intros H. unfold perfectCoordsCheck. destruct sorted; [exact H|].
  match goal with |- context [if ?b then _ else _] => destruct b end;
    [apply accounted_flag; (reflexivity || assumption) | exact H].
Qed.

Lemma accounted_driftCheck sorted now acc :
  accounted acc -> accounted (driftCheck sorted now acc).
Proof.
  intros H. unfold driftCheck. destruct (last sorted); [|exact H].
  match goal with |- context [if ?b then _ else _] => destruct b end;
    [apply accounted_flag; (reflexivity || assumption) | exact H].
Qed.

Lemma accounted_altitudeCheck sorted acc :
  accounted acc -> accounted (altitudeCheck sorted acc).
Proof.
  intros H. unfold altitudeCheck. destruct (omap altitude sorted); [exact H|].
  repeat match goal with
         | |- context [if ?b then _ else _] => destruct b
         end; try assumption; apply accounted_flag; (reflexivity || assumption).
Qed.

Lemma accounted_dwellCheck sorted campaign acc :
  accounted acc ->
  accounted (dwellCheck NumberToString Math_sin Math_cos Math_sqrt Math_atan2
               sorted campaign acc).
Proof.
  intros H. unfold dwellCheck.
  match goal with |- context [if ?b then _ else _] => destruct b end;
    [apply accounted_flag; (reflexivity || assumption) | exact H].
Qed.

Lemma accounted_runChecks telemetry campaign now :
  accounted (runChecks telemetry campaign now).
Proof.
  unfold Verification.runChecks.
  apply accounted_dwellCheck, accounted_altitudeCheck, accounted_driftCheck,
    accounted_perfectCoordsCheck, accounted_accuracyCheck, accounted_speedCheck.
  reflexivity.
Qed.

Theorem analyzeTelemetry_riskScore (telemetry : list GPSTelemetry) (campaign : Campaign)
  (user : string) (now : Z) :
  let a := analyzeTelemetry telemetry campaign user now in
  analysisRisk a = Z.min (sumIncrements (flags a)) 100 /\
  0 <= analysisRisk a <= 100.
Proof.
  unfold Verification.analyzeTelemetry. destruct (_ <? 2)%nat.
  - cbn. split; [reflexivity | lia].
  - cbn [analysisRisk flags].
    rewrite (accounted_runChecks telemetry campaign now).
    pose proof (sumIncrements_nonneg (fst (runChecks telemetry campaign now))).
    split; [reflexivity | lia].
Qed.

End AnalysisFacts.

(** ** Guard and orchestration *)

Lemma cleanup_lookup_used now g k :
  usedSessionIds (cleanupExpiredSessions now g) !! k =
  if now - lastCleanup g <? CLEANUP_INTERVAL then usedSessionIds g !! k
  else match usedSessionIds g !! k with
       | Some t => if bool_decide (now - t > SESSION_TTL) then None else Some t
       | None => None
       end.
Proof.
  unfold cleanupExpiredSessions. destruct (_ <? _); [reflexivity|].
  cbn [usedSessionIds]. rewrite map_lookup_filter.
  destruct (usedSessionIds g !! k) as [t|]; [|reflexivity].
  cbn. unfold fresh. cbn [snd]. 
  case_bool_decide; case_guard; cbn; (reflexivity || contradiction).
Qed.

Lemma cleanup_lookup_recent now g k :
  recentRedemptions (cleanupExpiredSessions now g) !! k =
  if now - lastCleanup g <? CLEANUP_INTERVAL then recentRedemptions g !! k
  else match recentRedemptions g !! k with
       | Some t => if bool_decide (now - t > SESSION_TTL) then None else Some t
       | None => None
       end.
Proof.
  unfold cleanupExpiredSessions. destruct (_ <? _); [reflexivity|].
  cbn [recentRedemptions]. rewrite map_lookup_filter.
  destruct (recentRedemptions g !! k) as [t|]; [|reflexivity].
  cbn. unfold fresh. cbn [snd].
  case_bool_decide; case_guard; cbn; (reflexivity || contradiction).
Qed.

Lemma cleanup_subseteq now g :
  usedSessionIds (cleanupExpiredSessions now g) ⊆ usedSessionIds g /\
  recentRedemptions (cleanupExpiredSessions now g) ⊆ recentRedemptions g.
Proof.
  unfold cleanupExpiredSessions. destruct (_ <? _); [split; reflexivity|].
  split; apply map_filter_subseteq.
Qed.

Section OrchestratorFacts.
Variable TOTP_SECRET : string.
Variable NumberToString : JSNumber -> string.
Variable JSON_stringify : JSON -> string.
Variable base64_encode : string -> string.
Variables Math_sin Math_cos Math_sqrt : Q -> Q.
Variable Math_atan2 : Q -> Q -> Q.
Variable getDay : Z -> Z.
Variable toLocaleTimeString : Z -> string -> string.

Local Abbreviation verifyRedemption :=
  (verifyRedemption TOTP_SECRET NumberToString JSON_stringify base64_encode
     Math_sin Math_cos Math_sqrt Math_atan2 getDay toLocaleTimeString).
Local Abbreviation analyzeTelemetry :=
  (analyzeTelemetry NumberToString Math_sin Math_cos Math_sqrt Math_atan2).

(** C1 (as amended). A session identifier that is recorded and survives
    the sweep at the start of the call (no sweep is due, or the record is at
    most 24 hours old) is rejected with the replay result: no success, risk
    score 100 and the single CRITICAL REPLAY_ATTACK flag, whatever the
    telemetry, the campaign and the rest of the request are. *)
Theorem verifyRedemption_replay_rejected
  (request : VerificationRequest) (campaign : Campaign) (now : Z)
  (entropy : string) (g : Guard) (t : Z) :
  usedSessionIds g !! sessionId request = Some t ->
  now - lastCleanup g < CLEANUP_INTERVAL \/ now - t <= SESSION_TTL ->
  verifyRedemption request campaign now entropy g =
    (replayRejection, cleanupExpiredSessions now g).
Proof.
  intros Hused Hkept. unfold Verification.verifyRedemption.
  rewrite cleanup_lookup_used, Hused.
  destruct (now - lastCleanup g <? CLEANUP_INTERVAL) eqn:E; [reflexivity|].
  apply Z.ltb_ge in E. rewrite bool_decide_eq_false_2 by lia. reflexivity.
Qed.

(** C4. With a session identifier not seen before, a redemption recorded
    for the same user and campaign less than 24 hours ago rejects the call
    with risk score 0 and an empty flag list.  The recorded time is a clock
    reading, hence not 0 (which the test of the code would read as absent). *)
Theorem verifyRedemption_rate_limited
  (request : VerificationRequest) (campaign : Campaign) (now : Z)
  (entropy : string) (g : Guard) (t : Z) :
  usedSessionIds g !! sessionId request = None ->
  recentRedemptions g !! userCampaignKey request = Some t ->
  t <> 0 ->
  now - t < 24 * 60 * 60 * 1000 ->
  verifyRedemption request campaign now entropy g =
    (rateLimitRejection, cleanupExpiredSessions now g).
Proof.
  intros Hused Hrecent Hclock Hday. unfold Verification.verifyRedemption.
  assert (U : usedSessionIds (cleanupExpiredSessions now g) !! sessionId request = None).
  { rewrite cleanup_lookup_used, Hused. now destruct (_ <? _). }
  assert (R : recentRedemptions (cleanupExpiredSessions now g)
                !! userCampaignKey request = Some t).
  { rewrite cleanup_lookup_recent, Hrecent. destruct (_ <? _); [reflexivity|].
    rewrite bool_decide_eq_false_2; [reflexivity|]. unfold SESSION_TTL. lia. }
  rewrite U. fold (userCampaignKey request). rewrite R.
  assert ((t =? 0) = false) as -> by lia.
  assert ((now - t <? 24 * 60 * 60 * 1000) = true) as -> by lia.
  reflexivity.
Qed.

(** C9. After the sweep, a call that is rejected leaves both guard maps
    as they are (so they hold no entry that was not there before the call),
    and a call that succeeds inserts the session identifier and the
    user-campaign key, both with the time of the call. *)
Theorem verifyRedemption_records_only_on_success
  (request : VerificationRequest) (campaign : Campaign) (now : Z)
  (entropy : string) (g : Guard) :
  let r := fst (verifyRedemption request campaign now entropy g) in
  let g' := snd (verifyRedemption request campaign now entropy g) in
  let swept := cleanupExpiredSessions now g in
  usedSessionIds g' =
    (if success r then <[sessionId request := now]> (usedSessionIds swept)
     else usedSessionIds swept) /\
  recentRedemptions g' =
    (if success r then <[userCampaignKey request := now]> (recentRedemptions swept)
     else recentRedemptions swept) /\
  (if success r then True
   else usedSessionIds g' ⊆ usedSessionIds g /\
        recentRedemptions g' ⊆ recentRedemptions g).
Proof.
  cbv zeta. unfold Verification.verifyRedemption. fold (userCampaignKey request).
  pose proof (cleanup_subseteq now g) as [S1 S2].
  destruct (usedSessionIds (cleanupExpiredSessions now g) !! sessionId request);
    [cbn; auto|].
  match goal with
  | |- context [if ?b then (mkVerificationResult false _ _ _ _ (Some []) 0, _) else _] =>
      destruct b
  end; [cbn; auto|].
  match goal with |- context [if negb ?b then _ else _] => destruct b end;
    cbn [negb]; [|cbn; auto].
  destruct (70 <=? _); cbn; auto.
Qed.

(** C2. The risk score of [analyzeTelemetry] is the sum of the increments
    of the flags it raised, clamped to 100, and lies in [0, 100]; so does the
    risk score of every result of [verifyRedemption]. *)
Theorem riskScore_within_0_100
  (request : VerificationRequest) (campaign : Campaign) (user : string)
  (telemetry0 : list GPSTelemetry) (now : Z) (entropy : string) (g : Guard) :
  let a := analyzeTelemetry telemetry0 campaign user now in
  let r := fst (verifyRedemption request campaign now entropy g) in
  analysisRisk a = Z.min (sumIncrements (flags a)) 100 /\
  0 <= analysisRisk a <= 100 /\
  0 <= riskScore r <= 100.
Proof.
  cbv zeta.
  destruct (analyzeTelemetry_riskScore NumberToString Math_sin Math_cos Math_sqrt
              Math_atan2 telemetry0 campaign user now) as [E B].
  split; [exact E | split; [exact B|]].
  unfold Verification.verifyRedemption.
  destruct (usedSessionIds (cleanupExpiredSessions now g) !! sessionId request);
    [cbn; lia|].
  match goal with
  | |- context [if ?b then (mkVerificationResult false _ _ _ _ (Some []) 0, _) else _] =>
      destruct b
  end; [cbn; lia|].
  match goal with |- context [if negb ?b then _ else _] => destruct b end;
    cbn [negb]; [|cbn; lia].
  destruct (analyzeTelemetry_riskScore NumberToString Math_sin Math_cos Math_sqrt
              Math_atan2 (telemetry request) campaign (userId request) now) as [_ B'].
  destruct (70 <=? _); cbn [fst riskScore]; exact B'.
Qed.

(** C5 (as amended). With fewer than two samples [analyzeTelemetry]
    returns at once: risk score 40 and the single GPS_SPOOF flag
    "possible single-point spoof", of severity HIGH, whatever the campaign,
    the clock and the samples are. *)
Theorem analyzeTelemetry_insufficient_data
  (telemetry0 : list GPSTelemetry) (campaign : Campaign) (user : string) (now : Z) :
  (List.length telemetry0 < 2)%nat ->
  analyzeTelemetry telemetry0 campaign user now =
    mkAnalysis
      [mkFraudFlag GPS_SPOOF HIGH
         "Insufficient telemetry data - possible single-point spoof" None]
      40.
Proof.
  intros H. unfold Verification.analyzeTelemetry.
  assert ((List.length telemetry0 <? 2)%nat = true) as -> by (apply Nat.ltb_lt; exact H).
  reflexivity.
Qed.

End OrchestratorFacts.

(** C5, counterexample. The flag raised for a single sample has severity
    HIGH, not CRITICAL. *)
Lemma analyzeTelemetry_single_sample_flag_is_HIGH :
  exists f,
    flags (analyzeTelemetry noText noNumber noNumber noNumber (fun _ => noNumber)
             (oneSample 1700000000000) javaHouse "u_1" 1700000000000) = [f] /\
    type f = GPS_SPOOF /\ severity f = HIGH /\ severity f <> CRITICAL.
Proof.
  eexists. split; [reflexivity|]. cbn. repeat split. discriminate.
Qed.

Lemma analyzeTelemetry_insufficient_data_witness :
  analyzeTelemetry noText noNumber noNumber noNumber (fun _ => noNumber)
    (oneSample 1700000000000) javaHouse "u_1" 1700000000000 =
  mkAnalysis
    [mkFraudFlag GPS_SPOOF HIGH
       "Insufficient telemetry data - possible single-point spoof" None]
    40.
Proof.
  apply (analyzeTelemetry_insufficient_data noText noNumber noNumber noNumber
           (fun _ => noNumber)).
  cbn. lia.
Defined.

(** C1, counterexample. A session recorded 25 hours ago is forgotten by
    the sweep, and the same session identifier is accepted again. *)
Lemma replay_after_retention_accepted :
  let t1 := 1700000000000 in
  let t2 := t1 + 25 * 60 * 60 * 1000 in
  let g0 := mkGuard ∅ ∅ t1 in
  let first := sampleVerify (sampleRequest "sess_1" t1) t1 g0 in
  let second := sampleVerify (sampleRequest "sess_1" t2) t2 (snd first) in
  success (fst first) = true /\
  usedSessionIds (snd first) !! "sess_1"%string = Some t1 /\
  success (fst second) = true /\
  riskScore (fst second) = 40.
Proof. vm_compute. repeat split; reflexivity. Qed.

(** C4, counterexample. A user who redeemed the campaign a moment ago
    calls again under a session identifier other than their own, one that a
    second user has used in between: the replay test comes first and the
    call is answered with risk score 100 and a flag, not with the
    rate-limit result. *)
Lemma rate_limited_pair_with_used_session_is_replay :
  let t := 1700000000000 in
  let g0 := mkGuard ∅ ∅ t in
  let g1 := snd (sampleVerify (requestOf "u_1" "sess_1" t) t g0) in
  let g2 := snd (sampleVerify (requestOf "u_2" "sess_2" (t + 1000)) (t + 1000) g1) in
  let third := fst (sampleVerify (requestOf "u_1" "sess_2" (t + 2000)) (t + 2000) g2) in
  recentRedemptions g2 !! "u_1-c_1"%string = Some t /\
  usedSessionIds g2 !! "sess_1"%string = Some t /\
  third = replayRejection /\
  riskScore third = 100 /\ fraudFlags third <> Some [].
Proof. vm_compute. repeat split; try reflexivity. discriminate. Qed.

Section QRFacts.
Variable TOTP_SECRET : string.
Variable NumberToString : JSNumber -> string.
Variable StringToNumber : string -> JSNumber.
Variable JSON_parse : string -> Completion JSON.
Variable base64_decode : string -> string.

Local Abbreviation verifyQRPayload :=
  (verifyQRPayload TOTP_SECRET NumberToString StringToNumber JSON_parse base64_decode).
Local Abbreviation verifyQRPayload_try :=
  (verifyQRPayload_try TOTP_SECRET NumberToString StringToNumber JSON_parse base64_decode).
Local Abbreviation ToStringValue := (ToStringValue NumberToString).
Local Abbreviation ToNumberValue := (ToNumberValue NumberToString StringToNumber).
Local Abbreviation verifyTOTP := (verifyTOTP TOTP_SECRET).

(** C6. [verifyQRPayload] never throws: it answers with the malformed,
    expired or invalid-code failure or with the three ids.  Every exception
    of the [try] block, a parse failure in particular, gives the malformed
    failure; a payload whose [exp] lies before the clock gives the expired
    failure; otherwise the code is checked against the secret rebuilt from
    the ids, giving the invalid-code failure or the ids of the payload. *)
Theorem verifyQRPayload_outcomes (encodedPayload : string) (now : Z) :
  let r := verifyQRPayload encodedPayload now in
  (* the caller always receives a result, of one of four shapes *)
  (r = qrMalformed \/ r = qrExpired \/ r = qrInvalidCode \/
   exists rid uid cid, r = qrValid rid uid cid) /\
  (* whatever is thrown inside the [try] block becomes the malformed result *)
  (forall e, verifyQRPayload_try encodedPayload now = Throw e -> r = qrMalformed) /\
  (forall e, JSON_parse (base64_decode encodedPayload) = Throw e -> r = qrMalformed) /\
  (JSON_parse (base64_decode encodedPayload) = Return JNull -> r = qrMalformed) /\
  (forall props,
     JSON_parse (base64_decode encodedPayload) = Return (JObject props) ->
     (* past the expiry *)
     (forall exp, assoc "exp" props = Some (JNumber (Finite exp)) ->
                  (exp < inject_Z now)%Q -> r = qrExpired) /\
     (forall expN rid uid cid,
        ToNumberValue (assoc "exp" props) = Return expN ->
        gtNumber now expN = false ->
        ToStringValue (assoc "rid" props) = Return rid ->
        ToStringValue (assoc "uid" props) = Return uid ->
        ToStringValue (assoc "cid" props) = Return cid ->
        r = if codeVerifies TOTP_SECRET props rid uid cid now
            then qrValid (assoc "rid" props) (assoc "uid" props) (assoc "cid" props)
            else qrInvalidCode)).
Proof.
  cbv zeta. split; [|split; [|split; [|split]]].
  - unfold Verification.verifyQRPayload, Verification.verifyQRPayload_try.
    destruct (JSON_parse _) as [payload|]; cbn [bindC]; [|now left].
    destruct (getProp payload "exp") as [exp|]; cbn [bindC]; [|now left].
    destruct (Verification.ToNumberValue _ _ exp) as [n|]; cbn [bindC]; [|now left].
    destruct (gtNumber now n); [right; now left|].
    destruct (getProp payload "rid") as [rid|]; cbn [bindC]; [|now left].
    destruct (Verification.ToStringValue _ rid); cbn [bindC]; [|now left].
    destruct (getProp payload "uid") as [uid|]; cbn [bindC]; [|now left].
    destruct (Verification.ToStringValue _ uid); cbn [bindC]; [|now left].
    destruct (getProp payload "cid") as [cid|]; cbn [bindC]; [|now left].
    destruct (Verification.ToStringValue _ cid); cbn [bindC]; [|now left].
    destruct (getProp payload "code") as [code|]; cbn [bindC]; [|now left].
    match goal with |- context [if negb ?b then _ else _] => destruct b end;
      cbn [negb]; [|right; right; now left].
    right; right; right. now exists rid, uid, cid.
  - intros e H. unfold Verification.verifyQRPayload. now rewrite H.
  - intros e H. unfold Verification.verifyQRPayload, Verification.verifyQRPayload_try.
    now rewrite H.
  - intros H. unfold Verification.verifyQRPayload, Verification.verifyQRPayload_try.
    now rewrite H.
  - intros props Hparse. split.
    + intros exp Hexp Hlt. unfold Verification.verifyQRPayload, Verification.verifyQRPayload_try.
      rewrite Hparse. cbn [bindC getProp]. rewrite Hexp. cbn [Verification.ToNumberValue bindC gtNumber].
      assert (Qlt_bool exp (inject_Z now) = true) as ->; [|reflexivity].
      unfold Qlt_bool. apply negb_true_iff.
      destruct (Qle_bool (inject_Z now) exp) eqn:E; [|reflexivity].
      apply Qle_bool_iff in E. exfalso. apply (Qlt_not_le _ _ Hlt E).
    + intros expN rid uid cid Hexp Hgt Hrid Huid Hcid.
      unfold Verification.verifyQRPayload, Verification.verifyQRPayload_try.
      rewrite Hparse. cbn [bindC getProp]. rewrite Hexp. cbn [bindC]. rewrite Hgt.
      rewrite Hrid. cbn [bindC]. rewrite Huid. cbn [bindC]. rewrite Hcid. cbn [bindC].
      unfold codeVerifies.
      destruct (assoc "code" props) as [[| | |c| |]|]; cbn [negb]; try reflexivity.
      destruct (Verification.verifyTOTP _ c _ 1 now); reflexivity.
Qed.

End QRFacts.

(** ** Structure of the geohash encoding *)

Lemma encode_step_chosen (la lo : Q) (b : DecState) (h : string) (bit ch : Z) :
  encode_step la lo (enc_of b h bit ch) =
    if bit + 1 =? 5
    then enc_of (next_cell la lo b)
           (append_base32 h (addbit (chosen la lo b) bit ch)) 0 0
    else enc_of (next_cell la lo b) h (bit + 1) (addbit (chosen la lo b) bit ch).
Proof.
  destruct b as [a1 a2 o1 o2 l].
  unfold encode_step, next_cell, chosen, enc_of, refine, addbit.
  cbn [e_isLng e_minLat e_maxLat e_minLng e_maxLng e_hash e_bit e_ch
       d_isLng d_minLat d_maxLat d_minLng d_maxLng].
  destruct l; destruct (Qle_bool _ _);
    cbn [e_isLng e_minLat e_maxLat e_minLng e_maxLng e_hash e_bit e_ch negb];
    destruct (bit + 1 =? 5); reflexivity.
Qed.

Lemma char_index_spec (la lo : Q) (b : DecState) :
  0 <= char_index la lo b < 32 /\
  decode_bits 5 (char_index la lo b) b = char_cell la lo b.
Proof.
  unfold char_index, char_cell, Nat.iter, nat_rect, next_cell. cbv zeta.
  unfold decode_bits. rewrite !decode_bit_refine.
  generalize (chosen la lo b). intros v0.
  generalize (chosen la lo (refine v0 b)). intros v1.
  generalize (chosen la lo (refine v1 (refine v0 b))). intros v2.
  generalize (chosen la lo (refine v2 (refine v1 (refine v0 b)))). intros v3.
  generalize (chosen la lo (refine v3 (refine v2 (refine v1 (refine v0 b))))). intros v4.
  destruct v0, v1, v2, v3, v4; (split; [vm_compute; split; congruence | reflexivity]).
Qed.

(** Five iterations from a character boundary, with and without the loop
    test. *)
Lemma five_steps (la lo : Q) (b : DecState) (h : string) :
  Nat.iter 5 (encode_step la lo) (enc_of b h 0 0) =
    enc_of (char_cell la lo b) (append_base32 h (char_index la lo b)) 0 0 /\
  forall fuel p, strlen h < p ->
    encode_loop (5 + fuel) la lo p (enc_of b h 0 0) =
    encode_loop fuel la lo p
      (enc_of (char_cell la lo b) (append_base32 h (char_index la lo b)) 0 0).
Proof.
  pose proof (encode_step_chosen la lo b h 0 0) as E0.
  pose proof (encode_step_chosen la lo (next_cell la lo b) h 1
                (addbit (chosen la lo b) 0 0)) as E1.
  pose proof (encode_step_chosen la lo (next_cell la lo (next_cell la lo b)) h 2
                (addbit (chosen la lo (next_cell la lo b)) 1
                   (addbit (chosen la lo b) 0 0))) as E2.
  pose proof (encode_step_chosen la lo
                (next_cell la lo (next_cell la lo (next_cell la lo b))) h 3
                (addbit (chosen la lo (next_cell la lo (next_cell la lo b))) 2
                   (addbit (chosen la lo (next_cell la lo b)) 1
                      (addbit (chosen la lo b) 0 0)))) as E3.
  pose proof (encode_step_chosen la lo
                (next_cell la lo (next_cell la lo (next_cell la lo (next_cell la lo b))))
                h 4
                (addbit (chosen la lo
                           (next_cell la lo (next_cell la lo (next_cell la lo b)))) 3
                   (addbit (chosen la lo (next_cell la lo (next_cell la lo b))) 2
                      (addbit (chosen la lo (next_cell la lo b)) 1
                         (addbit (chosen la lo b) 0 0))))) as E4.
  change (0 + 1 =? 5) with false in E0. change (1 + 1 =? 5) with false in E1.
  change (2 + 1 =? 5) with false in E2. change (3 + 1 =? 5) with false in E3.
  change (4 + 1 =? 5) with true in E4. cbv iota in E0, E1, E2, E3, E4.
  change (0 + 1) with 1 in E0. change (1 + 1) with 2 in E1.
  change (2 + 1) with 3 in E2. change (3 + 1) with 4 in E3.
  split.
  - unfold Nat.iter, nat_rect. rewrite E0, E1, E2, E3, E4. reflexivity.
  - intros fuel p Hp.
    assert (T : (strlen h <? p) = true) by (apply Z.ltb_lt; exact Hp).
    change (5 + fuel)%nat with (S (S (S (S (S fuel))))).
    cbn [encode_loop].
    change (e_hash (enc_of b h 0 0)) with h. rewrite T, E0.
    do 4 (match goal with |- context [e_hash (enc_of ?x h ?y ?z)] =>
            change (e_hash (enc_of x h y z)) with h end;
          rewrite T; first [rewrite E1 | rewrite E2 | rewrite E3 | rewrite E4]).
    reflexivity.
Qed.

Lemma append_base32_split (h : string) (c : Z) :
  append_base32 h c = h +:+ append_base32 "" c.
Proof. unfold append_base32. destruct (charAt BASE32 c); reflexivity. Qed.

Lemma append_base32_char (c : Z) :
  0 <= c < 32 ->
  exists a, append_base32 "" c = String a "" /\ In a alphabet /\
            indexOf BASE32 a = c /\ lowerChar a = a.
Proof.
  intros Hc. destruct (base32_index c Hc) as (a & Hget & Hidx & Hlow).
  exists a. unfold append_base32. rewrite Hget.
  split; [reflexivity | split; [| split; assumption]].
  destruct (in_dec ascii_dec a alphabet) as [Hin|Hn]; [exact Hin|].
  apply indexOf_absent in Hn. lia.
Qed.

Lemma encode_loop_text (la lo : Q) (p : Z) (n : nat) :
  forall (b : DecState) (h : string),
    strlen h + Z.of_nat n = p ->
    encode_loop (5 * n) la lo p (enc_of b h 0 0) =
    enc_of (cell_after n la lo b) (h +:+ text_after n la lo b) 0 0.
Proof.
  induction n as [|n IH]; intros b h Hlen.
  - cbn [text_after cell_after]. rewrite append_nil_r. reflexivity.
  - destruct (five_steps la lo b h) as [_ Hloop].
    replace (5 * S n)%nat with (5 + 5 * n)%nat by lia.
    rewrite (Hloop (5 * n)%nat p) by lia.
    destruct (char_index_spec la lo b) as [Hc _].
    destruct (append_base32_char _ Hc) as (a & Ha & _).
    rewrite IH.
    + cbn [text_after cell_after].
      now rewrite (append_base32_split h), append_assoc.
    + rewrite (append_base32_split h), Ha, strlen_append.
      unfold strlen at 2. cbn [String.length]. lia.
Qed.

Lemma encodeGeohash_text (la lo : Q) (p : Z) :
  encodeGeohash la lo p = text_after (Z.to_nat p) la lo dec_init.
Proof.
  unfold encodeGeohash. change enc_init with (enc_of dec_init "" 0 0).
  destruct (Z.le_gt_cases 0 p) as [Hp|Hp].
  - rewrite encode_loop_text by (unfold strlen; cbn [String.length]; lia).
    reflexivity.
  - replace (Z.to_nat p) with 0%nat by lia. reflexivity.
Qed.

Lemma text_after_spec (la lo : Q) (n : nat) :
  forall b,
    String.length (text_after n la lo b) = n /\
    List.Forall (fun c => In c alphabet) (chars (text_after n la lo b)) /\
    toLowerCase (text_after n la lo b) = text_after n la lo b /\
    decode_chars (text_after n la lo b) b = Return (cell_after n la lo b).
Proof.
  induction n as [|n IH]; intros b; cbn [text_after cell_after].
  - repeat split. constructor.
  - destruct (char_index_spec la lo b) as [Hc Hd].
    destruct (append_base32_char _ Hc) as (a & Ha & Hin & Hidx & Hlow).
    destruct (IH (char_cell la lo b)) as (L & F & Lw & D).
    rewrite Ha, append_cons. change ("" +:+ ?x) with x.
    split; [cbn [String.length]; now rewrite L|].
    split; [unfold chars; cbn [list_ascii_of_string]; now constructor|].
    split; [cbn [toLowerCase]; now rewrite Hlow, Lw|].
    cbn [decode_chars]. rewrite Hidx.
    assert ((char_index la lo b =? -1) = false) as -> by lia.
    rewrite Hd. exact D.
Qed.

Lemma encodeGeohash_shape (la lo : Q) (p : Z) :
  strlen (encodeGeohash la lo p) = Z.max 0 p /\
  List.Forall (fun c => In c alphabet) (chars (encodeGeohash la lo p)).
Proof.
  rewrite encodeGeohash_text.
  destruct (text_after_spec la lo (Z.to_nat p) dec_init) as (L & F & _).
  unfold strlen. rewrite L. split; [lia | exact F].
Qed.

(** X1. [encodeGeohash] is total: whatever the coordinate, the hash has
    exactly [precision] characters (none for a negative precision), all of
    the base-32 alphabet. *)
Theorem encodeGeohash_length_alphabet (la lo : Q) (p : Z) :
  strlen (encodeGeohash la lo p) = Z.max 0 p /\
  List.Forall (fun c => In c alphabet) (chars (encodeGeohash la lo p)).
Proof. exact (encodeGeohash_shape la lo p). Qed.

Lemma text_after_add (la lo : Q) (n k : nat) :
  forall b,
    text_after (n + k) la lo b =
    text_after n la lo b +:+ text_after k la lo (cell_after n la lo b).
Proof.
  induction n as [|n IH]; intros b; [reflexivity|].
  cbn [Nat.add text_after cell_after]. now rewrite IH, append_assoc.
Qed.

(** X2. A hash of lower precision is a prefix of the hash of the same point
    at any higher precision. *)
Theorem encodeGeohash_prefix (la lo : Q) (p q : Z) :
  p <= q ->
  exists suffix, encodeGeohash la lo q = encodeGeohash la lo p +:+ suffix.
Proof.
  intros Hpq. rewrite !encodeGeohash_text.
  replace (Z.to_nat q) with (Z.to_nat p + (Z.to_nat q - Z.to_nat p))%nat by lia.
  rewrite text_after_add. eexists. reflexivity.
Qed.

Ltac qhalf := unfold Qdiv in *; change (/ 2)%Q with (1 # 2)%Q in *.

Lemma proper_refine (u : bool) (b : DecState) : proper b -> proper (refine u b).
Proof.
  unfold proper, refine. intros [H1 H2].
  destruct (d_isLng b), u;
    cbn [d_minLat d_maxLat d_minLng d_maxLng]; split; try assumption; qhalf; lra.
Qed.

Lemma Qle_bool_false (x y : Q) : Qle_bool x y = false <-> (y < x)%Q.
Proof.
  split.
  - intros E. apply Qnot_le_lt. rewrite <- Qle_bool_iff. congruence.
  - intros H. destruct (Qle_bool x y) eqn:E; [|reflexivity].
    apply Qle_bool_iff in E. exfalso. apply (Qlt_not_le _ _ H E).
Qed.

(** A point strictly inside a half lies strictly inside the cell, and that
    half is the one the encoder picks. *)
Lemma strictly_inside_refine (la lo : Q) (u : bool) (b : DecState) :
  proper b -> strictly_inside la lo (refine u b) ->
  strictly_inside la lo b /\ chosen la lo b = u.
Proof.
  unfold proper, strictly_inside, refine, chosen. intros [P1 P2].
  destruct (d_isLng b), u;
    cbn [d_minLat d_maxLat d_minLng d_maxLng]; intros (H1 & H2 & H3 & H4).
  - split; [repeat split; try assumption; qhalf; lra|].
    apply Qle_bool_iff. apply Qlt_le_weak. exact H3.
  - split; [repeat split; try assumption; qhalf; lra|].
    apply Qle_bool_false. exact H4.
  - split; [repeat split; try assumption; qhalf; lra|].
    apply Qle_bool_iff. apply Qlt_le_weak. exact H1.
  - split; [repeat split; try assumption; qhalf; lra|].
    apply Qle_bool_false. exact H2.
Qed.

Lemma addbit_bits (idx : Z) :
  0 <= idx < 32 ->
  addbit (Z.land (Z.shiftr idx 0) 1 =? 1) 4
    (addbit (Z.land (Z.shiftr idx 1) 1 =? 1) 3
       (addbit (Z.land (Z.shiftr idx 2) 1 =? 1) 2
          (addbit (Z.land (Z.shiftr idx 3) 1 =? 1) 1
             (addbit (Z.land (Z.shiftr idx 4) 1 =? 1) 0 0)))) = idx.
Proof.
  intros H. pattern idx. apply small_cases; [exact H|..]; vm_compute; reflexivity.
Qed.

Lemma proper_decode_bits (idx : Z) (b : DecState) :
  proper b -> proper (decode_bits 5 idx b).
Proof.
  intros H. unfold decode_bits. rewrite !decode_bit_refine.
  now do 5 apply proper_refine.
Qed.

(** When the point lies strictly inside the cell that the five bits of
    [idx] select, the encoder emits exactly [idx]. *)
Lemma char_of_strictly_inside (la lo : Q) (idx : Z) (b : DecState) :
  0 <= idx < 32 -> proper b ->
  strictly_inside la lo (decode_bits 5 idx b) ->
  strictly_inside la lo b /\
  char_cell la lo b = decode_bits 5 idx b /\ char_index la lo b = idx.
Proof.
  intros Hidx P S5. unfold decode_bits in *. rewrite !decode_bit_refine in *.
  change (Z.of_nat 4) with 4 in *. change (Z.of_nat 3) with 3 in *.
  change (Z.of_nat 2) with 2 in *. change (Z.of_nat 1) with 1 in *.
  change (Z.of_nat 0) with 0 in *.
  pose proof (addbit_bits idx Hidx) as A. revert A S5.
  generalize (Z.land (Z.shiftr idx 4) 1 =? 1). intros u0.
  generalize (Z.land (Z.shiftr idx 3) 1 =? 1). intros u1.
  generalize (Z.land (Z.shiftr idx 2) 1 =? 1). intros u2.
  generalize (Z.land (Z.shiftr idx 1) 1 =? 1). intros u3.
  generalize (Z.land (Z.shiftr idx 0) 1 =? 1). intros u4 A S5.
  pose proof (proper_refine u0 b P) as P1.
  pose proof (proper_refine u1 _ P1) as P2.
  pose proof (proper_refine u2 _ P2) as P3.
  pose proof (proper_refine u3 _ P3) as P4.
  destruct (strictly_inside_refine la lo u4 _ P4 S5) as [S4 C4].
  destruct (strictly_inside_refine la lo u3 _ P3 S4) as [S3 C3].
  destruct (strictly_inside_refine la lo u2 _ P2 S3) as [S2 C2].
  destruct (strictly_inside_refine la lo u1 _ P1 S2) as [S1 C1].
  destruct (strictly_inside_refine la lo u0 _ P S1) as [S0 C0].
  split; [exact S0|].
  unfold char_cell, char_index, Nat.iter, nat_rect, next_cell. cbv zeta.
  rewrite C0, C1, C2, C3, C4. split; [reflexivity | exact A].
Qed.

Lemma indexOf_from_charAt (s : string) (c : ascii) :
  forall i k, indexOf_from s c k = i -> i <> -1 -> 0 <= k ->
    k <= i < k + strlen s /\ String.get (Z.to_nat (i - k)) s = Some c.
Proof.
  induction s as [|d s IH]; intros i k H Hn Hk; cbn [indexOf_from] in H.
  - congruence.
  - destruct (Ascii.eqb_spec d c) as [->|Hne].
    + subst i. replace (k - k) with 0 by lia.
      unfold strlen. cbn [String.length String.get Z.to_nat]. split; [lia | reflexivity].
    + destruct (IH i (k + 1) H Hn ltac:(lia)) as [Hr Hg].
      unfold strlen in *. cbn [String.length]. split; [lia|].
      replace (Z.to_nat (i - k)) with (S (Z.to_nat (i - (k + 1)))) by lia.
      exact Hg.
Qed.

Lemma indexOf_char (c : ascii) :
  indexOf BASE32 c <> -1 ->
  0 <= indexOf BASE32 c < 32 /\ append_base32 "" (indexOf BASE32 c) = String c "".
Proof.
  intros Hn. unfold indexOf in *.
  destruct (indexOf_from_charAt BASE32 c _ 0 eq_refl Hn ltac:(lia)) as [Hr Hg].
  change (strlen BASE32) with 32 in Hr. split; [lia|].
  unfold append_base32, charAt.
  assert ((indexOf_from BASE32 c 0 <? 0) = false) as -> by lia.
  replace (indexOf_from BASE32 c 0 - 0) with (indexOf_from BASE32 c 0) in Hg by lia.
  now rewrite Hg.
Qed.

Lemma decode_chars_nested (la lo : Q) (w : string) :
  forall b bf, proper b -> decode_chars w b = Return bf ->
    proper bf /\
    (strictly_inside la lo bf ->
     strictly_inside la lo b /\
     text_after (String.length w) la lo b = w /\
     cell_after (String.length w) la lo b = bf).
Proof.
  induction w as [|c w IH]; intros b bf P D; cbn [decode_chars] in D.
  - injection D as <-. split; [exact P|]. intros S.
    split; [exact S | split; reflexivity].
  - destruct (indexOf BASE32 c =? -1) eqn:E; [discriminate|].
    apply Z.eqb_neq in E. destruct (indexOf_char c E) as [Hr Hc].
    destruct (IH _ _ (proper_decode_bits (indexOf BASE32 c) b P) D) as [Pf Hn].
    split; [exact Pf|]. intros S.
    destruct (Hn S) as (S1 & T & C).
    destruct (char_of_strictly_inside la lo _ b Hr P S1) as (S0 & Hcell & Hidx).
    split; [exact S0|].
    cbn [String.length text_after cell_after]. rewrite Hcell, Hidx, Hc, T, C.
    split; reflexivity.
Qed.

Lemma toLowerCase_length (s : string) :
  String.length (toLowerCase s) = String.length s.
Proof. induction s as [|c s IH]; cbn [toLowerCase String.length]; congruence. Qed.

(** X3. For a hash of at most 18 characters (the lengths at which the
    double arithmetic of the code is exact), decoding it and encoding the
    centre of its cell at the length of the hash gives the hash back, in
    lower case. *)
Theorem encodeGeohash_decodeGeohash (h : string) (d : Decoded) :
  strlen h <= 18 ->
  decodeGeohash h = Return d ->
  encodeGeohash (lat d) (lng d) (strlen h) = toLowerCase h.
Proof.
  unfold decodeGeohash. intros _ H.
  destruct (decode_chars (toLowerCase h) dec_init) as [bf|] eqn:D; [|discriminate].
  cbn [bindC] in H. injection H as <-. cbn [lat lng].
  assert (P0 : proper dec_init) by (unfold proper; cbn; split; reflexivity).
  destruct (decode_chars_nested ((d_minLat bf + d_maxLat bf) / 2)
              ((d_minLng bf + d_maxLng bf) / 2) _ _ _ P0 D) as [[P1 P2] Hn].
  destruct Hn as (_ & T & _).
  { unfold strictly_inside. repeat split; qhalf; lra. }
  rewrite encodeGeohash_text. unfold strlen. rewrite Nat2Z.id.
  rewrite <- (toLowerCase_length h). exact T.
Qed.

Lemma includes_In (l : list string) (x : string) : includes l x = true <-> In x l.
Proof.
  unfold includes. rewrite existsb_exists. split.
  - intros (y & Hy & E). apply String.eqb_eq in E. now subst.
  - intros H. exists x. split; [exact H | apply String.eqb_refl].
Qed.

Lemma neighbor_step_ok (hash : string) (d : Decoded) (dLat dLng : Z) (l : list string) :
  neighbors_ok hash l ->
  neighbors_ok hash (neighbor_step hash d (strlen hash) dLat dLng l) /\
  (List.length (neighbor_step hash d (strlen hash) dLat dLng l) <= S (List.length l))%nat /\
  (dLat = 0 -> dLng = 0 -> neighbor_step hash d (strlen hash) dLat dLng l = l).
Proof.
  intros (ND & NI & F). unfold neighbor_step.
  destruct ((dLat =? 0) && (dLng =? 0)) eqn:Z0.
  - split; [repeat split; assumption | split; [lia | reflexivity]].
  - set (n := encodeGeohash _ _ _).
    assert (Hz : ~ (dLat = 0 /\ dLng = 0)).
    { intros [-> ->]. discriminate. }
    destruct (includes l n) eqn:I; cbn [negb andb].
    + split; [repeat split; assumption | split; [lia | tauto]].
    + destruct (String.eqb_spec n hash) as [E|E]; cbn [negb].
      * split; [repeat split; assumption | split; [lia | tauto]].
      * split; [|split; [rewrite List.length_app; cbn; lia | tauto]].
        assert (Hn : ~ In n l) by (rewrite <- includes_In; congruence).
        split; [|split].
        -- apply List.NoDup_app; [exact ND | repeat constructor; intros [] |].
           intros x Hx [->|[]]. exact (Hn Hx).
        -- rewrite in_app_iff. intros [H|[H|[]]]; [tauto | congruence].
        -- apply List.Forall_app. split; [exact F|]. constructor; [|constructor].
           subst n. exact (encodeGeohash_shape _ _ _).
Qed.

Lemma neighbors_fold_ok (hash : string) (d : Decoded) :
  let l := fold_left
             (fun neighbors dLat =>
                fold_left (fun neighbors dLng =>
                             neighbor_step hash d (strlen hash) dLat dLng neighbors)
                          [-2; 0; 2] neighbors)
             [-2; 0; 2] [] in
  neighbors_ok hash l /\ (List.length l <= 8)%nat.
Proof.
  cbv zeta. cbn [fold_left].
  assert (H0 : neighbors_ok hash []).
  { split; [constructor | split; [intros [] | constructor]]. }
  repeat match goal with
         | |- context [neighbor_step hash d (strlen hash) ?a ?b ?l] =>
             lazymatch l with
             | context [neighbor_step] => fail
             | _ =>
                 let H := fresh "H" in
                 let L := fresh "L" in
                 let Z := fresh "Z" in
                 destruct (neighbor_step_ok hash d a b l ltac:(assumption)) as (H & L & Z);
                 try (rewrite (Z eq_refl eq_refl) in *);
                 generalize dependent (neighbor_step hash d (strlen hash) a b l);
                 intros
             end
         end.
  split; [assumption | cbn [List.length] in *; lia].
Qed.

Lemma getNeighbors_ok (hash : string) :
  match decodeGeohash hash with
  | Throw e => getNeighbors hash = Throw e
  | Return _ =>
      exists l, getNeighbors hash = Return l /\
                List.NoDup l /\ ~ In hash l /\ (List.length l <= 8)%nat /\
                List.Forall (geohash_of_length (strlen hash)) l
  end.
Proof.
  unfold getNeighbors. destruct (decodeGeohash hash) as [d|e]; cbn [bindC]; [|reflexivity].
  destruct (neighbors_fold_ok hash d) as ((ND & NI & F) & L).
  eexists. split; [reflexivity|].
  replace (Z.max 0 (strlen hash)) with (strlen hash) in F by (unfold strlen; lia).
  repeat split; assumption.
Qed.

(** X5. [getNeighbors] passes on the exception of [decodeGeohash]; for a
    valid hash it returns at most eight geohashes, pairwise distinct, all of
    the length of the input, and never the input itself. *)
Theorem getNeighbors_spec (hash : string) :
  match decodeGeohash hash with
  | Throw e => getNeighbors hash = Throw e
  | Return _ =>
      exists l, getNeighbors hash = Return l /\
                List.NoDup l /\ ~ In hash l /\ (List.length l <= 8)%nat /\
                List.Forall (geohash_of_length (strlen hash)) l
  end.
Proof. exact (getNeighbors_ok hash). Qed.

Lemma Qlt_bool_iff (x y : Q) : Qlt_bool x y = true <-> (x < y)%Q.
Proof.
  unfold Qlt_bool. rewrite negb_true_iff. apply Qle_bool_false.
Qed.

Lemma decodeGeohash_encodeGeohash_Return (la lo : Q) (p : Z) :
  exists d, decodeGeohash (encodeGeohash la lo p) = Return d.
Proof.
  apply decodeGeohash_outcome, Forall_lower.
  rewrite encodeGeohash_text.
  destruct (text_after_spec la lo (Z.to_nat p) dec_init) as (_ & F & -> & _).
  exact F.
Qed.

(** X6. [getGeohashesForRadius] never throws.  It picks precision 4 above
    5000 m, 5 above 1000 m, 6 above 200 m and 7 otherwise, and returns the
    hash of the point at that precision followed by at most eight further
    hashes of that precision, all pairwise distinct. *)
Theorem getGeohashesForRadius_spec (la lo radiusMeters : Q) :
  exists p l,
    getGeohashesForRadius la lo radiusMeters = Return (encodeGeohash la lo p :: l) /\
    (((5000 < radiusMeters)%Q /\ p = 4) \/
     ((1000 < radiusMeters <= 5000)%Q /\ p = 5) \/
     ((200 < radiusMeters <= 1000)%Q /\ p = 6) \/
     ((radiusMeters <= 200)%Q /\ p = 7)) /\
    List.NoDup (encodeGeohash la lo p :: l) /\
    (List.length l <= 8)%nat /\
    List.Forall (geohash_of_length p) (encodeGeohash la lo p :: l).
Proof.
  unfold getGeohashesForRadius.
  set (p := if Qlt_bool 5000 radiusMeters then 4 else _).
  assert (Hp : ((5000 < radiusMeters)%Q /\ p = 4) \/
               ((1000 < radiusMeters <= 5000)%Q /\ p = 5) \/
               ((200 < radiusMeters <= 1000)%Q /\ p = 6) \/
               ((radiusMeters <= 200)%Q /\ p = 7)).
  { subst p.
    destruct (Qlt_bool 5000 radiusMeters) eqn:E1;
      [left; split; [now apply Qlt_bool_iff | reflexivity]|].
    assert (radiusMeters <= 5000)%Q
      by (apply Qnot_lt_le; rewrite <- Qlt_bool_iff; congruence).
    destruct (Qlt_bool 1000 radiusMeters) eqn:E2;
      [right; left; split; [split; [now apply Qlt_bool_iff | assumption] | reflexivity]|].
    assert (radiusMeters <= 1000)%Q
      by (apply Qnot_lt_le; rewrite <- Qlt_bool_iff; congruence).
    destruct (Qlt_bool 200 radiusMeters) eqn:E3;
      [right; right; left;
       split; [split; [now apply Qlt_bool_iff | assumption] | reflexivity]|].
    right; right; right. split; [|reflexivity].
    apply Qnot_lt_le; rewrite <- Qlt_bool_iff; congruence. }
  assert (P0 : 0 <= p) by (destruct Hp as [[_ ->]|[[_ ->]|[[_ ->]|[_ ->]]]]; lia).
  clearbody p.
  pose proof (getNeighbors_ok (encodeGeohash la lo p)) as N.
  destruct (decodeGeohash_encodeGeohash_Return la lo p) as (d & Hd).
  rewrite Hd in N. destruct N as (l & -> & ND & NI & L & F). cbn [bindC].
  destruct (encodeGeohash_shape la lo p) as [Len Al].
  rewrite Z.max_r in Len by lia. rewrite Len in F.
  exists p, l. split; [reflexivity|]. split; [exact Hp|].
  split; [now constructor|]. split; [exact L|].
  constructor; [split; assumption | exact F].
Qed.

Lemma half_even (k : nat) :
  (2 * k / 2 = k /\ (2 * k + 1) / 2 = k /\ S (2 * k) / 2 = k /\
   (S (2 * k) + 1) / 2 = S k /\ (2 * k + 1 + 1) / 2 = S k /\
   S (2 * k + 1) / 2 = S k /\ (S (2 * k + 1) + 1) / 2 = S k)%nat.
Proof.
  assert (A : forall a b, (b < 2)%nat -> ((2 * a + b) / 2 = a)%nat).
  { intros a b Hb. symmetry. apply (Nat.div_unique _ 2 a b); lia. }
  repeat split.
  - rewrite <- (A k 0%nat) at 2 by lia. f_equal. lia.
  - apply A. lia.
  - rewrite <- (A k 1%nat) at 2 by lia. f_equal. lia.
  - rewrite <- (A (S k) 0%nat) by lia. f_equal. lia.
  - rewrite <- (A (S k) 0%nat) by lia. f_equal. lia.
  - rewrite <- (A (S k) 0%nat) by lia. f_equal. lia.
  - rewrite <- (A (S k) 1%nat) by lia. f_equal. lia.
Qed.

Lemma pow2_S (k : nat) : (pow2 (S k) == 2 * pow2 k)%Q.
Proof.
  unfold pow2. rewrite Nat2Z.inj_succ, Z.pow_succ_r by lia.
  now rewrite inject_Z_mult.
Qed.

Lemma half_cases (m : nat) :
  (Nat.even m = true /\ (m + 1) / 2 = m / 2 /\ S m / 2 = m / 2 /\
   (S m + 1) / 2 = S (m / 2))%nat \/
  (Nat.even m = false /\ (m + 1) / 2 = S (m / 2) /\ S m / 2 = S (m / 2) /\
   (S m + 1) / 2 = S (m / 2))%nat.
Proof.
  destruct (Nat.even m) eqn:E.
  - left. apply Nat.even_spec in E. destruct E as [k ->].
    destruct (half_even k) as (-> & -> & -> & -> & _). repeat split; reflexivity.
  - right. assert (O : Nat.odd m = true) by (rewrite <- Nat.negb_even, E; reflexivity).
    apply Nat.odd_spec in O. destruct O as [k ->].
    destruct (half_even k) as (_ & -> & _ & _ & -> & -> & ->). repeat split; reflexivity.
Qed.

Lemma cell_size_refine (u : bool) (m : nat) (b : DecState) :
  cell_size m b -> cell_size (S m) (refine u b).
Proof.
  unfold cell_size. intros (I & La & Lo).
  rewrite Nat.even_succ, <- Nat.negb_even.
  destruct (half_cases m) as [(E & H1 & H2 & H3)|(E & H1 & H2 & H3)];
    rewrite E in *; rewrite H1 in *; rewrite H2, H3;
    unfold refine; rewrite I;
    destruct u; cbn [d_isLng d_minLat d_maxLat d_minLng d_maxLng negb].
  - split; [reflexivity | split; [exact La|]]. rewrite pow2_S, <- Lo. qhalf. ring.
  - split; [reflexivity | split; [exact La|]]. rewrite pow2_S, <- Lo. qhalf. ring.
  - split; [reflexivity | split; [|exact Lo]]. rewrite pow2_S, <- La. qhalf. ring.
  - split; [reflexivity | split; [|exact Lo]]. rewrite pow2_S, <- La. qhalf. ring.
Qed.

Lemma cell_size_decode_bits (idx : Z) (m : nat) (b : DecState) :
  cell_size m b -> cell_size (5 + m) (decode_bits 5 idx b).
Proof.
  intros H. unfold decode_bits. rewrite !decode_bit_refine.
  now do 5 apply cell_size_refine.
Qed.

Lemma cell_size_decode_chars (w : string) :
  forall m b bf, cell_size m b -> decode_chars w b = Return bf ->
                 cell_size (5 * String.length w + m) bf.
Proof.
  induction w as [|c w IH]; intros m b bf H D; cbn [decode_chars] in D.
  - injection D as <-. exact H.
  - destruct (indexOf BASE32 c =? -1); [discriminate|].
    apply (IH (5 + m)%nat) in D; [|now apply cell_size_decode_bits].
    cbn [String.length].
    replace (5 * S (String.length w) + m)%nat
      with (5 * String.length w + (5 + m))%nat by lia.
    exact D.
Qed.

(** X4. For a hash of [n <= 18] characters (the lengths at which the
    double arithmetic of the code is exact) the size of the decoded cell
    depends on [n] alone: the latitude error is 90 / 2^(5n div 2) and the
    longitude error is 180 / 2^((5n + 1) div 2). *)
Theorem decodeGeohash_cell_size (h : string) (d : Decoded) :
  strlen h <= 18 ->
  decodeGeohash h = Return d ->
  (latError d * inject_Z (2 ^ (5 * strlen h / 2)) == 90)%Q /\
  (lngError d * inject_Z (2 ^ ((5 * strlen h + 1) / 2)) == 180)%Q.
Proof.
  unfold decodeGeohash. intros _ H.
  destruct (decode_chars (toLowerCase h) dec_init) as [bf|] eqn:D; [|discriminate].
  cbn [bindC] in H. injection H as <-. cbn [latError lngError].
  assert (H0 : cell_size 0 dec_init).
  { unfold cell_size. split; [reflexivity|]. split; vm_compute; reflexivity. }
  pose proof (cell_size_decode_chars _ _ _ _ H0 D) as (_ & La & Lo).
  rewrite toLowerCase_length, Nat.add_0_r in La, Lo. unfold pow2 in La, Lo.
  unfold strlen.
  replace (5 * Z.of_nat (String.length h) / 2)
    with (Z.of_nat (5 * String.length h / 2))
    by (rewrite Nat2Z.inj_div; f_equal; lia).
  replace ((5 * Z.of_nat (String.length h) + 1) / 2)
    with (Z.of_nat ((5 * String.length h + 1) / 2))
    by (rewrite Nat2Z.inj_div; f_equal; lia).
  split; qhalf.
  - match type of La with (?w * ?p == _)%Q =>
      transitivity ((w * p) * (1 # 2))%Q; [ring | rewrite La; reflexivity] end.
  - match type of Lo with (?w * ?p == _)%Q =>
      transitivity ((w * p) * (1 # 2))%Q; [ring | rewrite Lo; reflexivity] end.
Qed.

Lemma binary64_scaled (x : Q) (p a : nat) (s : Z) :
  (x * pow2 a == inject_Z (45 * 2 ^ Z.of_nat p * s))%Q ->
  Z.abs s <= 2 ^ 47 -> (p <= 2)%nat -> (a <= 100)%nat -> binary64 x.
Proof.
  intros E S P A. exists (45 * s), p, a.
  split; [|split; [lia | split; [lia|]]].
  - change (2 ^ 47) with 140737488355328 in S.
    change (2 ^ 53) with 9007199254740992. lia.
  - rewrite E. replace (45 * s * 2 ^ Z.of_nat p) with (45 * 2 ^ Z.of_nat p * s) by ring.
    reflexivity.
Qed.

Lemma pow2_le (a : nat) (k : Z) :
  Z.of_nat a <= k -> 2 ^ Z.of_nat a <= 2 ^ k.
Proof. intros H. apply Z.pow_le_mono_r; lia. Qed.

Lemma on_grid_init : on_grid 0 dec_init.
Proof.
  split; [reflexivity|]. exists (-1), 1, (-1), 1.
  split; [cbn; lia|]. repeat split; vm_compute; reflexivity.
Qed.

Lemma on_grid_refine (u : bool) (m : nat) (b : DecState) :
  on_grid m b -> on_grid (S m) (refine u b).
Proof.
  intros (I & s1 & s2 & t1 & t2 & (B1 & B2 & B3 & B4) & E1 & E2 & E3 & E4).
  split; [rewrite Nat.even_succ, <- Nat.negb_even; unfold refine; rewrite I;
          destruct (Nat.even m), u; reflexivity|].
  destruct (half_cases m) as [(E & H1 & H2 & H3)|(E & H1 & H2 & H3)];
    rewrite E in I; rewrite H1 in *; rewrite H2, H3; unfold refine; rewrite I;
    destruct u; cbn [d_isLng d_minLat d_maxLat d_minLng d_maxLng].
  - exists s1, s2, (t1 + t2), (2 * t2).
    split; [rewrite Nat2Z.inj_succ, Z.pow_succ_r in * by lia; lia|].
    repeat split; try assumption.
    + rewrite pow2_S. qhalf.
      transitivity (d_minLng b * pow2 (m / 2) + d_maxLng b * pow2 (m / 2))%Q; [ring|].
      rewrite E3, E4, <- inject_Z_plus. apply inject_Z_injective. ring.
    + rewrite pow2_S.
      transitivity (2 * (d_maxLng b * pow2 (m / 2)))%Q; [ring|].
      rewrite E4. change 2%Q with (inject_Z 2). rewrite <- inject_Z_mult.
      apply inject_Z_injective. ring.
  - exists s1, s2, (2 * t1), (t1 + t2).
    split; [rewrite Nat2Z.inj_succ, Z.pow_succ_r in * by lia; lia|].
    repeat split; try assumption.
    + rewrite pow2_S.
      transitivity (2 * (d_minLng b * pow2 (m / 2)))%Q; [ring|].
      rewrite E3. change 2%Q with (inject_Z 2). rewrite <- inject_Z_mult.
      apply inject_Z_injective. ring.
    + rewrite pow2_S. qhalf.
      transitivity (d_minLng b * pow2 (m / 2) + d_maxLng b * pow2 (m / 2))%Q; [ring|].
      rewrite E3, E4, <- inject_Z_plus. apply inject_Z_injective. ring.
  - exists (s1 + s2), (2 * s2), t1, t2.
    split; [rewrite Nat2Z.inj_succ, Z.pow_succ_r in * by lia; lia|].
    repeat split; try assumption.
    + rewrite pow2_S. qhalf.
      transitivity (d_minLat b * pow2 (m / 2) + d_maxLat b * pow2 (m / 2))%Q; [ring|].
      rewrite E1, E2, <- inject_Z_plus. apply inject_Z_injective. ring.
    + rewrite pow2_S.
      transitivity (2 * (d_maxLat b * pow2 (m / 2)))%Q; [ring|].
      rewrite E2. change 2%Q with (inject_Z 2). rewrite <- inject_Z_mult.
      apply inject_Z_injective. ring.
  - exists (2 * s1), (s1 + s2), t1, t2.
    split; [rewrite Nat2Z.inj_succ, Z.pow_succ_r in * by lia; lia|].
    repeat split; try assumption.
    + rewrite pow2_S.
      transitivity (2 * (d_minLat b * pow2 (m / 2)))%Q; [ring|].
      rewrite E1. change 2%Q with (inject_Z 2). rewrite <- inject_Z_mult.
      apply inject_Z_injective. ring.
    + rewrite pow2_S. qhalf.
      transitivity (d_minLat b * pow2 (m / 2) + d_maxLat b * pow2 (m / 2))%Q; [ring|].
      rewrite E1, E2, <- inject_Z_plus. apply inject_Z_injective. ring.
Qed.

Lemma binary64_lat (x : Q) (a : nat) (s : Z) :
  (x * pow2 a == inject_Z (90 * s))%Q -> Z.abs s <= 2 ^ 47 -> (a <= 100)%nat ->
  binary64 x.
Proof.
  intros E S A. apply (binary64_scaled x 1 a s); [|exact S | lia | exact A].
  rewrite E. apply inject_Z_injective. change (2 ^ Z.of_nat 1) with 2. ring.
Qed.

Lemma binary64_lng (x : Q) (a : nat) (s : Z) :
  (x * pow2 a == inject_Z (180 * s))%Q -> Z.abs s <= 2 ^ 47 -> (a <= 100)%nat ->
  binary64 x.
Proof.
  intros E S A. apply (binary64_scaled x 2 a s); [|exact S | lia | exact A].
  rewrite E. apply inject_Z_injective. change (2 ^ Z.of_nat 2) with 4. ring.
Qed.

(** The five numbers of one axis, from its two bounds on the grid. *)
Lemma axis_exact (lo hi : Q) (a : nat) (c s1 s2 : Z)
  (scaled : forall x k s, (x * pow2 k == inject_Z (c * s))%Q -> Z.abs s <= 2 ^ 47 ->
                          (k <= 100)%nat -> binary64 x) :
  (a <= 45)%nat ->
  Z.abs s1 <= 2 ^ Z.of_nat a -> Z.abs s2 <= 2 ^ Z.of_nat a ->
  (lo * pow2 a == inject_Z (c * s1))%Q -> (hi * pow2 a == inject_Z (c * s2))%Q ->
  binary64 lo /\ binary64 hi /\ binary64 (lo + hi) /\ binary64 ((lo + hi) / 2) /\
  binary64 ((hi - lo) / 2).
Proof.
  intros A B1 B2 E1 E2.
  assert (P : 2 ^ Z.of_nat a <= 2 ^ 45) by (apply pow2_le; lia).
  change (2 ^ 45) with 35184372088832 in P.
  assert (T : 2 ^ 47 = 140737488355328) by reflexivity.
  repeat split.
  - apply (scaled lo a s1 E1); lia.
  - apply (scaled hi a s2 E2); lia.
  - apply (scaled (lo + hi)%Q a (s1 + s2)); [|lia|lia].
    transitivity (lo * pow2 a + hi * pow2 a)%Q; [ring|].
    rewrite E1, E2, <- inject_Z_plus. apply inject_Z_injective. ring.
  - apply (scaled ((lo + hi) / 2)%Q (S a) (s1 + s2)); [|lia|lia].
    rewrite pow2_S. qhalf.
    transitivity (lo * pow2 a + hi * pow2 a)%Q; [ring|].
    rewrite E1, E2, <- inject_Z_plus. apply inject_Z_injective. ring.
  - apply (scaled ((hi - lo) / 2)%Q (S a) (s2 - s1)); [|lia|lia].
    rewrite pow2_S. qhalf.
    transitivity (hi * pow2 a - lo * pow2 a)%Q; [ring|].
    rewrite E1, E2. unfold Qminus. rewrite <- inject_Z_opp, <- inject_Z_plus.
    apply inject_Z_injective. ring.
Qed.

Lemma on_grid_exact (m : nat) (b : DecState) :
  on_grid m b -> (m <= 90)%nat -> exact_cell b.
Proof.
  intros (_ & s1 & s2 & t1 & t2 & (B1 & B2 & B3 & B4) & E1 & E2 & E3 & E4) M.
  assert (A : (m / 2 <= 45)%nat)
    by (change 45%nat with (90 / 2)%nat; apply Nat.Div0.div_le_mono; exact M).
  assert (O : ((m + 1) / 2 <= 45)%nat)
    by (change 45%nat with (91 / 2)%nat; apply Nat.Div0.div_le_mono; lia).
  split.
  - exact (axis_exact _ _ _ 90 s1 s2 binary64_lat A B1 B2 E1 E2).
  - exact (axis_exact _ _ _ 180 t1 t2 binary64_lng O B3 B4 E3 E4).
Qed.

(** Up to 90 halvings, that is 18 characters, every number that the loops
    of [encodeGeohash] and [decodeGeohash] compute is held exactly by a
    binary64 value, so the double arithmetic of the code rounds nowhere and
    is the rational arithmetic of the embedding. *)
Lemma geohash_cells_exact (bits : list bool) :
  (List.length bits <= 90)%nat ->
  exact_cell (fold_left (fun b u => refine u b) bits dec_init).
Proof.
  intros L.
  assert (G : forall l m b, on_grid m b ->
                on_grid (List.length l + m) (fold_left (fun b u => refine u b) l b)).
  { induction l as [|u l IH]; intros m b H; [exact H|].
    cbn [fold_left List.length].
    replace (S (List.length l) + m)%nat with (List.length l + S m)%nat by lia.
    apply IH. now apply on_grid_refine. }
  apply (on_grid_exact (List.length bits + 0)); [|lia].
  apply G. exact on_grid_init.
Qed.

Lemma on_grid_decode_chars (w : string) :
  forall m b bf, on_grid m b -> decode_chars w b = Return bf ->
                 on_grid (5 * String.length w + m) bf.
Proof.
  induction w as [|c w IH]; intros m b bf H D; cbn [decode_chars] in D.
  - injection D as <-. exact H.
  - destruct (indexOf BASE32 c =? -1); [discriminate|].
    apply (IH (5 + m)%nat) in D.
    + cbn [String.length].
      replace (5 * S (String.length w) + m)%nat
        with (5 * String.length w + (5 + m))%nat by lia.
      exact D.
    + unfold decode_bits. rewrite !decode_bit_refine.
      now do 5 apply on_grid_refine.
Qed.

(** The cell that [decodeGeohash] reaches for a hash of at most 18
    characters, with the centre and the errors it returns. *)
Lemma decodeGeohash_exact (h : string) (bf : DecState) :
  strlen h <= 18 ->
  decode_chars (toLowerCase h) dec_init = Return bf -> exact_cell bf.
Proof.
  intros L D. apply on_grid_decode_chars with (m := 0%nat) (1 := on_grid_init) in D.
  apply (on_grid_exact _ _ D).
  rewrite toLowerCase_length. unfold strlen in L. lia.
Qed.

(** The cells that [encodeGeohash] walks through for a precision of at most
    18 characters. *)
Lemma encodeGeohash_exact (la lo : Q) (n : nat) :
  (n <= 18)%nat -> exact_cell (cell_after n la lo dec_init).
Proof.
  intros L.
  assert (G : forall k m b, on_grid m b -> on_grid (5 * k + m) (cell_after k la lo b)).
  { induction k as [|k IH]; intros m b H; [exact H|].
    cbn [cell_after].
    replace (5 * S k + m)%nat with (5 * k + (5 + m))%nat by lia.
    apply IH. unfold char_cell, next_cell. cbn [Nat.iter].
    now do 5 apply on_grid_refine. }
  apply (on_grid_exact (5 * n + 0)); [|lia].
  apply G. exact on_grid_init.
Qed.

(** ** One-time codes and QR payloads across calls *)

Section TotpMore.
Variable TOTP_SECRET : string.

Local Abbreviation generateTOTP := (generateTOTP TOTP_SECRET).
Local Abbreviation verifyTOTP := (verifyTOTP TOTP_SECRET).

(** X8. [verifyTOTP] accepts a code exactly when it is the code of one of
    the instants [now + k * 30000] with [-windowSize <= k <= windowSize];
    with a negative window it accepts nothing. *)
Theorem verifyTOTP_accepts_iff (code secret : string) (windowSize now : Z) :
  (verifyTOTP code secret windowSize now = true <->
   exists k, - windowSize <= k <= windowSize /\
             generateTOTP secret (Some (now + k * TOTP_WINDOW)) now = code) /\
  (windowSize < 0 -> verifyTOTP code secret windowSize now = false).
Proof.
  split; [apply verifyTOTP_spec|].
  intros Hw. destruct (verifyTOTP code secret windowSize now) eqn:E; [|reflexivity].
  apply verifyTOTP_spec in E. destruct E as (k & Hk & _). lia.
Qed.

Lemma window_shift (now k : Z) :
  (now + k * TOTP_WINDOW) / TOTP_WINDOW = now / TOTP_WINDOW + k.
Proof. unfold TOTP_WINDOW. rewrite Z.div_add by lia. reflexivity. Qed.

Lemma verifyTOTP_skew (secret : string) (t clock now : Z) :
  t <> 0 -> TOTP_WINDOW < now -> Z.abs (now - t) <= TOTP_WINDOW ->
  verifyTOTP (generateTOTP secret (Some t) clock) secret 1 now = true.
Proof.
  intros Ht Hnow Hskew. apply verifyTOTP_spec.
  exists (t / TOTP_WINDOW - now / TOTP_WINDOW).
  assert (B : now / TOTP_WINDOW - 1 <= t / TOTP_WINDOW <= now / TOTP_WINDOW + 1).
  { pose proof (window_shift now 1) as U. pose proof (window_shift now (-1)) as L.
    assert (L' : (now + -1 * TOTP_WINDOW) / TOTP_WINDOW <= t / TOTP_WINDOW)
      by (unfold TOTP_WINDOW in *; apply Z.div_le_mono; lia).
    assert (U' : t / TOTP_WINDOW <= (now + 1 * TOTP_WINDOW) / TOTP_WINDOW)
      by (unfold TOTP_WINDOW in *; apply Z.div_le_mono; lia).
    lia. }
  split; [lia|].
  apply generateTOTP_same_window. unfold clockTime.
  assert ((t =? 0) = false) as -> by lia.
  destruct (now + (t / TOTP_WINDOW - now / TOTP_WINDOW) * TOTP_WINDOW =? 0) eqn:E.
  - apply Z.eqb_eq in E. unfold TOTP_WINDOW in *. lia.
  - rewrite window_shift. lia.
Qed.

(** X9. Clock skew of up to one window is tolerated: a code generated for a
    (non-zero) time [t] verifies at every clock reading [now] at most 30
    seconds from [t], wherever the two fall in their windows. *)
Theorem verifyTOTP_tolerates_skew (secret : string) (t clock now : Z) :
  t <> 0 -> TOTP_WINDOW < now -> Z.abs (now - t) <= TOTP_WINDOW ->
  verifyTOTP (generateTOTP secret (Some t) clock) secret 1 now = true.
Proof. exact (verifyTOTP_skew secret t clock now). Qed.

End TotpMore.

Section QRMore.
Variable TOTP_SECRET : string.
Variable NumberToString : JSNumber -> string.
Variable StringToNumber : string -> JSNumber.
Variable JSON_parse : string -> Completion JSON.
Variable JSON_stringify : JSON -> string.
Variable base64_decode : string -> string.
Variable base64_encode : string -> string.

Local Abbreviation verifyQRPayload :=
  (verifyQRPayload TOTP_SECRET NumberToString StringToNumber JSON_parse base64_decode).
Local Abbreviation generateSecureQRPayload :=
  (generateSecureQRPayload TOTP_SECRET JSON_stringify base64_encode).

Lemma Qlt_bool_inject (a b : Z) : Qlt_bool (inject_Z a) (inject_Z b) = (a <? b).
Proof.
  unfold Qlt_bool. destruct (Qle_bool (inject_Z b) (inject_Z a)) eqn:E.
  - apply Qle_bool_iff in E. rewrite <- Zle_Qle in E. cbn. symmetry. lia.
  - cbn. symmetry. apply Z.ltb_lt.
    destruct (Z.lt_ge_cases a b) as [H|H]; [exact H|].
    assert (Qle_bool (inject_Z b) (inject_Z a) = true)
      by (apply Qle_bool_iff; rewrite <- Zle_Qle; exact H).
    congruence.
Qed.

(** The answer to a payload read back as the object that was serialised:
    expired after the expiry, otherwise decided by the code alone. *)
Lemma verifyQRPayload_generated_cases
  (redemptionId userId campaignId : string) (codeNow issued now : Z) :
  let token := generateSecureQRPayload redemptionId userId campaignId codeNow issued in
  let secret := redemptionId +:+ "-" +:+ userId +:+ "-" +:+ campaignId in
  JSON_parse (base64_decode (fst token)) =
    Return (qrObject TOTP_SECRET redemptionId userId campaignId codeNow issued) ->
  verifyQRPayload (fst token) now =
    if issued + TOTP_WINDOW <? now then qrExpired
    else if verifyTOTP TOTP_SECRET (generateTOTP TOTP_SECRET secret None codeNow) secret 1 now
         then qrValid (Some (JString redemptionId)) (Some (JString userId))
                      (Some (JString campaignId))
         else qrInvalidCode.
Proof.
  cbv zeta. intros Hparse.
  unfold Verification.verifyQRPayload, verifyQRPayload_try.
  rewrite Hparse. unfold qrObject. cbn [bindC getProp assoc String.eqb Ascii.eqb
    Bool.eqb ToNumberValue gtNumber].
  rewrite Qlt_bool_inject.
  destruct (issued + TOTP_WINDOW <? now); [reflexivity|].
  cbn [ToStringValue ToString bindC].
  destruct (Verification.verifyTOTP _ _ _ _ _); reflexivity.
Qed.


(** X11. A payload that parses to a number, a string, a boolean or an array
    carries none of the fields: it is not expired, its code is [undefined],
    and the answer is the invalid-code failure; only [null] and unparsable
    text give the malformed failure. *)
Theorem verifyQRPayload_non_object (encodedPayload : string) (now : Z) (payload : JSON) :
  JSON_parse (base64_decode encodedPayload) = Return payload ->
  match payload with
  | JNull => verifyQRPayload encodedPayload now = qrMalformed
  | JObject _ => True
  | _ => verifyQRPayload encodedPayload now = qrInvalidCode
  end.
Proof.
  intros H. unfold Verification.verifyQRPayload, verifyQRPayload_try. rewrite H.
  destruct payload; try exact I; reflexivity.
Qed.

End QRMore.

(** ** The guard and the orchestrator across calls *)

(** X12. A sweep does nothing until five minutes have passed since the last
    one; a sweep that is due stamps the time and keeps exactly the entries
    that are at most 24 hours old; and sweeping twice at the same instant is
    the same as sweeping once. *)
Theorem cleanupExpiredSessions_spec (now : Z) (g : Guard) :
  let g' := cleanupExpiredSessions now g in
  (now - lastCleanup g < CLEANUP_INTERVAL -> g' = g) /\
  (CLEANUP_INTERVAL <= now - lastCleanup g ->
   lastCleanup g' = now /\
   forall k t,
     (usedSessionIds g' !! k = Some t <->
      usedSessionIds g !! k = Some t /\ now - t <= SESSION_TTL) /\
     (recentRedemptions g' !! k = Some t <->
      recentRedemptions g !! k = Some t /\ now - t <= SESSION_TTL)) /\
  cleanupExpiredSessions now g' = g'.
Proof.
  cbv zeta. split; [|split].
  - intros H. unfold cleanupExpiredSessions.
    now assert ((now - lastCleanup g <? CLEANUP_INTERVAL) = true) as -> by lia.
  - intros H. split.
    + unfold cleanupExpiredSessions.
      now assert ((now - lastCleanup g <? CLEANUP_INTERVAL) = false) as -> by lia.
    + intros k t. rewrite cleanup_lookup_used, cleanup_lookup_recent.
      assert ((now - lastCleanup g <? CLEANUP_INTERVAL) = false) as -> by lia.
      split.
      * destruct (usedSessionIds g !! k) as [u|]; [|split; [discriminate | intros [? _]; discriminate]].
        case_bool_decide; split; try discriminate.
        -- intros [[= ->] ?]. lia.
        -- intros [= ->]. split; [reflexivity | lia].
        -- intros [[= ->] _]. reflexivity.
      * destruct (recentRedemptions g !! k) as [u|]; [|split; [discriminate | intros [? _]; discriminate]].
        case_bool_decide; split; try discriminate.
        -- intros [[= ->] ?]. lia.
        -- intros [= ->]. split; [reflexivity | lia].
        -- intros [[= ->] _]. reflexivity.
  - destruct (now - lastCleanup g <? CLEANUP_INTERVAL) eqn:E.
    + assert (G : cleanupExpiredSessions now g = g)
        by (unfold cleanupExpiredSessions; now rewrite E).
      now rewrite !G.
    + assert (L : lastCleanup (cleanupExpiredSessions now g) = now)
        by (unfold cleanupExpiredSessions; now rewrite E).
      generalize dependent (cleanupExpiredSessions now g). intros g' L.
      unfold cleanupExpiredSessions. rewrite L.
      now assert ((now - now <? CLEANUP_INTERVAL) = true) as ->
        by (unfold CLEANUP_INTERVAL; lia).
Qed.

Section OrchestratorMore.
Variable TOTP_SECRET : string.
Variable NumberToString : JSNumber -> string.
Variable JSON_stringify : JSON -> string.
Variable base64_encode : string -> string.
Variables Math_sin Math_cos Math_sqrt : Q -> Q.
Variable Math_atan2 : Q -> Q -> Q.
Variable getDay : Z -> Z.
Variable toLocaleTimeString : Z -> string -> string.

Local Abbreviation verifyRedemption :=
  (verifyRedemption TOTP_SECRET NumberToString JSON_stringify base64_encode
     Math_sin Math_cos Math_sqrt Math_atan2 getDay toLocaleTimeString).
Local Abbreviation analyzeTelemetry :=
  (analyzeTelemetry NumberToString Math_sin Math_cos Math_sqrt Math_atan2).
Local Abbreviation isWithinBusinessHours :=
  (isWithinBusinessHours getDay toLocaleTimeString).
Local Abbreviation generateSecureQRPayload :=
  (generateSecureQRPayload TOTP_SECRET JSON_stringify base64_encode).

Lemma verifyRedemption_replay_path request campaign now entropy g t :
  usedSessionIds (cleanupExpiredSessions now g) !! sessionId request = Some t ->
  verifyRedemption request campaign now entropy g =
    (replayRejection, cleanupExpiredSessions now g).
Proof. intros H. unfold Verification.verifyRedemption. now rewrite H. Qed.

Lemma verifyRedemption_limit_path request campaign now entropy g t :
  usedSessionIds (cleanupExpiredSessions now g) !! sessionId request = None ->
  recentRedemptions (cleanupExpiredSessions now g) !! userCampaignKey request = Some t ->
  t <> 0 -> now - t < 24 * 60 * 60 * 1000 ->
  verifyRedemption request campaign now entropy g =
    (rateLimitRejection, cleanupExpiredSessions now g).
Proof.
  intros U R Ht Hd. unfold Verification.verifyRedemption.
  rewrite U. fold (userCampaignKey request). rewrite R.
  assert ((t =? 0) = false) as -> by lia.
  assert ((now - t <? 24 * 60 * 60 * 1000) = true) as -> by lia.
  reflexivity.
Qed.

Lemma verifyRedemption_success_guard request campaign now entropy g :
  success (fst (verifyRedemption request campaign now entropy g)) = true ->
  snd (verifyRedemption request campaign now entropy g) =
    mkGuard (<[sessionId request := now]>
               (usedSessionIds (cleanupExpiredSessions now g)))
            (<[userCampaignKey request := now]>
               (recentRedemptions (cleanupExpiredSessions now g)))
            (lastCleanup (cleanupExpiredSessions now g)).
Proof.
  unfold Verification.verifyRedemption. fold (userCampaignKey request).
  destruct (usedSessionIds (cleanupExpiredSessions now g) !! sessionId request);
    [cbn; discriminate|].
  match goal with
  | |- context [if ?b then (mkVerificationResult false _ _ _ _ (Some []) 0, _) else _] =>
      destruct b
  end; [cbn; discriminate|].
  match goal with |- context [if negb ?b then _ else _] => destruct b end;
    cbn [negb]; [|cbn; discriminate].
  destruct (70 <=? _); cbn; [discriminate | reflexivity].
Qed.

(** X13. Replay across two calls: once a call has succeeded, any call made
    with the same session identifier no more than 24 hours later (by the
    clock) is rejected as a replay, whatever else it carries. *)
Theorem verifyRedemption_replay_after_success
  (request request' : VerificationRequest) (campaign campaign' : Campaign)
  (now now' : Z) (entropy entropy' : string) (g : Guard) :
  success (fst (verifyRedemption request campaign now entropy g)) = true ->
  sessionId request' = sessionId request ->
  now' - now <= SESSION_TTL ->
  fst (verifyRedemption request' campaign' now' entropy'
         (snd (verifyRedemption request campaign now entropy g))) = replayRejection.
Proof.
  intros Hs Hsid Hage. rewrite (verifyRedemption_success_guard _ _ _ _ _ Hs).
  erewrite verifyRedemption_replay_path; [reflexivity|].
  rewrite cleanup_lookup_used. cbn [usedSessionIds lastCleanup].
  rewrite Hsid, lookup_insert_eq.
  destruct (_ <? _); [reflexivity|].
  rewrite bool_decide_eq_false_2 by lia. reflexivity.
Qed.

(** X14. Rate limit across two calls: once a call has succeeded (at a clock
    reading other than 0), a call for the same user and campaign under a
    session identifier that was never used, made less than 24 hours later,
    is rejected with the rate-limit result. *)
Theorem verifyRedemption_rate_limit_after_success
  (request request' : VerificationRequest) (campaign campaign' : Campaign)
  (now now' : Z) (entropy entropy' : string) (g : Guard) :
  success (fst (verifyRedemption request campaign now entropy g)) = true ->
  now <> 0 ->
  userId request' = userId request -> campaignId request' = campaignId request ->
  sessionId request' <> sessionId request ->
  usedSessionIds g !! sessionId request' = None ->
  now' - now < 24 * 60 * 60 * 1000 ->
  fst (verifyRedemption request' campaign' now' entropy'
         (snd (verifyRedemption request campaign now entropy g))) = rateLimitRejection.
Proof.
  intros Hs Hclock Hu Hc Hsid Hfresh Hage.
  rewrite (verifyRedemption_success_guard _ _ _ _ _ Hs).
  erewrite (verifyRedemption_limit_path _ _ _ _ _ now); [reflexivity| | |exact Hclock|exact Hage].
  - rewrite cleanup_lookup_used. cbn [usedSessionIds lastCleanup].
    rewrite lookup_insert_ne by congruence.
    rewrite cleanup_lookup_used, Hfresh.
    repeat destruct (_ <? _); reflexivity.
  - rewrite cleanup_lookup_recent. cbn [recentRedemptions lastCleanup].
    unfold userCampaignKey. rewrite Hu, Hc, lookup_insert_eq.
    destruct (_ <? _); [reflexivity|].
    rewrite bool_decide_eq_false_2; [reflexivity | unfold SESSION_TTL; lia].
Qed.

(** X15. A result is a success exactly when it carries a redemption: a
    successful call has a risk score below 70, the identifier
    [r_<now>_<entropy>], the token issued for it and the expiry 30 seconds
    after the call, and no error; a rejected call has an error message and
    neither identifier, token nor expiry. *)
Theorem verifyRedemption_result_shape
  (request : VerificationRequest) (campaign : Campaign) (now : Z)
  (entropy : string) (g : Guard) :
  let r := fst (verifyRedemption request campaign now entropy g) in
  let rid := "r_" +:+ integer_to_string now +:+ "_" +:+ entropy in
  if success r then
    riskScore r < 70 /\
    riskScore r =
      analysisRisk (analyzeTelemetry (telemetry request) campaign (userId request) now) /\
    redemptionId r = Some rid /\
    totpCode r =
      Some (fst (generateSecureQRPayload rid (userId request) (campaignId request) now now)) /\
    expiresAt r = Some (now + TOTP_WINDOW) /\
    resultError r = None
  else
    redemptionId r = None /\ totpCode r = None /\ expiresAt r = None /\
    resultError r <> None /\ fraudFlags r <> None.
Proof.
  cbv zeta. unfold Verification.verifyRedemption.
  destruct (usedSessionIds (cleanupExpiredSessions now g) !! sessionId request);
    [cbn; repeat split; discriminate|].
  match goal with
  | |- context [if ?b then (mkVerificationResult false _ _ _ _ (Some []) 0, _) else _] =>
      destruct b
  end; [cbn; repeat split; discriminate|].
  match goal with |- context [if negb ?b then _ else _] => destruct b eqn:Hh end;
    cbn [negb].
  - destruct (70 <=? _) eqn:E; cbn [fst success redemptionId totpCode expiresAt
      resultError fraudFlags riskScore].
    + repeat split; discriminate.
    + apply Z.leb_gt in E. repeat split; (exact E || reflexivity).
  - cbn [fst success redemptionId totpCode expiresAt resultError fraudFlags].
    repeat split; try discriminate.
    destruct (businessHours campaign) as [[|h hs]|]; cbn [fst snd] in Hh |- *;
      try discriminate.
    unfold Verification.isWithinBusinessHours in *.
    destruct (find _ _); [|discriminate].
    destruct (_ || _); [discriminate | cbn in Hh; discriminate].
Qed.

(** X16. With no business hours configured (absent or an empty list), a
    request under an unused session identifier and without a recorded
    redemption that carries fewer than two samples is accepted: the result
    is a success with risk score 40 and the insufficient-data flag, and the
    redemption is recorded. *)
Theorem verifyRedemption_accepts_insufficient_telemetry
  (request : VerificationRequest) (campaign : Campaign) (now : Z)
  (entropy : string) (g : Guard) :
  usedSessionIds g !! sessionId request = None ->
  recentRedemptions g !! userCampaignKey request = None ->
  businessHours campaign = None \/ businessHours campaign = Some [] ->
  (List.length (telemetry request) < 2)%nat ->
  let r := fst (verifyRedemption request campaign now entropy g) in
  let g' := snd (verifyRedemption request campaign now entropy g) in
  success r = true /\ riskScore r = 40 /\
  fraudFlags r = Some [insufficientDataFlag] /\
  usedSessionIds g' !! sessionId request = Some now /\
  recentRedemptions g' !! userCampaignKey request = Some now.
Proof.
  intros Hu Hr Hb Ht. cbv zeta. unfold Verification.verifyRedemption.
  fold (userCampaignKey request).
  assert (U : usedSessionIds (cleanupExpiredSessions now g) !! sessionId request = None).
  { rewrite cleanup_lookup_used, Hu. now destruct (_ <? _). }
  assert (R : recentRedemptions (cleanupExpiredSessions now g)
                !! userCampaignKey request = None).
  { rewrite cleanup_lookup_recent, Hr. now destruct (_ <? _). }
  rewrite U, R.
  assert (A : analyzeTelemetry (telemetry request) campaign (userId request) now =
              mkAnalysis [insufficientDataFlag] 40).
  { unfold Verification.analyzeTelemetry.
    now assert ((List.length (telemetry request) <? 2)%nat = true) as ->
      by (apply Nat.ltb_lt; exact Ht). }
  destruct Hb as [-> | ->]; cbn [fst snd negb]; rewrite A;
    cbn [analysisRisk flags Z.leb Z.compare Pos.compare Pos.compare_cont
         fst snd success riskScore fraudFlags usedSessionIds recentRedemptions];
    rewrite !lookup_insert_eq; repeat split; reflexivity.
Qed.

(** X17. [isWithinBusinessHours] answers with the first entry configured for
    the day of the week: the time is valid exactly when such an entry
    exists and the formatted local time is, as text, neither before its
    opening nor after its closing time; a day without an entry is closed. *)
Theorem isWithinBusinessHours_spec (time : Z) (hours : list BusinessHours)
  (tz : option string) :
  let r := isWithinBusinessHours time (Some hours) tz in
  let timeStr := toLocaleTimeString time (default "Africa/Nairobi"%string tz) in
  match find (fun h => dayOfWeek h =? getDay time) hours with
  | None => r = (false, Some "Business closed today"%string)
  | Some h =>
      fst r = String.leb (openTime h) timeStr && String.leb timeStr (closeTime h) /\
      (fst r = false ->
       snd r = Some ("Business hours are " +:+ openTime h +:+ " - " +:+ closeTime h))
  end.
Proof.
  cbv zeta. unfold Verification.isWithinBusinessHours.
  change (default DEFAULT_BUSINESS_HOURS (Some hours)) with hours.
  destruct (find _ hours) as [h|]; [|reflexivity].
  set (t := toLocaleTimeString _ _).
  assert (L : forall a b, String.ltb a b = negb (String.leb b a)).
  { intros a b. unfold String.ltb, String.leb. rewrite (String.compare_antisym a b).
    destruct (String.compare b a); reflexivity. }
  rewrite !L. destruct (String.leb (openTime h) t), (String.leb t (closeTime h));
    cbn; split; (reflexivity || discriminate || (intros _; reflexivity)).
Qed.

End OrchestratorMore.

(** ** Order of analysis and static coordinates *)

Lemma insertByTimestamp_perm (t : GPSTelemetry) (l : list GPSTelemetry) :
  Permutation (insertByTimestamp t l) (t :: l).
Proof.
  induction l as [|u l IH]; cbn [insertByTimestamp]; [reflexivity|].
  destruct (timestamp t <=? timestamp u); [reflexivity|].
  rewrite IH. apply perm_swap.
Qed.

Lemma insertByTimestamp_sorted (t : GPSTelemetry) (l : list GPSTelemetry) :
  StronglySorted byTimestamp l -> StronglySorted byTimestamp (insertByTimestamp t l).
Proof.
  induction l as [|u l IH]; intros H; cbn [insertByTimestamp].
  - repeat constructor.
  - inversion H as [|? ? Hl Hu]; subst.
    destruct (timestamp t <=? timestamp u) eqn:E.
    + apply Z.leb_le in E. constructor; [exact H|].
      constructor; [exact E|].
      eapply List.Forall_impl; [|exact Hu]. unfold byTimestamp. intros; lia.
    + apply Z.leb_gt in E. constructor; [now apply IH|].
      eapply Permutation_Forall; [symmetry; apply insertByTimestamp_perm|].
      constructor; [unfold byTimestamp; lia | exact Hu].
Qed.

Lemma insertByTimestamp_stable (v : Z) (t : GPSTelemetry) (l : list GPSTelemetry) :
  StronglySorted byTimestamp l ->
  List.filter (atTime v) (insertByTimestamp t l) = List.filter (atTime v) (t :: l).
Proof.
  induction l as [|u l IH]; intros H; cbn [insertByTimestamp]; [reflexivity|].
  inversion H as [|? ? Hl Hu]; subst.
  destruct (timestamp t <=? timestamp u) eqn:E; [reflexivity|].
  apply Z.leb_gt in E.
  cbn [List.filter]. rewrite (IH Hl). cbn [List.filter].
  destruct (atTime v u) eqn:Eu, (atTime v t) eqn:Et; try reflexivity.
  unfold atTime in Eu, Et. apply Z.eqb_eq in Eu, Et. lia.
Qed.

Lemma sortByTimestamp_sorts (l : list GPSTelemetry) :
  Permutation (sortByTimestamp l) l /\
  StronglySorted byTimestamp (sortByTimestamp l) /\
  forall v, List.filter (atTime v) (sortByTimestamp l) = List.filter (atTime v) l.
Proof.
  unfold sortByTimestamp. induction l as [|t l (P & S & F)]; cbn [fold_right].
  - split; [reflexivity | split; [constructor | reflexivity]].
  - split; [|split].
    + rewrite insertByTimestamp_perm. now constructor.
    + now apply insertByTimestamp_sorted.
    + intros v. rewrite (insertByTimestamp_stable v t _ S).
      cbn [List.filter]. now rewrite F.
Qed.

(** X18. The telemetry is analysed in the order of a stable sort by
    timestamp: the sorted list holds the same samples, in non-decreasing
    time, and samples with equal timestamps keep their arrival order. *)
Theorem sortByTimestamp_stable_sort (l : list GPSTelemetry) :
  Permutation (sortByTimestamp l) l /\
  StronglySorted byTimestamp (sortByTimestamp l) /\
  forall v, List.filter (atTime v) (sortByTimestamp l) = List.filter (atTime v) l.
Proof. exact (sortByTimestamp_sorts l). Qed.

Section AnalysisMore.
Variable NumberToString : JSNumber -> string.
Variables Math_sin Math_cos Math_sqrt : Q -> Q.
Variable Math_atan2 : Q -> Q -> Q.

Local Abbreviation analyzeTelemetry :=
  (analyzeTelemetry NumberToString Math_sin Math_cos Math_sqrt Math_atan2).

Lemma grows_refl acc : grows acc acc.
Proof. split; [lia | exists []; now rewrite app_nil_r]. Qed.

Lemma grows_trans a b c : grows a b -> grows b c -> grows a c.
Proof.
  intros [H1 (m1 & E1)] [H2 (m2 & E2)]. split; [lia|].
  exists (m1 ++ m2). now rewrite E2, E1, app_assoc.
Qed.

Lemma grows_flag f inc acc : 0 <= inc -> grows acc (flag f inc acc).
Proof. intros H. split; [cbn; lia | now exists [f]]. Qed.

Ltac grows_cases :=
  repeat match goal with
         | |- context [if ?b then _ else _] => destruct b
         end;
  first [apply grows_refl | apply grows_flag; lia].

Lemma grows_speedCheck sorted :
  forall acc, grows acc (speedCheck Math_sin Math_cos Math_sqrt Math_atan2 sorted acc).
Proof.
  induction sorted as [|prev rest IH]; intros acc; [apply grows_refl|].
  destruct rest as [|curr rest']; [apply grows_refl|].
  cbn [speedCheck]. eapply grows_trans; [|apply IH].
  unfold speedPair. grows_cases.
Qed.

Lemma grows_accuracyCheck sorted acc : grows acc (accuracyCheck sorted acc).
Proof. unfold accuracyCheck. grows_cases. Qed.

Lemma grows_driftCheck sorted now acc : grows acc (driftCheck sorted now acc).
Proof. unfold driftCheck. destruct (last sorted); [grows_cases | apply grows_refl]. Qed.

Lemma grows_altitudeCheck sorted acc : grows acc (altitudeCheck sorted acc).
Proof.
  unfold altitudeCheck. destruct (omap altitude sorted); [apply grows_refl | grows_cases].
Qed.

Lemma grows_dwellCheck sorted campaign acc :
  grows acc (dwellCheck NumberToString Math_sin Math_cos Math_sqrt Math_atan2
               sorted campaign acc).
Proof. unfold dwellCheck. grows_cases. Qed.

Lemma filter_all {A} (p : A -> bool) (l : list A) :
  List.Forall (fun x => p x = true) l -> List.filter p l = l.
Proof.
  induction 1 as [|x l Hx _ IH]; cbn [List.filter]; [reflexivity|].
  now rewrite Hx, IH.
Qed.

Lemma static_coordinates_score
  (telemetry0 : list GPSTelemetry) (campaign : Campaign) (user : string)
  (now : Z) (la lo : Q) :
  (5 < List.length telemetry0)%nat ->
  List.Forall (fun t => (latitude t == la)%Q /\ (longitude t == lo)%Q) telemetry0 ->
  let a := analyzeTelemetry telemetry0 campaign user now in
  analysisRisk a = 100 /\ In staticCoordinatesFlag (flags a).
Proof.
  intros Hlen Hsame. cbv zeta. unfold Verification.analyzeTelemetry.
  assert ((List.length telemetry0 <? 2)%nat = false) as -> by (apply Nat.ltb_ge; lia).
  cbn [analysisRisk flags]. unfold runChecks.
  destruct (sortByTimestamp_sorts telemetry0) as (P & _ & _).
  set (sorted := sortByTimestamp telemetry0) in *.
  assert (Slen : List.length sorted = List.length telemetry0)
    by (apply Permutation_length; exact P).
  assert (Ssame : List.Forall (fun t => (latitude t == la)%Q /\ (longitude t == lo)%Q) sorted)
    by (eapply Permutation_Forall; [symmetry; exact P | exact Hsame]).
  set (acc1 := accuracyCheck sorted _).
  assert (G : grows (flag staticCoordinatesFlag 100 acc1)
                (dwellCheck NumberToString Math_sin Math_cos Math_sqrt Math_atan2
                   sorted campaign
                   (altitudeCheck sorted
                      (driftCheck sorted now (perfectCoordsCheck sorted acc1))))).
  { eapply grows_trans; [|apply grows_dwellCheck].
    eapply grows_trans; [|apply grows_altitudeCheck].
    eapply grows_trans; [|apply grows_driftCheck].
    unfold perfectCoordsCheck. destruct sorted as [|first rest] eqn:Es;
      [cbn in Slen; lia|].
    rewrite filter_all.
    - rewrite Nat.eqb_refl.
      assert ((5 <? List.length (first :: rest))%nat = true) as ->
        by (apply Nat.ltb_lt; lia).
      apply grows_refl.
    - inversion Ssame as [|? ? [F1 F2] _]; subst.
      eapply List.Forall_impl; [|exact Ssame]. intros t [T1 T2].
      apply andb_true_iff. split; apply Qeq_bool_iff.
      + now rewrite T1, F1.
      + now rewrite T2, F2. }
  destruct G as [Gs (more & Gf)].
  assert (0 <= snd acc1).
  { subst acc1. eapply Z.le_trans; [|apply grows_accuracyCheck].
    apply (grows_speedCheck sorted ([], 0)). }
  cbn [flag fst snd] in Gs, Gf. split; [lia|].
  rewrite Gf. apply in_or_app. left. apply in_or_app. right. now left.
Qed.

(** X19. Six or more samples that all report the same coordinates are always
    scored 100, with the CRITICAL static-coordinates flag among the flags,
    whatever their times, accuracies and the campaign are. *)
Theorem analyzeTelemetry_static_coordinates
  (telemetry0 : list GPSTelemetry) (campaign : Campaign) (user : string)
  (now : Z) (la lo : Q) :
  (5 < List.length telemetry0)%nat ->
  List.Forall (fun t => (latitude t == la)%Q /\ (longitude t == lo)%Q) telemetry0 ->
  let a := analyzeTelemetry telemetry0 campaign user now in
  analysisRisk a = 100 /\ In staticCoordinatesFlag (flags a).
Proof. exact (static_coordinates_score telemetry0 campaign user now la lo). Qed.

End AnalysisMore.

Section OrchestratorStatic.
Variable TOTP_SECRET : string.
Variable NumberToString : JSNumber -> string.
Variable JSON_stringify : JSON -> string.
Variable base64_encode : string -> string.
Variables Math_sin Math_cos Math_sqrt : Q -> Q.
Variable Math_atan2 : Q -> Q -> Q.
Variable getDay : Z -> Z.
Variable toLocaleTimeString : Z -> string -> string.

Local Abbreviation verifyRedemption :=
  (verifyRedemption TOTP_SECRET NumberToString JSON_stringify base64_encode
     Math_sin Math_cos Math_sqrt Math_atan2 getDay toLocaleTimeString).

(** X20. A request whose six or more samples all report the same
    coordinates never succeeds, and the guard records nothing for it. *)
Theorem verifyRedemption_rejects_static_coordinates
  (request : VerificationRequest) (campaign : Campaign) (now : Z)
  (entropy : string) (g : Guard) (la lo : Q) :
  (5 < List.length (telemetry request))%nat ->
  List.Forall (fun t => (latitude t == la)%Q /\ (longitude t == lo)%Q)
              (telemetry request) ->
  success (fst (verifyRedemption request campaign now entropy g)) = false /\
  snd (verifyRedemption request campaign now entropy g) =
    cleanupExpiredSessions now g.
Proof.
  intros Hlen Hsame.
  destruct (static_coordinates_score NumberToString Math_sin Math_cos
              Math_sqrt Math_atan2 (telemetry request) campaign (userId request)
              now la lo Hlen Hsame) as [R _].
  unfold Verification.verifyRedemption.
  destruct (usedSessionIds (cleanupExpiredSessions now g) !! sessionId request);
    [split; reflexivity|].
  match goal with
  | |- context [if ?b then (mkVerificationResult false _ _ _ _ (Some []) 0, _) else _] =>
      destruct b
  end; [split; reflexivity|].
  match goal with |- context [if negb ?b then _ else _] => destruct b end;
    cbn [negb]; [|split; reflexivity].
  rewrite R. split; reflexivity.
Qed.

End OrchestratorStatic.

(** ** The in-memory store *)

Section MapFacts.
Context {V : Type}.
Implicit Types (m : Db.JsMap V) (k : string) (v : V).

Lemma map_get_set_eq m k v : Db.map_get (Db.map_set m k v) k = Some v.
Proof.
  induction m as [|[k' v'] m IH]; cbn [Db.map_set Db.map_get].
  - now rewrite String.eqb_refl.
  - destruct (String.eqb k' k) eqn:E; cbn [Db.map_get].
    + now rewrite String.eqb_refl.
    + now rewrite E.
Qed.

Lemma map_get_set_ne m k k' v :
  k <> k' -> Db.map_get (Db.map_set m k v) k' = Db.map_get m k'.
Proof.
  intros Hne. induction m as [|[k0 v0] m IH]; cbn [Db.map_set Db.map_get].
  - now apply String.eqb_neq in Hne as ->.
  - destruct (String.eqb_spec k0 k) as [->|E0]; cbn [Db.map_get].
    + now apply String.eqb_neq in Hne as ->.
    + now rewrite IH.
Qed.

Lemma map_get_None_keys m k : Db.map_get m k = None <-> ~ In k (map fst m).
Proof.
  induction m as [|[k' v'] m IH]; cbn [Db.map_get map fst In]; [tauto|].
  destruct (String.eqb_spec k' k) as [->|E].
  - split; [discriminate | tauto].
  - rewrite IH. tauto.
Qed.

Lemma map_set_keys m k v :
  map fst (Db.map_set m k v) =
  if Db.map_has m k then map fst m else map fst m ++ [k].
Proof.
  unfold Db.map_has.
  induction m as [|[k' v'] m IH]; cbn [Db.map_set Db.map_get map fst]; [reflexivity|].
  destruct (String.eqb_spec k' k) as [->|E]; cbn [map fst]; [reflexivity|].
  rewrite IH. now destruct (Db.map_get m k).
Qed.

Lemma map_delete_keys m k :
  distinctKeys m ->
  map fst (Db.map_delete m k) = List.filter (fun k' => negb (String.eqb k' k)) (map fst m) /\
  Db.map_get (Db.map_delete m k) k = None.
Proof.
  unfold distinctKeys.
  induction m as [|[k' v'] m IH]; intros ND; cbn [Db.map_delete map fst List.filter];
    [split; reflexivity|].
  inversion ND as [|? ? Hk ND']; subst. cbn [fst] in *.
  destruct (String.eqb_spec k' k) as [->|E]; cbn [negb].
  - split; [|now apply map_get_None_keys].
    symmetry. apply filter_all. apply List.Forall_forall. intros x Hx.
    apply negb_true_iff, String.eqb_neq. intros ->. contradiction.
  - destruct (IH ND') as [IH1 IH2]. cbn [map fst Db.map_get].
    split; [now rewrite IH1|]. now apply String.eqb_neq in E as ->.
Qed.

(** [set] and [delete] keep the keys of a [Map] distinct; after
    [set] the key reads the new value and every other key reads what it read
    before, and the number of entries grows by one exactly when the key was
    absent. *)
Lemma map_set_spec m k v :
  distinctKeys m ->
  distinctKeys (Db.map_set m k v) /\
  Db.map_get (Db.map_set m k v) k = Some v /\
  (forall k', k <> k' -> Db.map_get (Db.map_set m k v) k' = Db.map_get m k') /\
  List.length (Db.map_set m k v) =
    (if Db.map_has m k then List.length m else S (List.length m)).
Proof.
  intros ND. split; [|split; [apply map_get_set_eq | split; [intros; now apply map_get_set_ne|]]].
  - unfold distinctKeys in *. rewrite map_set_keys.
    unfold Db.map_has. destruct (Db.map_get m k) eqn:G; [exact ND|].
    apply map_get_None_keys in G.
    apply List.NoDup_app; [exact ND | repeat constructor; intros [] |].
    intros x Hx [->|[]]. contradiction.
  - rewrite <- !(List.length_map fst), map_set_keys.
    destruct (Db.map_has m k); [reflexivity|].
    rewrite List.length_app. cbn. lia.
Qed.

End MapFacts.

(** X24. The four counts of [getRedemptionStats] add up to the total: every
    redemption has exactly one of the four statuses. *)
Theorem getRedemptionStats_total (campaignId0 : option string) (st : Db.Store) :
  let s := Db.getRedemptionStats campaignId0 st in
  Db.s_total s =
    (Db.s_verified s + Db.s_flagged s + Db.s_rejected s + Db.s_pending s)%nat /\
  (Db.s_total s <= List.length (Db.redemptionsStore st))%nat.
Proof.
  cbv zeta. unfold Db.getRedemptionStats.
  set (l := match Db.truthy campaignId0 with Some _ => _ | None => _ end).
  cbn [Db.s_total Db.s_verified Db.s_flagged Db.s_rejected Db.s_pending]. split.
  - clearbody l. unfold Db.countStatus.
    induction l as [|r l IH]; [reflexivity|].
    cbn [List.filter List.length]. destruct (Db.r_status r); cbn; lia.
  - subst l. unfold Db.map_values.
    destruct (Db.truthy campaignId0).
    + etransitivity; [apply List.filter_length_le|]. now rewrite List.length_map.
    + now rewrite List.length_map.
Qed.

(** X21. [createCampaign] stores the campaign under the identifier
    [c_<now>] with the precision-7 geohash of its coordinates (seven
    alphabet characters); the new identifier reads back the new campaign and
    every other identifier reads what it read before. *)
Theorem createCampaign_spec (campaign : Campaign) (now : Z) (st : Db.Store) :
  let c := fst (Db.createCampaign campaign now st) in
  let st' := snd (Db.createCampaign campaign now st) in
  id c = "c_" +:+ integer_to_string now /\
  (exists h, geohash c = Some h /\
             h = encodeGeohash (c_lat (coordinates campaign))
                               (c_lng (coordinates campaign)) 7 /\
             strlen h = 7 /\ List.Forall (fun x => In x alphabet) (chars h)) /\
  Db.getCampaignById (id c) st' = Some c /\
  (forall k, k <> id c -> Db.getCampaignById k st' = Db.getCampaignById k st) /\
  Db.redemptionsStore st' = Db.redemptionsStore st /\
  Db.usersStore st' = Db.usersStore st.
Proof.
  cbv zeta. unfold Db.createCampaign, Db.getCampaignById.
  cbn [fst snd id geohash Db.campaignsStore Db.redemptionsStore Db.usersStore].
  split; [reflexivity|]. split.
  - eexists. split; [reflexivity|]. split; [reflexivity|].
    rewrite encodeGeohash_text.
    destruct (text_after_spec (c_lat (coordinates campaign))
                (c_lng (coordinates campaign)) (Z.to_nat 7) dec_init) as (L & F & _).
    unfold strlen. rewrite L. split; [reflexivity | exact F].
  - split; [apply map_get_set_eq|]. split; [|split; reflexivity].
    intros k Hk. apply map_get_set_ne. congruence.
Qed.

(** X22. Identifiers are made from the clock alone: a second redemption
    created at the same clock reading takes the identifier of the first and
    replaces it, so the store holds one entry for the two. *)
Theorem createRedemption_same_instant (a b : Db.Redemption) (now : Z) (st : Db.Store) :
  let first := Db.createRedemption a now st in
  let second := Db.createRedemption b now (snd first) in
  Db.r_id (fst second) = Db.r_id (fst first) /\
  Db.map_get (Db.redemptionsStore (snd second)) (Db.r_id (fst first)) = Some (fst second) /\
  List.length (Db.redemptionsStore (snd second)) =
  List.length (Db.redemptionsStore (snd first)).
Proof.
  cbv zeta. unfold Db.createRedemption.
  cbn [fst snd Db.r_id Db.redemptionsStore].
  split; [reflexivity|]. split; [apply map_get_set_eq|].
  rewrite <- !(List.length_map fst), (map_set_keys (Db.map_set _ _ _)).
  unfold Db.map_has. now rewrite map_get_set_eq.
Qed.

Lemma insertNewestFirst_perm (r : Db.Redemption) (l : list Db.Redemption) :
  Permutation (Db.insertNewestFirst r l) (r :: l).
Proof.
  induction l as [|u l IH]; cbn [Db.insertNewestFirst]; [reflexivity|].
  destruct (Db.r_timestamp u <=? Db.r_timestamp r); [reflexivity|].
  rewrite IH. apply perm_swap.
Qed.

Lemma insertNewestFirst_sorted (r : Db.Redemption) (l : list Db.Redemption) :
  StronglySorted newestFirst l -> StronglySorted newestFirst (Db.insertNewestFirst r l).
Proof.
  induction l as [|u l IH]; intros H; cbn [Db.insertNewestFirst].
  - repeat constructor.
  - inversion H as [|? ? Hl Hu]; subst.
    destruct (Db.r_timestamp u <=? Db.r_timestamp r) eqn:E.
    + apply Z.leb_le in E. constructor; [exact H|].
      constructor; [exact E|].
      eapply List.Forall_impl; [|exact Hu]. unfold newestFirst. intros; lia.
    + apply Z.leb_gt in E. constructor; [now apply IH|].
      eapply Permutation_Forall; [symmetry; apply insertNewestFirst_perm|].
      constructor; [unfold newestFirst; lia | exact Hu].
Qed.

Lemma filter_filter {A} (p q : A -> bool) (l : list A) :
  List.filter q (List.filter p l) = List.filter (fun x => p x && q x) l.
Proof.
  induction l as [|x l IH]; cbn [List.filter]; [reflexivity|].
  destruct (p x); cbn [List.filter andb]; [destruct (q x)|]; now rewrite IH.
Qed.

Lemma filter_true {A} (l : list A) : List.filter (fun _ => true) l = l.
Proof. induction l as [|x l IH]; cbn [List.filter]; congruence. Qed.

(** X23. [getRedemptions] returns exactly the stored redemptions that meet
    every filter that is present and not empty (an empty filter string
    selects everything), newest first. *)
Theorem getRedemptions_spec (filters : option Db.Filters) (st : Db.Store) :
  Permutation (Db.getRedemptions filters st)
    (List.filter (matchesFilters filters) (Db.map_values (Db.redemptionsStore st))) /\
  StronglySorted newestFirst (Db.getRedemptions filters st).
Proof.
  unfold Db.getRedemptions.
  set (l := Db.map_values _).
  match goal with |- Permutation (Db.sortNewestFirst ?x) _ /\ _ => set (sel := x) end.
  assert (E : sel = List.filter (matchesFilters filters) l).
  { assert (T : forall p : Db.Redemption -> bool,
               (forall r, p r = true) -> l = List.filter p l).
    { intros p Hp. rewrite (List.filter_ext p (fun _ => true) Hp).
      symmetry. apply filter_true. }
    subst sel. unfold matchesFilters. destruct filters as [f|]; [|now apply T].
    destruct (Db.truthy (Db.f_userId f)), (Db.truthy (Db.f_campaignId f)),
      (Db.f_status f); rewrite ?filter_filter;
      first [ apply List.filter_ext; intros r; cbn [andb];
              now rewrite ?andb_true_r, ?andb_assoc
            | now apply T ]. }
  rewrite <- E. clearbody sel. clear E.
  unfold Db.sortNewestFirst. induction sel as [|r sel [P S]]; cbn [fold_right].
  - split; [reflexivity | constructor].
  - split; [rewrite insertNewestFirst_perm; now constructor|].
    now apply insertNewestFirst_sorted.
Qed.

Lemma map_delete_app {V} (pre : Db.JsMap V) (k : string) (v : V) (rest : Db.JsMap V) :
  ~ In k (map fst pre) ->
  Db.map_delete (pre ++ (k, v) :: rest) k = pre ++ rest.
Proof.
  induction pre as [|[k' v'] pre IH]; intros H; cbn [app Db.map_delete].
  - now rewrite String.eqb_refl.
  - cbn [map fst In] in H.
    destruct (String.eqb_spec k' k) as [->|E]; [tauto|].
    rewrite IH by tauto. reflexivity.
Qed.

Lemma deleteRedemptionsOf_spec (u : string) (entries : Db.JsMap Db.Redemption) :
  forall (kept : Db.JsMap Db.Redemption) (n : nat),
    distinctKeys (kept ++ entries) ->
    Db.deleteRedemptionsOf u entries (kept ++ entries) n =
      (kept ++ List.filter (fun e => negb (String.eqb (Db.r_userId (snd e)) u)) entries,
       (n + List.length
              (List.filter (fun e => String.eqb (Db.r_userId (snd e)) u) entries))%nat).
Proof.
  induction entries as [|[k r] entries IH]; intros kept n ND;
    cbn [Db.deleteRedemptionsOf List.filter snd].
  - now rewrite Nat.add_0_r.
  - unfold distinctKeys in ND. rewrite List.map_app in ND. cbn [map fst] in ND.
    destruct (String.eqb (Db.r_userId r) u) eqn:E; cbn [negb List.length].
    + rewrite map_delete_app.
      * rewrite IH; [f_equal; lia|].
        unfold distinctKeys. rewrite List.map_app.
        eapply List.NoDup_remove_1. exact ND.
      * apply List.NoDup_remove_2 in ND. rewrite in_app_iff in ND. tauto.
    + replace (kept ++ (k, r) :: entries) with ((kept ++ [(k, r)]) ++ entries)
        by now rewrite <- app_assoc.
      rewrite IH; [now rewrite <- app_assoc|].
      unfold distinctKeys. rewrite <- app_assoc, List.map_app. exact ND.
Qed.

(** X26. [deleteUserData] removes every redemption of the user and no
    other, keeping the rest in order; it reports how many it removed and
    whether the user existed, and leaves no user under that identifier. *)
Theorem deleteUserData_spec (u : string) (st : Db.Store) :
  distinctKeys (Db.redemptionsStore st) -> distinctKeys (Db.usersStore st) ->
  let result := fst (Db.deleteUserData u st) in
  let st' := snd (Db.deleteUserData u st) in
  Db.redemptionsStore st' =
    List.filter (fun e => negb (String.eqb (Db.r_userId (snd e)) u))
                (Db.redemptionsStore st) /\
  fst result =
    List.length (List.filter (fun e => String.eqb (Db.r_userId (snd e)) u)
                             (Db.redemptionsStore st)) /\
  snd result = Db.map_has (Db.usersStore st) u /\
  Db.getUserById u st' = None /\
  Db.campaignsStore st' = Db.campaignsStore st.
Proof.
  intros NDr NDu. cbv zeta. unfold Db.deleteUserData, Db.getUserById.
  pose proof (deleteRedemptionsOf_spec u (Db.redemptionsStore st) [] 0 NDr) as D.
  cbn [app] in D. rewrite D.
  cbn [fst snd app Db.redemptionsStore Db.usersStore Db.campaignsStore Nat.add].
  repeat split. now apply map_delete_keys.
Qed.

(** X25. [updateUserConsent] answers [null] for an unknown user and leaves
    the store as it is; for a known user it records the consent, stamps the
    time when consent is given and clears the stamp when it is withdrawn, and
    the user then reads back as updated. *)
Theorem updateUserConsent_spec (u : string) (consent : bool) (now : Z) (st : Db.Store) :
  match Db.getUserById u st with
  | None => Db.updateUserConsent u consent now st = (None, st)
  | Some old =>
      exists updated,
        fst (Db.updateUserConsent u consent now st) = Some updated /\
        Db.u_consentGiven updated = Some consent /\
        Db.u_consentTimestamp updated = (if consent then Some now else None) /\
        Db.u_id updated = Db.u_id old /\ Db.u_role updated = Db.u_role old /\
        Db.getUserById u (snd (Db.updateUserConsent u consent now st)) = Some updated
  end.
Proof.
  unfold Db.updateUserConsent, Db.getUserById.
  destruct (Db.map_get (Db.usersStore st) u) as [old|]; [|reflexivity].
  eexists. cbn [fst snd Db.usersStore Db.u_consentGiven Db.u_consentTimestamp
                Db.u_id Db.u_role].
  repeat split. apply map_get_set_eq.
Qed.

(** ** The verification endpoint *)

Lemma truthy_Some (s : option string) (v : string) :
  Db.truthy s = Some v <-> s = Some v /\ v <> ""%string.
Proof.
  unfold Db.truthy. destruct s as [w|]; [|split; [discriminate | intros [? _]; discriminate]].
  destruct (String.eqb_spec w ""%string) as [->|N]; split.
  - discriminate.
  - intros [E N]. injection E as <-. contradiction.
  - intros E. injection E as <-. split; [reflexivity | exact N].
  - intros [E _]. exact E.
Qed.

Lemma validated_Some (body : Route.Body) (request : VerificationRequest) :
  Route.validated body = Some request <-> carries body request.
Proof.
  unfold Route.validated, carries. split.
  - destruct (Db.truthy (Route.b_sessionId body)) as [s|] eqn:S; [|discriminate].
    destruct (Db.truthy (Route.b_userId body)) as [u|] eqn:U; [|discriminate].
    destruct (Db.truthy (Route.b_campaignId body)) as [c|] eqn:C; [|discriminate].
    destruct (Route.b_telemetry body) as [t|] eqn:T; [|discriminate].
    intros E. injection E as <-. cbn.
    apply truthy_Some in S, U, C. tauto.
  - intros (S & S' & U & U' & C & C' & T & D & K).
    rewrite (proj2 (truthy_Some _ _) (conj S S')), (proj2 (truthy_Some _ _) (conj U U')),
      (proj2 (truthy_Some _ _) (conj C C')), T, D, K.
    now destruct request.
Qed.

Section RouteFacts.
Variable TOTP_SECRET : string.
Variable NumberToString : JSNumber -> string.
Variable JSON_stringify : JSON -> string.
Variable base64_encode : string -> string.
Variables Math_sin Math_cos Math_sqrt : Q -> Q.
Variable Math_atan2 : Q -> Q -> Q.
Variable getDay : Z -> Z.
Variable toLocaleTimeString : Z -> string -> Completion string.

Local Abbreviation verifyRedemption_exn :=
  (Route.verifyRedemption_exn TOTP_SECRET NumberToString JSON_stringify base64_encode
     Math_sin Math_cos Math_sqrt Math_atan2 getDay toLocaleTimeString).
Local Abbreviation POST :=
  (Route.POST TOTP_SECRET NumberToString JSON_stringify base64_encode
     Math_sin Math_cos Math_sqrt Math_atan2 getDay toLocaleTimeString).

(** Where the formatter returns, the orchestrator of the endpoint is the
    orchestrator embedded above. *)
Lemma verifyRedemption_exn_agrees (formatted : Z -> string -> string)
  (request : VerificationRequest) (campaign : Campaign) (now : Z)
  (entropy : string) (g : Guard) :
  toLocaleTimeString (clientTimestamp request)
      (default "Africa/Nairobi"%string (timezone campaign)) =
    Return (formatted (clientTimestamp request)
              (default "Africa/Nairobi"%string (timezone campaign))) ->
  let r := Verification.verifyRedemption TOTP_SECRET NumberToString JSON_stringify
             base64_encode Math_sin Math_cos Math_sqrt Math_atan2 getDay formatted
             request campaign now entropy g in
  verifyRedemption_exn request campaign now entropy g = (Return (fst r), snd r).
Proof.
  intros F. cbv zeta. unfold Route.verifyRedemption_exn, Verification.verifyRedemption.
  destruct (usedSessionIds (cleanupExpiredSessions now g) !! sessionId request);
    [reflexivity|].
  match goal with
  | |- context [if ?b then (Return _, _) else _] => destruct b
  end; [reflexivity|].
  assert (H : match businessHours campaign with
              | Some (h :: hs) =>
                  Route.isWithinBusinessHours_exn getDay toLocaleTimeString
                    (clientTimestamp request) (businessHours campaign) (timezone campaign)
              | _ => Return (true, None)
              end =
              Return (match businessHours campaign with
                      | Some (h :: hs) =>
                          Verification.isWithinBusinessHours getDay formatted
                            (clientTimestamp request) (businessHours campaign)
                            (timezone campaign)
                      | _ => (true, None)
                      end)).
  { destruct (businessHours campaign) as [[|h hs]|]; try reflexivity.
    unfold Route.isWithinBusinessHours_exn, Verification.isWithinBusinessHours.
    destruct (find _ _); [|reflexivity].
    rewrite F. cbn [bindC]. now destruct (_ || _). }
  rewrite H.
  match goal with |- context [negb (fst ?c)] => destruct (negb (fst c)) end;
    [reflexivity|].
  destruct (70 <=? _); reflexivity.
Qed.

(** The orchestrator throws only from the formatter, after the sweep and
    before anything is recorded. *)
Lemma verifyRedemption_exn_throws (request : VerificationRequest) (campaign : Campaign)
  (now : Z) (entropy : string) (g g' : Guard) (e : Exn) :
  verifyRedemption_exn request campaign now entropy g = (Throw e, g') ->
  g' = cleanupExpiredSessions now g /\
  toLocaleTimeString (clientTimestamp request)
    (default "Africa/Nairobi"%string (timezone campaign)) = Throw e.
Proof.
  unfold Route.verifyRedemption_exn.
  destruct (usedSessionIds (cleanupExpiredSessions now g) !! sessionId request);
    [discriminate|].
  match goal with
  | |- context [if ?b then (Return _, _) else _] => destruct b
  end; [discriminate|].
  destruct (businessHours campaign) as [[|h hs]|].
  - cbn [fst negb]. destruct (70 <=? _); discriminate.
  - unfold Route.isWithinBusinessHours_exn.
    change (default DEFAULT_BUSINESS_HOURS (Some (h :: hs))) with (h :: hs).
    destruct (find _ _).
    + destruct (toLocaleTimeString _ _) as [s|e'] eqn:F; cbn [bindC].
      * destruct (_ || _); cbn [fst negb]; [discriminate|].
        destruct (70 <=? _); discriminate.
      * intros E. injection E as <- <-. split; reflexivity.
    + cbn [fst negb]. discriminate.
  - cbn [fst negb]. destruct (70 <=? _); discriminate.
Qed.


End RouteFacts.

(** ** Worked instances *)

Lemma sha256_abc :
  Crypto.sha256_hex "abc" =
  "ba7816bf8f01cfea414140de5dae2223b00361a396177a9cb410ff61f20015ad"%string.
Proof. vm_compute. reflexivity. Qed.

Lemma hmac_sha256_fox :
  Crypto.hmac_sha256_hex "key" "The quick brown fox jumps over the lazy dog" =
  "f7bc83f430538424b13298e6aa6fb143ef4d59a14946175997479dbc2d1a3cd8"%string.
Proof. vm_compute. reflexivity. Qed.

Lemma geohash_roundtrip_within_error_witness :
  exists d,
    decodeGeohash (encodeGeohash (-12842 # 10000) (368252 # 10000) 7) = Return d /\
    (Qabs (lat d - (-12842 # 10000)) <= latError d)%Q /\
    (Qabs (lng d - (368252 # 10000)) <= lngError d)%Q.
Proof.
  apply (geohash_roundtrip_within_error (-12842 # 10000) (368252 # 10000) 7).
  - split; unfold Qle; cbn; lia.
  - split; unfold Qle; cbn; lia.
  - lia.
Defined.

Lemma verifyRedemption_replay_rejected_witness :
  let t := 1700000000000 in
  let g := mkGuard {[ "sess_1"%string := t ]} ∅ t in
  sampleVerify (sampleRequest "sess_1" (t + 1000)) (t + 1000) g =
    (replayRejection, cleanupExpiredSessions (t + 1000) g).
Proof.
  cbv zeta.
  apply (verifyRedemption_replay_rejected DEFAULT_TOTP_SECRET noText noText noText
           noNumber noNumber noNumber (fun _ => noNumber) noDay (fun _ => noText)
           _ _ _ _ _ 1700000000000).
  - reflexivity.
  - left. reflexivity.
Defined.

Lemma verifyRedemption_rate_limited_witness :
  let t := 1700000000000 in
  let g := mkGuard ∅ {[ "u_1-c_1"%string := t ]} t in
  sampleVerify (sampleRequest "sess_2" (t + 1000)) (t + 1000) g =
    (rateLimitRejection, cleanupExpiredSessions (t + 1000) g).
Proof.
  cbv zeta.
  apply (verifyRedemption_rate_limited DEFAULT_TOTP_SECRET noText noText noText
           noNumber noNumber noNumber (fun _ => noNumber) noDay (fun _ => noText)
           _ _ _ _ _ 1700000000000).
  - reflexivity.
  - reflexivity.
  - lia.
  - lia.
Defined.

Lemma verifyQRPayload_outcomes_witness :
  let parse := fun _ : string =>
    Return (JObject [("exp"%string, JNumber (Finite (inject_Z 1700000000000)))]) in
  verifyQRPayload DEFAULT_TOTP_SECRET noText (fun _ => NaN) parse (fun s => s)
    "payload" 1700000000001 = qrExpired.
Proof.
  cbv zeta.
  refine (proj1 (proj2 (proj2 (proj2 (proj2
            (verifyQRPayload_outcomes DEFAULT_TOTP_SECRET noText (fun _ => NaN)
               (fun _ => Return (JObject [("exp"%string,
                                            JNumber (Finite (inject_Z 1700000000000)))]))
               (fun s => s) "payload" 1700000000001))))
            _ eq_refl) (inject_Z 1700000000000) eq_refl _).
  unfold Qlt. cbn. lia.
Defined.

Lemma encodeGeohash_prefix_witness :
  exists suffix,
    encodeGeohash (-12842 # 10000) (368252 # 10000) 7 =
    (encodeGeohash (-12842 # 10000) (368252 # 10000) 5 +:+ suffix)%string.
Proof. apply (encodeGeohash_prefix (-12842 # 10000) (368252 # 10000) 5 7). lia. Defined.

Lemma encodeGeohash_decodeGeohash_witness :
  exists d, decodeGeohash "KZF0TYP" = Return d /\
            encodeGeohash (lat d) (lng d) 7 = "kzf0typ"%string.
Proof.
  destruct (decodeGeohash "KZF0TYP") as [d|e] eqn:E.
  - exists d. split; [reflexivity|].
    refine (encodeGeohash_decodeGeohash "KZF0TYP" d _ E). vm_compute. discriminate.
  - vm_compute in E. discriminate E.
Defined.

Lemma decodeGeohash_cell_size_witness :
  exists d, decodeGeohash "kzf0typ" = Return d /\
            (latError d * inject_Z (2 ^ 17) == 90)%Q /\
            (lngError d * inject_Z (2 ^ 18) == 180)%Q.
Proof.
  destruct (decodeGeohash "kzf0typ") as [d|e] eqn:E.
  - exists d. split; [reflexivity|].
    refine (decodeGeohash_cell_size "kzf0typ" d _ E). vm_compute. discriminate.
  - vm_compute in E. discriminate E.
Defined.

Lemma verifyTOTP_tolerates_skew_witness :
  verifyTOTP DEFAULT_TOTP_SECRET
    (generateTOTP DEFAULT_TOTP_SECRET "r_1-u_1-c_1" (Some 1700000000000) 5)
    "r_1-u_1-c_1" 1 1700000029999 = true.
Proof.
  apply (verifyTOTP_tolerates_skew DEFAULT_TOTP_SECRET "r_1-u_1-c_1"
           1700000000000 5 1700000029999); unfold TOTP_WINDOW; lia.
Defined.


(** The two clock readings of [generateSecureQRPayload] on either side of a
    window edge: the token is refused one window later, before its expiry. *)
Lemma generated_token_refused_before_expiry :
  let parse := fun _ : string =>
    Return (qrObject DEFAULT_TOTP_SECRET "r_1" "u_1" "c_1" 59999 60000) in
  snd (generateSecureQRPayload DEFAULT_TOTP_SECRET noText (fun s => s)
         "r_1" "u_1" "c_1" 59999 60000) = 90000 /\
  verifyQRPayload DEFAULT_TOTP_SECRET noText (fun _ => NaN) parse (fun s => s)
    (fst (generateSecureQRPayload DEFAULT_TOTP_SECRET noText (fun s => s)
            "r_1" "u_1" "c_1" 59999 60000))
    90000 = qrInvalidCode.
Proof. vm_compute. split; reflexivity. Qed.

Lemma verifyQRPayload_non_object_witness :
  verifyQRPayload DEFAULT_TOTP_SECRET noText (fun _ => NaN)
    (fun _ => Return (JArray [])) (fun s => s) "W10=" 1700000000000 = qrInvalidCode.
Proof.
  exact (verifyQRPayload_non_object DEFAULT_TOTP_SECRET noText (fun _ => NaN)
           (fun _ => Return (JArray [])) (fun s => s) "W10=" 1700000000000
           (JArray []) eq_refl).
Defined.

Lemma verifyRedemption_replay_after_success_witness :
  let t := 1700000000000 in
  let g := mkGuard ∅ ∅ t in
  fst (sampleVerify (sampleRequest "sess_1" (t + 60000)) (t + 60000)
         (snd (sampleVerify (sampleRequest "sess_1" t) t g))) = replayRejection.
Proof.
  cbv zeta.
  apply (verifyRedemption_replay_after_success DEFAULT_TOTP_SECRET noText noText noText
           noNumber noNumber noNumber (fun _ => noNumber) noDay (fun _ => noText)).
  - vm_compute. reflexivity.
  - reflexivity.
  - unfold SESSION_TTL. lia.
Defined.

Lemma verifyRedemption_rate_limit_after_success_witness :
  let t := 1700000000000 in
  let g := mkGuard ∅ ∅ t in
  fst (sampleVerify (sampleRequest "sess_2" (t + 60000)) (t + 60000)
         (snd (sampleVerify (sampleRequest "sess_1" t) t g))) = rateLimitRejection.
Proof.
  cbv zeta.
  apply (verifyRedemption_rate_limit_after_success DEFAULT_TOTP_SECRET noText noText
           noText noNumber noNumber noNumber (fun _ => noNumber) noDay (fun _ => noText)).
  - vm_compute. reflexivity.
  - lia.
  - reflexivity.
  - reflexivity.
  - discriminate.
  - reflexivity.
  - lia.
Defined.

Lemma verifyRedemption_accepts_insufficient_telemetry_witness :
  let t := 1700000000000 in
  let r := fst (sampleVerify (sampleRequest "sess_1" t) t (mkGuard ∅ ∅ t)) in
  success r = true /\ riskScore r = 40.
Proof.
  cbv zeta.
  assert (H := verifyRedemption_accepts_insufficient_telemetry DEFAULT_TOTP_SECRET
              noText noText noText noNumber noNumber noNumber (fun _ => noNumber) noDay
              (fun _ => noText) (sampleRequest "sess_1" 1700000000000) javaHouse
              1700000000000 "00112233445566ff" (mkGuard ∅ ∅ 1700000000000)).
  destruct H as (S & R & _).
  - reflexivity.
  - reflexivity.
  - left. reflexivity.
  - cbn. lia.
  - split; [exact S | exact R].
Defined.

Lemma analyzeTelemetry_static_coordinates_witness :
  analysisRisk
    (analyzeTelemetry noText noNumber noNumber noNumber (fun _ => noNumber)
       (staticSamples 1700000000000) javaHouse "u_1" 1700000006000) = 100.
Proof.
  refine (proj1 (analyzeTelemetry_static_coordinates noText noNumber noNumber noNumber
                   (fun _ => noNumber) (staticSamples 1700000000000) javaHouse "u_1"
                   1700000006000 (-12842 # 10000) (368252 # 10000) _ _)).
  - cbn. lia.
  - repeat constructor; reflexivity.
Defined.

Lemma verifyRedemption_rejects_static_coordinates_witness :
  let t := 1700000000000 in
  let request := mkVerificationRequest "sess_1" "u_1" "c_1" (staticSamples t) "device" t in
  success (fst (sampleVerify request (t + 6000) (mkGuard ∅ ∅ t))) = false.
Proof.
  cbv zeta.
  refine (proj1 (verifyRedemption_rejects_static_coordinates DEFAULT_TOTP_SECRET noText
                   noText noText noNumber noNumber noNumber (fun _ => noNumber) noDay
                   (fun _ => noText) _ javaHouse _ _ _
                   (-12842 # 10000) (368252 # 10000) _ _)).
  - cbn. lia.
  - repeat constructor; reflexivity.
Defined.

Lemma deleteUserData_spec_witness :
  let st := Db.mkStore []
              [("r_1"%string, sampleRedemption "u_1"); ("r_2"%string, sampleRedemption "u_2")]
              [] in
  Db.redemptionsStore (snd (Db.deleteUserData "u_1" st)) =
    [("r_2"%string, sampleRedemption "u_2")] /\
  fst (fst (Db.deleteUserData "u_1" st)) = 1%nat.
Proof.
  cbv zeta.
  destruct (deleteUserData_spec "u_1"
              (Db.mkStore []
                 [("r_1"%string, sampleRedemption "u_1"); ("r_2"%string, sampleRedemption "u_2")]
                 [])) as (R & D & _).
  - unfold distinctKeys. cbn. repeat constructor; cbn; intuition discriminate.
  - unfold distinctKeys. cbn. constructor.
  - split; [exact R | exact D].
Defined.
